(** * A shallow embedding of utwutwb: adaptive row-id sets, indexes,
    plans, the rule-based optimizer, the executor and the [Wut] collection.

    Python runtime behaviour is kept where it decides an outcome: raised
    exceptions are values of [pyexc], mutations done before an exception
    stay in the returned state. *)

From Stdlib Require Import ZArith List String Bool Lia Sorted Permutation.
Import ListNotations.
Open Scope Z_scope.
Open Scope list_scope.
#[local] Set Warnings "-register-all".

(** ** Python exceptions and a result type *)

Inductive pyexc : Type :=
| AssertionError
| AttributeError
| TypeError
| KeyError
| IndexError
| NameError
| StopIteration
| OverflowError
| ValueError (msg : string).

Inductive result (A : Type) : Type :=
| Ok (a : A)
| Err (e : pyexc).
Arguments Ok {A} a.
Arguments Err {A} e.

Definition bind {A B} (m : result A) (k : A -> result B) : result B :=
  match m with Ok a => k a | Err e => Err e end.

Notation "x <- m ;; k" := (bind m (fun x => k))
  (at level 61, m at next level, right associativity).

Fixpoint mapM {A B} (f : A -> result B) (l : list A) : result (list B) :=
  match l with
  | [] => Ok []
  | x :: xs => y <- f x ;; ys <- mapM f xs ;; Ok (y :: ys)
  end.

(** ** Python values appearing as literals, attribute values and keys

    [VSet l] is a Python [set] (iterated in the order of [l]), [VList l] a
    [list]; the [array.array] an [InvertedArrayIndex] stores is a [VList]
    of [VInt]s (it iterates, and compares with [==], as that list does). *)

Inductive pyval : Type :=
| VNone
| VBool (b : bool)
| VInt (z : Z)
| VStr (s : string)
| VSet (l : list pyval)
| VList (l : list pyval).

(** numeric view: [bool] is a subclass of [int] *)
Definition num_of (v : pyval) : option Z :=
  match v with
  | VInt z => Some z
  | VBool b => Some (if b then 1 else 0)
  | _ => None
  end.

Fixpoint py_eq (a b : pyval) : bool :=
  match num_of a, num_of b with
  | Some x, Some y => Z.eqb x y
  | _, _ =>
    match a, b with
    | VNone, VNone => true
    | VStr x, VStr y => String.eqb x y
    | VSet xs, VSet ys =>
        forallb (fun x => existsb (py_eq x) ys) xs
        && forallb (fun y => existsb (fun x => py_eq x y) xs) ys
    | VList xs, VList ys =>
        (fix go (xs ys : list pyval) : bool :=
           match xs, ys with
           | [], [] => true
           | x :: xs', y :: ys' => py_eq x y && go xs' ys'
           | _, _ => false
           end) xs ys
    | _, _ => false
    end
  end.

Definition truthy (v : pyval) : bool :=
  match v with
  | VNone => false
  | VBool b => b
  | VInt z => negb (Z.eqb z 0)
  | VStr s => negb (String.eqb s "")
  | VSet l | VList l => match l with [] => false | _ => true end
  end.

(** ordering comparisons: numbers and strings order among themselves,
    sets by inclusion, lists lexicographically (the first pair of items
    that differ under [==] decides, else the lengths); anything else
    raises [TypeError] *)
Fixpoint py_lt (a b : pyval) : result bool :=
  match num_of a, num_of b with
  | Some x, Some y => Ok (Z.ltb x y)
  | _, _ =>
    match a, b with
    | VStr x, VStr y =>
        Ok (match String.compare x y with Lt => true | _ => false end)
    | VSet xs, VSet ys =>
        Ok (forallb (fun x => existsb (py_eq x) ys) xs
            && negb (forallb (fun y => existsb (py_eq y) xs) ys))
    | VList xs, VList ys =>
        (fix go (xs ys : list pyval) : result bool :=
           match xs, ys with
           | [], [] => Ok false
           | [], _ :: _ => Ok true
           | _ :: _, [] => Ok false
           | x :: xs', y :: ys' => if py_eq x y then go xs' ys' else py_lt x y
           end) xs ys
    | _, _ => Err TypeError
    end
  end.

Definition py_le (a b : pyval) : result bool :=
  r <- py_lt a b ;; Ok (r || py_eq a b).
Definition py_gt (a b : pyval) : result bool := py_lt b a.
Definition py_ge (a b : pyval) : result bool := py_le b a.

(** ** set_ops: the adaptive row-id set ([EfficientSet])

    The shapes a value of [EfficientSet] takes at run time: [None], a raw
    [int] row-id (what the indexes store, [so.add(dest_set, obj.pk)]), a
    [Box] (the singleton the module was written for), a [list] or a [set].
    A [Box] is identified by its [pk]. *)

Inductive eset : Type :=
| ENone
| EInt (r : Z)
| EBox (pk : Z)
| EList (l : list Z)
| ESet (l : list Z).

(** Modelled from the spec: [utwutwb.constants] is not in the sources;
    the spec gives A = 32 and S = 16. *)
Definition ARRAY_SIZE_MAX : nat := 32.
Definition SET_SIZE_MIN : nat := 16.

(** [set_ops.add(a, val)] for an [int] row-id [val] *)
Definition so_add (a : eset) (val : Z) : result eset :=
  match a with
  | ENone => Ok (EInt val)                      (* upgrade None -> int *)
  | EBox pk =>
      (* [a == val] runs [Box.__eq__]: [val.pk] on an int *)
      Err AttributeError
  | EList l =>
      if existsb (Z.eqb val) l then Ok a
      else
        let l' := l ++ [val] in
        if Nat.ltb ARRAY_SIZE_MAX (List.length l') then Ok (ESet l') else Ok (EList l')
  | ESet l => Ok (ESet (if existsb (Z.eqb val) l then l else l ++ [val]))
  | EInt _ =>
      (* not a Box, not a list: [assert type(a) == set] *)
      Err AssertionError
  end.

(** [set_ops.discard(a, val)] for an [int] row-id [val] *)
Definition so_discard (a : eset) (val : Z) : result eset :=
  match a with
  | ENone => Ok ENone
  | EBox pk => Err AttributeError
  | EList l =>
      if negb (existsb (Z.eqb val) l) then Ok a
      else
        let l' := remove Z.eq_dec val l in
        match l' with
        | [x] => Ok (EInt x)
        | _ => Ok (EList l')
        end
  | ESet l =>
      let l' := remove Z.eq_dec val l in
      if Nat.ltb (List.length l') SET_SIZE_MIN then Ok (EList l') else Ok (ESet l')
  | EInt _ => Err AssertionError
  end.

(** [set_ops.to_set(a)] *)
Definition so_to_set (a : eset) : result (list Z) :=
  match a with
  | ENone => Ok []
  | EBox pk => Ok [pk]
  | EList l => Ok (nodup Z.eq_dec l)
  | ESet l => Ok l
  | EInt _ => Err AssertionError
  end.

(** [set_ops.iterate(a)]: [yield from a] on an int raises [TypeError] *)
Definition so_iterate (a : eset) : result (list Z) :=
  match a with
  | ENone => Ok []
  | EBox pk => Ok [pk]
  | EList l => Ok l
  | ESet l => Ok l
  | EInt _ => Err TypeError
  end.

(** ** Condition IR

    Modelled from the spec: [utwutwb.condition] is not in the sources.
    The variants follow the spec's Condition IR (section 4.1), restricted
    to the operators of the predicate grammar (section 6); [Is] is left
    out, its result depends on object identity. *)

Inductive binop : Type :=
| Eq | Ne | Lt | Le | Gt | Ge | And | Or | In.

Inductive unop : Type :=
| Not | Invert.

Inductive cond : Type :=
| Literal (value : pyval)
| Attribute (name : string)
| Array (items : list cond)
| BinOp (op : binop) (left right : cond)
| UnaryOp (op : unop) (operand : cond).

(** Modelled from the spec: [condition.and_], which [CombineFilters] uses
    to And together the conditions of its filters. *)
Fixpoint and_ (cs : list cond) : cond :=
  match cs with
  | [] => Literal (VBool true)
  | [c] => c
  | c :: rest => BinOp And c (and_ rest)
  end.

(** ** Plan IR (plan.py) *)

Record Bound : Type := mkBound { value : pyval; inclusive : bool }.

(** [Range]: [None] stands for [UNSET] *)
Record Range : Type := mkRange { rleft : option Bound; rright : option Bound }.

(** Plan nodes refer to an index by its [number], its position in
    [Wut._iter_indexes]. *)
Inductive plan : Type :=
| Empty
| ScanFilter (condition : cond)
| Filter (condition : cond) (input : plan)
| Intersect (inputs : list plan)
| Union (inputs : list plan)
| Difference (inputs : list plan)
| IndexLookup (index : nat) (v : pyval)
| IndexRange (index : nat) (range : Range).

(** [Bound.__eq__] generated by attrs: field-wise [==] *)
Definition Bound_eq (a b : Bound) : bool :=
  py_eq (value a) (value b) && Bool.eqb (inclusive a) (inclusive b).

(** [Range._combine_bounds] *)
Definition _combine_bounds (a b : option Bound)
    (compare : pyval -> pyval -> result bool) : result (option Bound) :=
  match a, b with
  | None, _ => Ok b
  | _, None => Ok a
  | Some a', Some b' =>
      if Bound_eq a' b' then Ok (Some (mkBound (value a') (inclusive a' && inclusive b')))
      else c <- compare (value a') (value b') ;;
           if c then Ok a else Ok b
  end.

(** [Range.combine]: [Ok None] is the Python [None] (an empty range) *)
Definition combine (self other : Range) : result (option Range) :=
  left <- _combine_bounds (rleft self) (rleft other) py_gt ;;
  right <- _combine_bounds (rright self) (rright other) py_lt ;;
  match left, right with
  | Some l, Some r =>
      if inclusive l && inclusive r then
        c <- py_gt (value l) (value r) ;;
        if c then Ok None else Ok (Some (mkRange left right))
      else
        c <- py_ge (value l) (value r) ;;
        if c then Ok None else Ok (Some (mkRange left right))
  | _, _ => Ok (Some (mkRange left right))
  end.

(** [Planner.plan] *)
Fixpoint plan_of (condition : cond) : plan :=
  match condition with
  | BinOp And l r => Intersect [plan_of l; plan_of r]
  | BinOp Or l r => Union [plan_of l; plan_of r]
  | _ => ScanFilter condition
  end.

(** ** Objects, boxes and the attribute context *)

(** An application object: its identity and its attributes. *)
Record pyobj : Type := mkObj { oid : Z; fields : list (string * pyval) }.

(** Modelled from the spec: [utwutwb.id_ops.id_from_obj] is not in the
    sources; it is the object's identity. *)
Definition id_from_obj (o : pyobj) : Z := oid o.

(** [store.ObjectStorage]; [index_mem] is [None] until it is assigned
    ([attr.ib(init=False)]). *)
Record ObjectStorage : Type :=
  mkSto { obj : pyobj; pk : Z; index_mem : option (list pyval) }.

Definition ComputedAttrs := list (string * (pyobj -> pyval)).

Fixpoint assoc {V} (k : string) (l : list (string * V)) : option V :=
  match l with
  | [] => None
  | (k', v) :: rest => if String.eqb k k' then Some v else assoc k rest
  end.

(** Python's [getattr(o, name)] *)
Definition py_getattr (o : pyobj) (name : string) : result pyval :=
  match assoc name (fields o) with Some v => Ok v | None => Err AttributeError end.

(** Python list indexing [l[i]], negative indices counting from the end *)
Definition py_nth {A} (l : list A) (i : Z) : result A :=
  let n := Z.of_nat (List.length l) in
  let j := if i <? 0 then n + i else i in
  if (0 <=? j) && (j <? n) then
    match nth_error l (Z.to_nat j) with Some x => Ok x | None => Err IndexError end
  else Err IndexError.

(** Python list assignment [l[i] = x] *)
Definition py_set_nth {A} (l : list A) (i : Z) (x : A) : result (list A) :=
  let n := Z.of_nat (List.length l) in
  let j := if i <? 0 then n + i else i in
  if (0 <=? j) && (j <? n) then
    Ok (firstn (Z.to_nat j) l ++ x :: skipn (S (Z.to_nat j)) l)
  else Err IndexError.

(** ** Indexes (index.py): [HashIndex] and its subclasses [RangeIndex],
    [InvertedIndex] and [InvertedArrayIndex] *)

Record IndexParams : Type := mkParams {
  name : string;
  none_allowed : bool;
  unique : bool;
  memorize : bool }.

Inductive index_class : Type :=
| HashIndexC | RangeIndexC | InvertedIndexC | InvertedArrayIndexC.

(** the class attribute [NONE_ALLOWED] *)
Definition NONE_ALLOWED (k : index_class) : bool :=
  match k with
  | HashIndexC | RangeIndexC => true
  | InvertedIndexC | InvertedArrayIndexC => false
  end.

(** [tree] is the ordered map from key to bucket (an association list in
    key insertion order, looked up with [==]); [none_set] is the attribute
    [_HashIndex__none_set], absent ([None]) unless [none_allowed]. *)
Record Index : Type := mkIndex {
  klass : index_class;
  params : IndexParams;
  number : nat;
  mem_number : option nat;
  tree : list (pyval * eset);
  none_set : option (list Z) }.

Definition with_tree (ix : Index) (t : list (pyval * eset)) : Index :=
  mkIndex (klass ix) (params ix) (number ix) (mem_number ix) t (none_set ix).
Definition with_none_set (ix : Index) (ns : option (list Z)) : Index :=
  mkIndex (klass ix) (params ix) (number ix) (mem_number ix) (tree ix) ns.

(** [HashIndex.__init__] *)
Definition new_index (k : index_class) (p : IndexParams) : Index :=
  mkIndex k p O None [] (if NONE_ALLOWED k && none_allowed p then Some [] else None).

Fixpoint tree_get (t : list (pyval * eset)) (k : pyval) : eset :=
  match t with
  | [] => ENone
  | (k', b) :: rest => if py_eq k k' then b else tree_get rest k
  end.

Fixpoint tree_set (t : list (pyval * eset)) (k : pyval) (b : eset) : list (pyval * eset) :=
  match t with
  | [] => [(k, b)]
  | (k', b') :: rest => if py_eq k k' then (k', b) :: rest else (k', b') :: tree_set rest k b
  end.

Fixpoint tree_del (t : list (pyval * eset)) (k : pyval) : result (list (pyval * eset)) :=
  match t with
  | [] => Err KeyError
  | (k', b') :: rest =>
      if py_eq k k' then Ok rest else r <- tree_del rest k ;; Ok ((k', b') :: r)
  end.

(** [Int64Set.add] / [Int64Set.discard] on a row-id set *)
Definition iset_add (s : list Z) (x : Z) : list Z :=
  if existsb (Z.eqb x) s then s else s ++ [x].
Definition iset_discard (s : list Z) (x : Z) : list Z := remove Z.eq_dec x s.
Definition iset_of (l : list Z) : list Z := fold_left iset_add l [].

(** [Wut.getattr(obj, item, memory)] for an attribute name *)
Definition getattr_name (attrs : ComputedAttrs) (o : ObjectStorage) (attr_name : string)
    : result pyval :=
  if String.prefix "`" attr_name then
    match assoc attr_name attrs with
    | Some f => Ok (f (obj o))
    | None => Err KeyError
    end
  else py_getattr (obj o) attr_name.

(** [Wut.getattr(obj, index, memory)] *)
Definition getattr_index (attrs : ComputedAttrs) (o : ObjectStorage) (ix : Index)
    (memory : bool) : result pyval :=
  if memory && memorize (params ix) then
    match mem_number ix, index_mem o with
    | None, _ => Err AssertionError
    | _, None => Err AttributeError
    | Some m, Some im => py_nth im (Z.of_nat m)
    end
  else getattr_name attrs o (name (params ix)).

(** [for v in value]: the items of a list or set, the characters of a
    string; other values are not iterable *)
Definition py_iter (v : pyval) : result (list pyval) :=
  match v with
  | VList l | VSet l => Ok l
  | VStr s => Ok (map (fun c => VStr (String c EmptyString)) (list_ascii_of_string s))
  | _ => Err TypeError
  end.

(** [_extract_val(obj, ctx, memory)], run to the end (the loops that
    consume it mutate the index, not the value it iterates). A scalar
    index asks [ctx.getattr(obj, self, memory)]; an inverted index asks
    [ctx.getattr(obj, self.params.name, memory)], where [memory] makes
    [Wut.getattr] fail [assert isinstance(item, Index)]. *)
Definition extract_val (attrs : ComputedAttrs) (o : ObjectStorage) (ix : Index)
    (memory : bool) : result (list pyval) :=
  match klass ix with
  | HashIndexC | RangeIndexC => v <- getattr_index attrs o ix memory ;; Ok [v]
  | InvertedIndexC | InvertedArrayIndexC =>
      if memory then Err AssertionError
      else v <- getattr_name attrs o (name (params ix)) ;; py_iter v
  end.

(** [_load_val(value)] followed by the iteration of its result *)
Definition load_val (ix : Index) (value : pyval) : result (list pyval) :=
  match klass ix with
  | HashIndexC | RangeIndexC => Ok [value]
  | InvertedIndexC | InvertedArrayIndexC => py_iter value
  end.

(** Modelled from the spec: [utwutwb.constants] is not in the sources;
    [ARR_TYPE] is taken to be the signed 64-bit code ['q'] of the row-id
    sets ([Int64Set]). An item of [array.array('q', value)]: an [int]
    (a [bool] is one) in range, else [OverflowError]; anything else
    raises [TypeError]. *)
Definition arr_item (v : pyval) : result Z :=
  match num_of v with
  | Some z => if (- 2 ^ 63 <=? z) && (z <? 2 ^ 63) then Ok z else Err OverflowError
  | None => Err TypeError
  end.

(** [_store_val(value)] *)
Definition store_val (ix : Index) (vals : list pyval) : result pyval :=
  match klass ix with
  | HashIndexC | RangeIndexC => match vals with [v] => Ok v | _ => Err AssertionError end
  | InvertedIndexC => Ok (VList vals)
  | InvertedArrayIndexC => zs <- mapM arr_item vals ;; Ok (VList (map VInt zs))
  end.

(** the [ValueError] raised on a unique-constraint violation *)
Definition unique_violation : pyexc := ValueError "Unique constraint violation".

(** one key of the [for v in val] loop of [HashIndex.add] (and of the
    [added_s] loop of [HashIndex.refresh]) *)
Definition add_key (ix : Index) (pk : Z) (v : pyval) : Index * result unit :=
  match v with
  | VNone =>
      match none_set ix with
      | Some ns => (with_none_set ix (Some (iset_add ns pk)), Ok tt)
      | None => (ix, Err AttributeError)
      end
  | _ =>
      let dest_set := tree_get (tree ix) v in
      let present := match dest_set with ENone => false | _ => true end in
      if present && unique (params ix) then
        (ix, Err unique_violation)
      else
        match so_add dest_set pk with
        | Ok dest_set2 => (with_tree ix (tree_set (tree ix) v dest_set2), Ok tt)
        | Err e => (ix, Err e)
        end
  end.

(** one key of the loops of [HashIndex.remove] and of the [removed_s] loop
    of [HashIndex.refresh] *)
Definition discard_key (ix : Index) (pk : Z) (v : pyval) : Index * result unit :=
  match v with
  | VNone =>
      match none_set ix with
      | Some ns => (with_none_set ix (Some (iset_discard ns pk)), Ok tt)
      | None => (ix, Err AttributeError)
      end
  | _ =>
      match tree_get (tree ix) v with
      | ENone => (ix, Ok tt)
      | dest_set =>
          match so_discard dest_set pk with
          | Err e => (ix, Err e)
          | Ok ENone =>
              match tree_del (tree ix) v with
              | Ok t => (with_tree ix t, Ok tt)
              | Err e => (ix, Err e)
              end
          | Ok dest_set2 => (with_tree ix (tree_set (tree ix) v dest_set2), Ok tt)
          end
      end
  end.

(** a [for] loop over keys whose body mutates the index: the mutations
    done before an exception are kept *)
Fixpoint for_keys (step : Index -> Z -> pyval -> Index * result unit)
    (ix : Index) (pk : Z) (vs : list pyval) : Index * result unit :=
  match vs with
  | [] => (ix, Ok tt)
  | v :: rest =>
      match step ix pk v with
      | (ix', Ok _) => for_keys step ix' pk rest
      | (ix', Err e) => (ix', Err e)
      end
  end.

(** [HashIndex.add(obj, ctx)] ([val] left at its default [None]) *)
Definition index_add (attrs : ComputedAttrs) (ix : Index) (o : ObjectStorage)
    : Index * result pyval :=
  match extract_val attrs o ix false with
  | Err e => (ix, Err e)
  | Ok vs =>
      match for_keys add_key ix (pk o) vs with
      | (ix', Ok _) =>
          match store_val ix vs with
          | Ok v => (ix', Ok v)
          | Err e => (ix', Err e)
          end
      | (ix', Err e) => (ix', Err e)
      end
  end.

(** [HashIndex.remove(obj, ctx, val)]; [val = VNone] is the default [None] *)
Definition index_remove (attrs : ComputedAttrs) (ix : Index) (o : ObjectStorage)
    (val : pyval) : Index * result unit :=
  let vals := match val with
              | VNone => extract_val attrs o ix true
              | _ => load_val ix val
              end in
  match vals with
  | Err e => (ix, Err e)
  | Ok vs => for_keys discard_key ix (pk o) vs
  end.

Definition py_set_minus (a b : list pyval) : list pyval :=
  filter (fun x => negb (existsb (py_eq x) b)) a.

(** [set(l)]: the items of [l] without repeats under [==]; a set is
    iterated in first-occurrence order *)
Definition py_set_of (l : list pyval) : list pyval :=
  fold_left (fun acc x => if existsb (py_eq x) acc then acc else acc ++ [x]) l [].

(** [HashIndex.refresh(obj, ctx, old_val, new_val)] *)
Definition index_refresh (attrs : ComputedAttrs) (ix : Index) (o : ObjectStorage)
    (old_val new_val : pyval) : Index * result pyval :=
  if negb (memorize (params ix)) then (ix, Err AssertionError) else
  let old_new := old_l <- load_val ix old_val ;;
                 new_l <- match new_val with
                          | VNone => extract_val attrs o ix false
                          | _ => load_val ix new_val
                          end ;;
                 Ok (old_l, new_l) in
  match old_new with
  | Err e => (ix, Err e)
  | Ok (old_l, new_l) =>
      let old_val_s := py_set_of old_l in
      let new_val_s := py_set_of new_l in
      let added_s := py_set_minus new_val_s old_val_s in
      let removed_s := py_set_minus old_val_s new_val_s in
      match for_keys discard_key ix (pk o) removed_s with
      | (ix1, Err e) => (ix1, Err e)
      | (ix1, Ok _) =>
          match for_keys add_key ix1 (pk o) added_s with
          | (ix2, Err e) => (ix2, Err e)
          | (ix2, Ok _) =>
              match store_val ix new_l with
              | Ok v => (ix2, Ok v)
              | Err e => (ix2, Err e)
              end
          end
      end
  end.

(** [hasattr(index, attr_name)]: the none set is stored under its mangled
    name [_HashIndex__none_set], and only when [none_allowed] *)
Definition index_hasattr (ix : Index) (attr_name : string) : bool :=
  String.eqb attr_name "params" || String.eqb attr_name "tree"
  || String.eqb attr_name "number" || String.eqb attr_name "mem_number"
  || (String.eqb attr_name "_HashIndex__none_set"
      && match none_set ix with Some _ => true | None => false end).

(** [HashIndex.clear] *)
Definition index_clear (ix : Index) : Index :=
  let ix1 := with_tree ix [] in
  if index_hasattr ix1 "__none_set" then with_none_set ix1 (Some []) else ix1.

(** [HashIndex.make_val] *)
Definition index_make_val (attrs : ComputedAttrs) (ix : Index) (o : ObjectStorage)
    : result pyval :=
  vs <- extract_val attrs o ix false ;; store_val ix vs.

(** [HashIndex.lookup] *)
Definition index_lookup (ix : Index) (v : pyval) : result (list Z) :=
  match v with
  | VNone => match none_set ix with Some ns => Ok ns | None => Err AttributeError end
  | _ => so_to_set (tree_get (tree ix) v)
  end.

(** the key filter of [tree.values(left, right, excludemin=.., excludemax=..)];
    a bound value of [None] means no bound *)
Definition key_in_range (r : Range) (k : pyval) : result bool :=
  lo <- match rleft r with
        | Some (mkBound VNone _) | None => Ok true
        | Some b => if inclusive b then py_ge k (value b) else py_gt k (value b)
        end ;;
  hi <- match rright r with
        | Some (mkBound VNone _) | None => Ok true
        | Some b => if inclusive b then py_le k (value b) else py_lt k (value b)
        end ;;
  Ok (lo && hi).

Fixpoint range_values (r : Range) (t : list (pyval * eset)) : result (list eset) :=
  match t with
  | [] => Ok []
  | (k, b) :: rest =>
      c <- key_in_range r k ;;
      bs <- range_values r rest ;;
      Ok (if c then b :: bs else bs)
  end.

(** [RangeIndex.range] *)
Definition index_range (ix : Index) (r : Range) : result (list Z) :=
  vals <- range_values r (tree ix) ;;
  fold_left (fun acc b => s <- acc ;; xs <- so_iterate b ;; Ok (fold_left iset_add xs s))
    vals (Ok []).

(** [RangeIndex.INVERSE_COMPARISONS] and [COMPARISON_RANGES] *)
Definition inverse_comparison (op : binop) : binop :=
  match op with Lt => Gt | Gt => Lt | Le => Ge | Ge => Le | o => o end.

Definition comparison_range (op : binop) (v : pyval) : Range :=
  match op with
  | Lt => mkRange None (Some (mkBound v false))
  | Gt => mkRange (Some (mkBound v false)) None
  | Le => mkRange None (Some (mkBound v true))
  | _ => mkRange (Some (mkBound v true)) None
  end.

Definition is_comparison (op : binop) : bool :=
  match op with Lt | Gt | Le | Ge => true | _ => false end.

Definition literal_value (c : cond) : option pyval :=
  match c with Literal v => Some v | _ => None end.

(** [HashIndex.match(condition, operand)]; [operand_is_left] says whether
    [operand is condition.left] *)
Definition hash_match (ix : Index) (op : binop) (operand_is_left : bool) (operand : cond)
    : option plan :=
  match op, operand with
  | Eq, Literal v => Some (IndexLookup (number ix) v)
  | In, Array items =>
      if negb operand_is_left then
        match mapM (fun i => match literal_value i with
                             | Some v => Ok v | None => Err TypeError end) items with
        | Ok vs => Some (Union (map (IndexLookup (number ix)) vs))
        | Err _ => None
        end
      else None
  | _, _ => None
  end.

(** [InvertedIndex.match] *)
Definition inverted_match (ix : Index) (op : binop) (operand_is_left : bool) (operand : cond)
    : option plan :=
  match op, operand_is_left, operand with
  | In, true, Literal v => Some (IndexLookup (number ix) v)
  | _, _, _ => None
  end.

(** [Index.match], dispatched on the class *)
Definition index_match (ix : Index) (op : binop) (operand_is_left : bool) (operand : cond)
    : option plan :=
  match klass ix with
  | HashIndexC => hash_match ix op operand_is_left operand
  | InvertedIndexC | InvertedArrayIndexC => inverted_match ix op operand_is_left operand
  | RangeIndexC =>
      match is_comparison op, operand with
      | true, Literal v =>
          let comparison := if operand_is_left then inverse_comparison op else op in
          Some (IndexRange (number ix) (comparison_range comparison v))
      | _, _ => hash_match ix op operand_is_left operand
      end
  end.

(** ** Storage ([store.ListStore]) and the identity map *)

Definition Items := list (option ObjectStorage).

(** [ListStore.set(pk, obj)]: the new box and the new item list *)
Definition ls_set (items : Items) (pk : Z) (o : pyobj) : result (Items * ObjectStorage) :=
  let sto := mkSto o pk None in
  let n := Z.of_nat (List.length items) in
  if n =? pk then Ok (items ++ [Some sto], sto)
  else
    let items' := if n <? pk then items ++ repeat None (Z.to_nat (pk - n + 1)) else items in
    cur <- py_nth items' pk ;;
    match cur with
    | Some _ => Err AssertionError
    | None => items'' <- py_set_nth items' pk (Some sto) ;; Ok (items'', sto)
    end.

(** [ListStore.get(pk)], also what [Store.__getitem__] returns *)
Definition ls_get (items : Items) (pk : Z) : result ObjectStorage :=
  item <- py_nth items pk ;;
  match item with Some sto => Ok sto | None => Err AssertionError end.

(** [ListStore.delete(pk)] *)
Definition ls_delete (items : Items) (pk : Z) : result Items :=
  item <- py_nth items pk ;;
  match item with Some _ => py_set_nth items pk None | None => Err AssertionError end.

(** [pk in ListStore]: [(0 <= pk < len(self._items)) and ...]; the chained
    comparison [0 <= None] raises [TypeError] *)
Definition ls_contains (items : Items) (pk : option Z) : result bool :=
  match pk with
  | None => Err TypeError
  | Some z =>
      Ok ((0 <=? z) && (z <? Z.of_nat (List.length items))
          && match nth_error items (Z.to_nat z) with Some (Some _) => true | _ => false end)
  end.

(** [ListStore.keys()] *)
Fixpoint ls_keys_from (i : Z) (items : Items) : list Z :=
  match items with
  | [] => []
  | Some _ :: rest => i :: ls_keys_from (i + 1) rest
  | None :: rest => ls_keys_from (i + 1) rest
  end.
Definition ls_keys (items : Items) : list Z := ls_keys_from 0 items.

(** [ListStore.clear()] *)
Definition ls_clear (items : Items) : Items := map (fun _ => None) items.

(** the [LLBTree] from object identity to row-id *)
Fixpoint id_get (m : list (Z * Z)) (k : Z) : option Z :=
  match m with
  | [] => None
  | (k', v) :: rest => if k =? k' then Some v else id_get rest k
  end.
Definition id_set (m : list (Z * Z)) (k v : Z) : list (Z * Z) :=
  (k, v) :: filter (fun kv => negb (fst kv =? k)) m.
Definition id_del (m : list (Z * Z)) (k : Z) : list (Z * Z) :=
  filter (fun kv => negb (fst kv =? k)) m.

(** ** The collection ([wut.Wut]) *)

(** [indexes] lists the indexes in [_iter_indexes] order: grouped by
    attribute name in order of first appearance, in declaration order
    within a name; [number ix] is the position of [ix]. *)
Record Wut : Type := mkWut {
  store : Items;
  id_to_rowid : list (Z * Z);
  count : Z;
  _rowid_counter : Z;
  attrs : ComputedAttrs;
  indexes : list Index }.

Definition set_store (w : Wut) (s : Items) : Wut :=
  mkWut s (id_to_rowid w) (count w) (_rowid_counter w) (attrs w) (indexes w).
Definition set_indexes (w : Wut) (ixs : list Index) : Wut :=
  mkWut (store w) (id_to_rowid w) (count w) (_rowid_counter w) (attrs w) ixs.

(** the [for index in self._iter_indexes()] loop of [Wut.add] *)
Fixpoint add_to_indexes (attrs : ComputedAttrs) (ixs : list Index) (sto : ObjectStorage)
    : list Index * result (list pyval) :=
  match ixs with
  | [] => ([], Ok [])
  | ix :: rest =>
      match index_add attrs ix sto with
      | (ix', Err e) => (ix' :: rest, Err e)
      | (ix', Ok val) =>
          let (rest', r) := add_to_indexes attrs rest sto in
          (ix' :: rest',
           match r with
           | Ok im_ls => Ok (if memorize (params ix) then val :: im_ls else im_ls)
           | Err e => Err e
           end)
      end
  end.

(** [Wut.add(obj)] *)
Definition wut_add (w : Wut) (o : pyobj) : Wut * result unit :=
  let obj_id := id_from_obj o in
  match id_get (id_to_rowid w) obj_id with
  | Some _ => (w, Ok tt)
  | None =>
      match ls_set (store w) (_rowid_counter w) o with
      | Err e => (w, Err e)
      | Ok (items, obj_sto) =>
          let w1 := set_store w items in
          match add_to_indexes (attrs w) (indexes w) obj_sto with
          | (ixs, Err e) => (set_indexes w1 ixs, Err e)
          | (ixs, Ok im_ls) =>
              let obj_sto' := mkSto (obj obj_sto) (pk obj_sto) (Some im_ls) in
              match py_set_nth items (pk obj_sto) (Some obj_sto') with
              | Err e => (set_indexes w1 ixs, Err e)
              | Ok items' =>
                  (mkWut items' (id_set (id_to_rowid w) obj_id (_rowid_counter w))
                     (count w + 1) (_rowid_counter w + 1) (attrs w) ixs, Ok tt)
              end
          end
      end
  end.

(** the index loop of [Wut.discard]; [im] is what is left of [iter(index_mem)] *)
Fixpoint remove_from_indexes (attrs : ComputedAttrs) (ixs : list Index)
    (sto : ObjectStorage) (im : list pyval) : list Index * result unit :=
  match ixs with
  | [] => ([], Ok tt)
  | ix :: rest =>
      let '(step, im') :=
        if memorize (params ix) then
          match im with
          | mem :: im' => (index_remove attrs ix sto mem, im')
          | [] => ((ix, Err StopIteration), [])
          end
        else (index_remove attrs ix sto VNone, im) in
      match step with
      | (ix', Err e) => (ix' :: rest, Err e)
      | (ix', Ok _) =>
          let (rest', r) := remove_from_indexes attrs rest sto im' in (ix' :: rest', r)
      end
  end.

(** [Wut.discard(obj)]; the box is fetched with [self.store.get(obj_id)] *)
Definition wut_discard (w : Wut) (o : pyobj) : Wut * result unit :=
  let obj_id := id_from_obj o in
  match id_get (id_to_rowid w) obj_id with
  | None => (w, Ok tt)
  | Some row_id =>
      match ls_get (store w) obj_id with
      | Err e => (w, Err e)
      | Ok obj_sto =>
          let w1 := mkWut (store w) (id_del (id_to_rowid w) obj_id) (count w)
                      (_rowid_counter w) (attrs w) (indexes w) in
          match index_mem obj_sto with
          | None => (w1, Err AttributeError)
          | Some im =>
              match remove_from_indexes (attrs w) (indexes w) obj_sto im with
              | (ixs, Err e) => (set_indexes w1 ixs, Err e)
              | (ixs, Ok _) =>
                  match ls_delete (store w) row_id with
                  | Err e => (set_indexes w1 ixs, Err e)
                  | Ok items =>
                      (mkWut items (id_to_rowid w1) (count w - 1) (_rowid_counter w)
                         (attrs w) ixs, Ok tt)
                  end
              end
          end
      end
  end.

(** the index loop of [Wut.refresh]: non-memorised indexes are skipped *)
Fixpoint refresh_indexes (attrs : ComputedAttrs) (ixs : list Index)
    (sto : ObjectStorage) (old_im : list pyval) : list Index * result (list pyval) :=
  match ixs with
  | [] => ([], Ok [])
  | ix :: rest =>
      if negb (memorize (params ix)) then
        let (rest', r) := refresh_indexes attrs rest sto old_im in (ix :: rest', r)
      else
        match old_im with
        | [] => (ix :: rest, Err StopIteration)
        | old_v :: old_im' =>
            match index_make_val attrs ix sto with
            | Err e => (ix :: rest, Err e)
            | Ok new_v =>
                let step := if negb (py_eq old_v new_v)
                            then index_refresh attrs ix sto old_v new_v
                            else (ix, Ok new_v) in
                match step with
                | (ix', Err e) => (ix' :: rest, Err e)
                | (ix', Ok _) =>
                    let (rest', r) := refresh_indexes attrs rest sto old_im' in
                    (ix' :: rest',
                     match r with Ok l => Ok (new_v :: l) | Err e => Err e end)
                end
            end
        end
  end.

(** [Wut.refresh(obj)] *)
Definition wut_refresh (w : Wut) (o : pyobj) : Wut * result unit :=
  let obj_id := id_from_obj o in
  let row_id := id_get (id_to_rowid w) obj_id in
  match ls_contains (store w) row_id with
  | Err e => (w, Err e)
  | Ok false => (w, Err (ValueError "item not found"))
  | Ok true =>
      match ls_get (store w) obj_id with
      | Err e => (w, Err e)
      | Ok obj_sto =>
          match index_mem obj_sto with
          | None => (w, Err AttributeError)
          | Some old_im =>
              match refresh_indexes (attrs w) (indexes w) obj_sto old_im with
              | (ixs, Err e) => (set_indexes w ixs, Err e)
              | (ixs, Ok new_im_ls) =>
                  let obj_sto' := mkSto (obj obj_sto) (pk obj_sto) (Some new_im_ls) in
                  match py_set_nth (store w) obj_id (Some obj_sto') with
                  | Err e => (set_indexes w ixs, Err e)
                  | Ok items => (set_store (set_indexes w ixs) items, Ok tt)
                  end
              end
          end
      end
  end.

(** [Wut.clear()] *)
Definition wut_clear (w : Wut) : Wut :=
  mkWut (ls_clear (store w)) [] 0 (_rowid_counter w) (attrs w)
    (map index_clear (indexes w)).

(** [Wut.update(objs)] *)
Fixpoint wut_update (w : Wut) (objs : list pyobj) : Wut * result unit :=
  match objs with
  | [] => (w, Ok tt)
  | o :: rest =>
      match wut_add w o with
      | (w', Ok _) => wut_update w' rest
      | (w', Err e) => (w', Err e)
      end
  end.

(** [self.indexes.setdefault(index.params.name, []).append(index)] *)
Fixpoint setdefault_append (d : list (string * list Index)) (ix : Index)
    : list (string * list Index) :=
  match d with
  | [] => [(name (params ix), [ix])]
  | (n, l) :: rest =>
      if String.eqb n (name (params ix)) then (n, l ++ [ix]) :: rest
      else (n, l) :: setdefault_append rest ix
  end.

(** the numbering loop of [Wut.__init__] over [_iter_indexes()] *)
Fixpoint number_indexes (ixs : list Index) (index_num index_mem_num : nat) : list Index :=
  match ixs with
  | [] => []
  | ix :: rest =>
      let mem := if memorize (params ix) then Some index_mem_num else None in
      mkIndex (klass ix) (params ix) index_num mem (tree ix) (none_set ix)
        :: number_indexes rest (S index_num)
             (if memorize (params ix) then S index_mem_num else index_mem_num)
  end.

(** [Wut(objs, attrs=attrs, indexes=indexes)] *)
Definition wut_new (objs : list pyobj) (attrs : ComputedAttrs) (ixs : list Index)
    : Wut * result unit :=
  let d := fold_left setdefault_append ixs [] in
  let grouped := flat_map snd d in
  wut_update (mkWut [] [] 0 0 attrs (number_indexes grouped O O)) objs.

(** ** Executor *)

Definition int64set_union (sets : list (list Z)) : list Z :=
  match sets with
  | [] => []
  | [s] => s
  | s :: rest => fold_left (fun acc t => fold_left iset_add t acc) rest s
  end.

Definition int64set_intersection (sets : list (list Z)) : list Z :=
  match sets with
  | [] => []
  | [s] => s
  | s :: rest => filter (fun x => forallb (fun t => existsb (Z.eqb x) t) rest) s
  end.

(** [BINOPS]: [And]/[Or] receive both evaluated operands *)
Definition apply_binop (op : binop) (l r : pyval) : result pyval :=
  match op with
  | Eq => Ok (VBool (py_eq l r))
  | Ne => Ok (VBool (negb (py_eq l r)))
  | Lt => b <- py_lt l r ;; Ok (VBool b)
  | Le => b <- py_le l r ;; Ok (VBool b)
  | Gt => b <- py_gt l r ;; Ok (VBool b)
  | Ge => b <- py_ge l r ;; Ok (VBool b)
  | And => Ok (if truthy l then r else l)
  | Or => Ok (if truthy l then l else r)
  | In =>
      match r, l with
      | VSet items, _ | VList items, _ => Ok (VBool (existsb (py_eq l) items))
      | VStr t, VStr s =>
          Ok (VBool (match String.index 0 s t with Some _ => true | None => false end))
      | _, _ => Err TypeError
      end
  end.

(** [UNARY_OPS] *)
Definition apply_unop (op : unop) (v : pyval) : result pyval :=
  match op with
  | Not => Ok (VBool (negb (truthy v)))
  | Invert => match num_of v with Some z => Ok (VInt (- z - 1)) | None => Err TypeError end
  end.

(** [Wut.match(condition, obj)] *)
Fixpoint wut_match (attrs : ComputedAttrs) (c : cond) (o : ObjectStorage) : result pyval :=
  match c with
  | Literal v => Ok v
  | Attribute n => getattr_name attrs o n
  | Array items =>
      let fix go (l : list cond) : result (list pyval) :=
        match l with
        | [] => Ok []
        | i :: rest => v <- wut_match attrs i o ;; vs <- go rest ;; Ok (v :: vs)
        end in
      vs <- go items ;; Ok (VSet vs)
  | BinOp op l r =>
      a <- wut_match attrs l o ;; b <- wut_match attrs r o ;; apply_binop op a b
  | UnaryOp op x => a <- wut_match attrs x o ;; apply_unop op a
  end.

(** [Wut._execute_filter(objs, condition)]: with a literal condition the
    result is [objs] itself when it is already an [Int64Set], else
    [Int64Set(objs)]; both hold the elements of [objs]. *)
Definition _execute_filter (w : Wut) (objs : list Z) (condition : cond) : result (list Z) :=
  match condition with
  | Literal v => if negb (truthy v) then Ok [] else Ok (iset_of objs)
  | _ =>
      let fix keep (l : list Z) : result (list Z) :=
        match l with
        | [] => Ok []
        | x :: rest =>
            sto <- ls_get (store w) x ;;
            m <- wut_match (attrs w) condition sto ;;
            ks <- keep rest ;;
            Ok (if truthy m then x :: ks else ks)
        end in
      ks <- keep objs ;; Ok (iset_of ks)
  end.

Definition index_at (w : Wut) (n : nat) : result Index :=
  match nth_error (indexes w) n with Some ix => Ok ix | None => Err IndexError end.

(** [Wut.execute(plan)] with the [executors] table; a plan class missing
    from the table raises [ValueError] *)
Fixpoint execute (w : Wut) (p : plan) : result (list Z) :=
  let fix all (ps : list plan) : result (list (list Z)) :=
    match ps with
    | [] => Ok []
    | q :: rest => s <- execute w q ;; ss <- all rest ;; Ok (s :: ss)
    end in
  match p with
  | ScanFilter c => _execute_filter w (ls_keys (store w)) c
  | Filter c i => objs <- execute w i ;; _execute_filter w objs c
  | Union ps => ss <- all ps ;; Ok (int64set_union ss)
  | Intersect ps => ss <- all ps ;; Ok (int64set_intersection ss)
  | IndexLookup n v => ix <- index_at w n ;; index_lookup ix v
  | IndexRange n r =>
      ix <- index_at w n ;;
      (* only [RangeIndex] has a [range] method *)
      match klass ix with RangeIndexC => index_range ix r | _ => Err AttributeError end
  | Empty => Ok []
  | Difference _ => Err (ValueError "Unsupported plan")
  end.

(** ** Optimizer (optimize.py) *)

(** [Plan.transform(transformer)]: children first, then the node *)
Fixpoint transform (f : plan -> result plan) (p : plan) : result plan :=
  let fix all (ps : list plan) : result (list plan) :=
    match ps with
    | [] => Ok []
    | q :: rest => q' <- transform f q ;; qs <- all rest ;; Ok (q' :: qs)
    end in
  match p with
  | Filter c i => i' <- transform f i ;; f (Filter c i')
  | Intersect ps => ps' <- all ps ;; f (Intersect ps')
  | Union ps => ps' <- all ps ;; f (Union ps')
  | Difference ps => ps' <- all ps ;; f (Difference ps')
  | _ => f p
  end.

(** [MergeSetOps.transform] *)
Definition merge_set_ops (p : plan) : result plan :=
  match p with
  | Intersect ps =>
      Ok (Intersect (flat_map (fun i => match i with Intersect qs => qs | _ => [i] end) ps))
  | Union ps =>
      Ok (Union (flat_map (fun i => match i with Union qs => qs | _ => [i] end) ps))
  | Difference ps =>
      Ok (Difference (flat_map (fun i => match i with Difference qs => qs | _ => [i] end) ps))
  | _ => Ok p
  end.

Definition attribute_name (c : cond) : option string :=
  match c with Attribute n => Some n | _ => None end.

(** [for idx in ctx.indexes.get(name) or []]: first non-null match *)
Fixpoint first_match (ixs : list Index) (nm : string) (op : binop)
    (operand_is_left : bool) (operand : cond) : option plan :=
  match ixs with
  | [] => None
  | ix :: rest =>
      if String.eqb (name (params ix)) nm then
        match index_match ix op operand_is_left operand with
        | Some m => Some m
        | None => first_match rest nm op operand_is_left operand
        end
      else first_match rest nm op operand_is_left operand
  end.

(** [UseIndex.transform] *)
Definition use_index (w : Wut) (p : plan) : result plan :=
  match p with
  | ScanFilter (BinOp op l r) =>
      match attribute_name l, attribute_name r with
      | Some nm, None =>
          Ok (match first_match (indexes w) nm op false r with Some m => m | None => p end)
      | None, Some nm =>
          Ok (match first_match (indexes w) nm op true l with Some m => m | None => p end)
      | _, _ => Ok p
      end
  | _ => Ok p
  end.

(** [plans_by_index]: a [defaultdict(list)] keyed by index, in order of
    first appearance *)
Fixpoint group_add (g : list (nat * list Range)) (n : nat) (r : Range)
    : list (nat * list Range) :=
  match g with
  | [] => [(n, [r])]
  | (m, rs) :: rest =>
      if Nat.eqb m n then (m, rs ++ [r]) :: rest else (m, rs) :: group_add rest n r
  end.

Fixpoint split_ranges (ps : list plan) (g : list (nat * list Range)) (others : list plan)
    : list (nat * list Range) * list plan :=
  match ps with
  | [] => (g, others)
  | IndexRange n r :: rest => split_ranges rest (group_add g n r) others
  | i :: rest => split_ranges rest g (others ++ [i])
  end.

(** [new_range.combine(p.range)] folded over a group; [Ok None] when one
    combination is empty *)
Fixpoint fold_combine (acc : Range) (rs : list Range) : result (option Range) :=
  match rs with
  | [] => Ok (Some acc)
  | r :: rest =>
      c <- combine acc r ;;
      match c with
      | None => Ok None
      | Some acc' => fold_combine acc' rest
      end
  end.

(** the [for index, plans in plans_by_index.items()] loop: [Ok None] is
    the early [return Empty()] *)
Fixpoint combine_groups (g : list (nat * list Range)) : result (option (list plan)) :=
  match g with
  | [] => Ok (Some [])
  | (n, [r]) :: rest =>
      t <- combine_groups rest ;;
      Ok (match t with Some ps => Some (IndexRange n r :: ps) | None => None end)
  | (n, rs) :: rest =>
      match rs with
      | [] => combine_groups rest
      | r0 :: rs' =>
          c <- fold_combine r0 rs' ;;
          match c with
          | None => Ok None
          | Some new_range =>
              t <- combine_groups rest ;;
              Ok (match t with Some ps => Some (IndexRange n new_range :: ps) | None => None end)
          end
      end
  end.

(** [CombineRanges.transform] *)
Definition combine_ranges (p : plan) : result plan :=
  match p with
  | Intersect ps =>
      let (g, others) := split_ranges ps [] [] in
      c <- combine_groups g ;;
      match c with
      | None => Ok Empty
      | Some inputs =>
          match inputs ++ others with
          | [i] => Ok i
          | inputs' => Ok (Intersect inputs')
          end
      end
  | _ => Ok p
  end.

(** [CombineFilters.transform] *)
Definition combine_filters (p : plan) : result plan :=
  match p with
  | Intersect ps =>
      let filters := flat_map (fun i => match i with ScanFilter c => [c] | _ => [] end) ps in
      let others := filter (fun i => match i with ScanFilter _ => false | _ => true end) ps in
      match filters with
      | [] => Ok p
      | _ =>
          let combined := and_ filters in
          match others with
          | [] => Ok (ScanFilter combined)
          | [o] => Ok (Filter combined o)
          | _ => Ok (Filter combined (Intersect others))
          end
      end
  | _ => Ok p
  end.

(** [Chain] with [DEFAULT_RULES], i.e. [Wut.optimize] *)
Definition optimize (w : Wut) (p : plan) : result plan :=
  p1 <- transform merge_set_ops p ;;
  p2 <- transform (use_index w) p1 ;;
  p3 <- transform combine_ranges p2 ;;
  transform combine_filters p3.

(** [Wut.filter(condition)] on a parsed condition *)
Definition wut_filter (w : Wut) (c : cond) : result (list Z) :=
  p <- optimize w (plan_of c) ;; execute w p.

(** ** Views of the collection used by the properties below *)

(** slot [m] of [ListStore._items] holds a box *)
Definition occupied (items : Items) (m : nat) : Prop :=
  exists s, nth_error items m = Some (Some s).

(** [item is not None] *)
Definition is_box (x : option ObjectStorage) : bool :=
  match x with Some _ => true | None => false end.

(** [ListStore.values()] *)
Fixpoint ls_values (items : Items) : list ObjectStorage :=
  match items with
  | [] => []
  | Some sto :: rest => sto :: ls_values rest
  | None :: rest => ls_values rest
  end.

(** [Wut.__iter__]: the objects of [self.store.values()] *)
Definition wut_iter (w : Wut) : list pyobj := map obj (ls_values (store w)).

(** [Wut.__len__] *)
Definition wut_len (w : Wut) : Z := count w.

(** [Wut.__contains__(obj)]: [obj_id in self.id_to_rowid] *)
Definition wut_contains (w : Wut) (o : pyobj) : bool :=
  match id_get (id_to_rowid w) (id_from_obj o) with Some _ => true | None => false end.

(** How the fields of a [Wut] fit together: [len(store._items)] is the
    row-id counter, [count] is the number of stored boxes, and
    [id_to_rowid] is a one-to-one map from the identities onto the row-ids
    in use. *)
Definition wut_inv (w : Wut) : Prop :=
  Z.of_nat (List.length (store w)) = _rowid_counter w
  /\ count w = Z.of_nat (List.length (ls_keys (store w)))
  /\ (forall k r, id_get (id_to_rowid w) k = Some r -> List.In r (ls_keys (store w)))
  /\ (forall r, List.In r (ls_keys (store w)) -> exists k, id_get (id_to_rowid w) k = Some r)
  /\ (forall k1 k2 r, id_get (id_to_rowid w) k1 = Some r -> id_get (id_to_rowid w) k2 = Some r
                       -> k1 = k2).

(** a bound whose value is an [int] (or no bound) *)
Definition int_bound (b : option Bound) : bool :=
  match b with None => true | Some (mkBound (VInt _) _) => true | Some _ => false end.
Definition int_range (r : Range) : bool := int_bound (rleft r) && int_bound (rright r).

(** the two halves of [key_in_range] on an integer key, for integer bounds *)
Definition lo_ok (b : option Bound) (z : Z) : bool :=
  match b with Some (mkBound (VInt v) i) => if i then v <=? z else v <? z | _ => true end.
Definition hi_ok (b : option Bound) (z : Z) : bool :=
  match b with Some (mkBound (VInt v) i) => if i then z <=? v else z <? v | _ => true end.

(** row-id [x] is in use and [Wut.match(condition, store[x])] is truthy *)
Definition selected (w : Wut) (c : cond) (x : Z) : Prop :=
  List.In x (ls_keys (store w))
  /\ exists sto v, ls_get (store w) x = Ok sto /\ wut_match (attrs w) c sto = Ok v /\ truthy v = true.

(** every bucket of the index tree is a single raw [int] row-id *)
Definition buckets_single (ix : Index) : Prop :=
  forall k b, List.In (k, b) (tree ix) -> exists r, b = EInt r.

(** the slot a Python subscript [l[i]] reads or writes, for [len(l) = n] *)
Definition py_index (n : nat) (i : Z) : Z := if i <? 0 then Z.of_nat n + i else i.

(** every box sits at the slot of its own row-id *)
Definition slots_pk (items : Items) : Prop :=
  forall m sto, nth_error items m = Some (Some sto) -> pk sto = Z.of_nat m.

Definition slot_inv (w : Wut) : Prop := 0 <= _rowid_counter w /\ slots_pk (store w).

(** one step of [sorted]: [x] goes after every element it is not less than *)
Fixpoint insert_by {A} (lt : A -> A -> bool) (x : A) (l : list A) : list A :=
  match l with
  | [] => [x]
  | y :: rest => if lt x y then x :: y :: rest else y :: insert_by lt x rest
  end.

(** [sorted(l, key=..)] with the key's [__lt__]: Python's sort is stable, and
    for a strict weak order every stable sort returns this list *)
Definition py_sorted {A} (lt : A -> A -> bool) (l : list A) : list A :=
  fold_left (fun acc x => insert_by lt x acc) l [].

(** [WutSortKey.__lt__]; the [ordering] loop is never entered, since
    [sort_ids] rejects a non-empty ordering before building keys *)
Definition WutSortKey_lt (rowid_desc : bool) (a b : Z * ObjectStorage) : bool :=
  xorb (pk (snd a) <? pk (snd b)) rowid_desc.

(** [Wut.sort_ids(ids, ordering)]; an absent [ordering] is the empty list.
    [WutSortKey(wut, [], False, id_)] reads [wut.store[id_]] *)
Definition sort_ids (w : Wut) (ids : list Z) (ordering : list (string * bool))
    : result (list Z) :=
  match ordering with
  | _ :: _ => Err AssertionError
  | [] =>
      keys <- mapM (fun i => sto <- ls_get (store w) i ;; Ok (i, sto)) ids ;;
      Ok (map fst (py_sorted (WutSortKey_lt false) keys))
  end.

(** ** [set_ops] on its declared domain

    The functions of set_ops.py for elements of type [Box]. A Python [set]
    of [DefaultBox]es hashes a box with [object.__hash__(self.pk)], the
    identity of its [pk] object: two boxes are the same set element exactly
    when they share that object (distinct live objects have distinct
    identity hashes). A box is therefore represented by the identity of its
    [pk] object ([EBox p]), and a Python [set] of boxes by a list of such
    identities without duplicates (the order of [list(s)] for a set [s] is
    the order of that list). [DefaultBox.__eq__] compares [self.pk == other.pk],
    the [int] values of the pks: [pkval p] is the value of the pk object [p],
    and [box_eqb] is that [==], used where the code compares boxes outside a
    set ([a == val], [val in a] and [a.remove(val)] on a list). The claims'
    [so_add] and [so_discard] above are the same functions called with raw
    [int] row-ids, as index.py calls them. *)
Module BoxSet.

(** the boxes an efficient set holds *)
Definition members (a : eset) : list Z :=
  match a with
  | ENone => []
  | EBox p => [p]
  | EInt z => [z]
  | EList l | ESet l => l
  end.

(** the shapes [add] and [discard] keep: an array holds 2 to
    [ARRAY_SIZE_MAX] distinct boxes, a set at least [SET_SIZE_MIN] *)
Definition repr_ok (a : eset) : Prop :=
  match a with
  | ENone | EBox _ => True
  | EList l => NoDup l /\ (2 <= List.length l <= ARRAY_SIZE_MAX)%nat
  | ESet l => NoDup l /\ (SET_SIZE_MIN <= List.length l)%nat
  | EInt _ => False
  end.

(** [create(a)]: the first [ARRAY_SIZE_MAX - 2] appends after the first
    two elements stop at the end of the iterable; if none does, a set *)
Definition create (a : option (list Z)) : eset :=
  match a with
  | None | Some [] => ENone
  | Some [x] => EBox x
  | Some l => if Nat.ltb (List.length l) ARRAY_SIZE_MAX then EList l else ESet (iset_of l)
  end.

(** [to_set(a)] *)
Definition to_set (a : eset) : result (list Z) :=
  match a with
  | ENone => Ok []
  | EBox p => Ok [p]
  | EList l => Ok (iset_of l)
  | ESet l => Ok l
  | EInt _ => Err AssertionError
  end.

(** [from_set(a)] *)
Definition from_set (s : list Z) : eset :=
  match s with
  | [] => ENone
  | [x] => EBox x
  | _ => if Nat.leb (List.length s) ARRAY_SIZE_MAX then EList s else ESet s
  end.

(** [size(a)]: it tests [type(a) == int], not [Box], so a single box
    reaches [assert type(a) == set] *)
Definition size (a : eset) : result nat :=
  match a with
  | ENone => Ok O
  | EInt _ => Ok 1%nat
  | EList l | ESet l => Ok (List.length l)
  | EBox _ => Err AssertionError
  end.

(** [iterate(a)] *)
Definition iterate (a : eset) : result (list Z) :=
  match a with
  | ENone => Ok []
  | EBox p => Ok [p]
  | EList l | ESet l => Ok l
  | EInt _ => Err TypeError
  end.

(** [copy(a)] *)
Definition copy (a : eset) : result eset :=
  match a with
  | EInt _ => Err AssertionError
  | _ => Ok a
  end.

(** [Box.__eq__]: [self.pk == other.pk] *)
Definition box_eqb (pkval : Z -> Z) (x y : Z) : bool := Z.eqb (pkval x) (pkval y).

(** [list.remove(val)]: the first element [==] to [val] *)
Fixpoint remove_first (pkval : Z -> Z) (val : Z) (l : list Z) : list Z :=
  match l with
  | [] => []
  | y :: rest => if box_eqb pkval y val then rest else y :: remove_first pkval val rest
  end.

(** [add(a, val)] *)
Definition add (pkval : Z -> Z) (a : eset) (val : Z) : result eset :=
  match a with
  | ENone => Ok (EBox val)
  | EBox p => if box_eqb pkval p val then Ok a else Ok (EList [p; val])
  | EList l =>
      if existsb (box_eqb pkval val) l then Ok a
      else
        let l' := l ++ [val] in
        if Nat.ltb ARRAY_SIZE_MAX (List.length l') then Ok (ESet (iset_of l')) else Ok (EList l')
  | ESet l => Ok (ESet (iset_add l val))
  | EInt _ => Err AssertionError
  end.

(** [discard(a, val)] *)
Definition discard (pkval : Z -> Z) (a : eset) (val : Z) : result eset :=
  match a with
  | ENone => Ok ENone
  | EBox p => if box_eqb pkval p val then Ok ENone else Ok a
  | EList l =>
      if negb (existsb (box_eqb pkval val) l) then Ok a
      else
        let l' := remove_first pkval val l in
        match l' with
        | [x] => Ok (EBox x)
        | _ => Ok (EList l')
        end
  | ESet l =>
      let l' := iset_discard l val in
      if Nat.ltb (List.length l') SET_SIZE_MIN then Ok (EList l') else Ok (ESet l')
  | EInt _ => Err AssertionError
  end.

(** [remove(a, val)] *)
Definition remove (pkval : Z -> Z) (a : eset) (val : Z) : result eset :=
  old_size <- size a ;;
  a' <- discard pkval a val ;;
  n <- size a' ;;
  if Nat.eqb n old_size then Err KeyError else Ok a'.

(** [clear(a)] *)
Definition clear (a : eset) : eset := ENone.

(** the loop of [update] over [*b] *)
Fixpoint update_loop (s : list Z) (bs : list eset) : result (list Z) :=
  match bs with
  | [] => Ok s
  | b :: rest =>
      match b with
      | ENone => update_loop s rest
      | EBox p => update_loop (iset_add s p) rest
      | EList l | ESet l => update_loop (fold_left iset_add l s) rest
      | EInt _ => Err TypeError
      end
  end.

(** [update(a, *b)] *)
Definition update (a : eset) (bs : list eset) : result eset :=
  s <- to_set a ;; s' <- update_loop s bs ;; Ok (from_set s').

(** [union(a, *b)] *)
Definition union (a : eset) (bs : list eset) : result eset :=
  c <- copy a ;; update c bs.

(** the loop of [intersection_update] over [*b], with its early returns *)
Fixpoint intersection_loop (s : list Z) (bs : list eset) : result eset :=
  match bs with
  | [] => Ok (from_set s)
  | b :: rest =>
      match b with
      | ENone => Ok ENone
      | EBox p => if existsb (Z.eqb p) s then intersection_loop [p] rest else Ok ENone
      | EList l | ESet l =>
          match filter (fun x => existsb (Z.eqb x) l) s with
          | [] => Ok ENone
          | s' => intersection_loop s' rest
          end
      | EInt _ => Err TypeError
      end
  end.

(** [intersection_update(a, *b)] *)
Definition intersection_update (a : eset) (bs : list eset) : result eset :=
  s <- to_set a ;; intersection_loop s bs.

(** [intersection(a, *b)] *)
Definition intersection (a : eset) (bs : list eset) : result eset :=
  c <- copy a ;; intersection_update c bs.

(** the loop of [difference_update] over [*b] *)
Fixpoint difference_loop (s : list Z) (bs : list eset) : result (list Z) :=
  match bs with
  | [] => Ok s
  | b :: rest =>
      match b with
      | ENone => difference_loop s rest
      | EBox p => difference_loop (iset_discard s p) rest
      | EList l | ESet l => difference_loop (filter (fun x => negb (existsb (Z.eqb x) l)) s) rest
      | EInt _ => Err TypeError
      end
  end.

(** [difference_update(a, *b)] *)
Definition difference_update (a : eset) (bs : list eset) : result eset :=
  s <- to_set a ;; s' <- difference_loop s bs ;; Ok (from_set s').

(** [difference(a, *b)] *)
Definition difference (a : eset) (bs : list eset) : result eset :=
  c <- copy a ;; difference_update c bs.

(** [symmetric_difference_update(a, b)] *)
Definition symmetric_difference_update (a b : eset) : result eset :=
  s <- to_set a ;;
  match b with
  | ENone => Ok (from_set s)
  | EBox p =>
      Ok (from_set (if existsb (Z.eqb p) s then iset_discard s p else iset_add s p))
  | EList l | ESet l =>
      Ok (from_set (filter (fun x => negb (existsb (Z.eqb x) l)) s
                    ++ filter (fun x => negb (existsb (Z.eqb x) s)) (iset_of l)))
  | EInt _ => Err TypeError
  end.

(** [symmetric_difference(a, b)] *)
Definition symmetric_difference (a b : eset) : result eset :=
  c <- copy a ;; symmetric_difference_update c b.

End BoxSet.

(** ** Concrete collections used below *)

Definition obj_ab (i a b : Z) : pyobj := mkObj i [("a"%string, VInt a); ("b"%string, VInt b)].

Definition range_index (n : string) : Index :=
  new_index RangeIndexC (mkParams n false false true).

(** the objects [O] of the spec's end-to-end scenarios *)
Definition O_objs : list pyobj :=
  [obj_ab 100 0 59; obj_ab 101 1 59; obj_ab 102 2 59; obj_ab 103 0 7].

(** one object [{a: 0}] under a range index on [a] *)
Definition w_a0 : Wut := fst (wut_new [mkObj 100 [("a"%string, VInt 0)]] [] [range_index "a"%string]).

(** a non-unique index on [a] before a unique index on [b] *)
Definition w_unique : Wut :=
  fst (wut_new [obj_ab 1 0 5] []
         [new_index HashIndexC (mkParams "a"%string false false true);
          new_index HashIndexC (mkParams "b"%string false true true)]).

(** an index on [a] that allows [None], holding one object with [a = None] *)
Definition w_none : Wut :=
  fst (wut_new [mkObj 1 [("a"%string, VNone)]] []
         [new_index HashIndexC (mkParams "a"%string true false true)]).

Definition empty_wut : Wut := fst (wut_new [] [] [range_index "a"%string]).

(** a unique inverted index on the list attribute [t], holding one
    object with [t = [5]] *)
Definition w_inv_unique : Wut :=
  fst (wut_new [mkObj 1 [("t"%string, VList [VInt 5])]] []
         [new_index InvertedIndexC (mkParams "t"%string false true true)]).

(** the range index on [a] after [add] of one object [{a: 0}] with row-id 0 *)
Definition ix_a0 : Index :=
  fst (index_add [] (range_index "a"%string) (mkSto (mkObj 100 [("a"%string, VInt 0)]) 0 None)).


(** ** Lemmas *)

Lemma iset_add_In (s : list Z) (x y : Z) : List.In y (iset_add s x) <-> List.In y s \/ y = x.
Proof.
  unfold iset_add. destruct (existsb (Z.eqb x) s) eqn:E.
  - apply existsb_exists in E as [z [Hz Hzx]]. apply Z.eqb_eq in Hzx. subst z.
    split; [auto | intros [H | H]; [exact H | subst; exact Hz]].
  - rewrite in_app_iff. simpl. intuition.
Qed.

Lemma fold_iset_add_In (l acc : list Z) (y : Z) :
  List.In y (fold_left iset_add l acc) <-> List.In y acc \/ List.In y l.
Proof.
  revert acc. induction l as [| x l IH]; intros acc; simpl.
  - intuition.
  - rewrite IH, iset_add_In. intuition.
Qed.

Lemma iset_of_In (l : list Z) (y : Z) : List.In y (iset_of l) <-> List.In y l.
Proof. unfold iset_of. rewrite fold_iset_add_In. simpl. intuition. Qed.

Lemma add_to_indexes_err attrs ixs sto ixs' e :
  add_to_indexes attrs ixs sto = (ixs', Err e) ->
  exists pre ix post pre' ix',
    ixs = pre ++ ix :: post /\ ixs' = pre' ++ ix' :: post /\
    Forall2 (fun a b => exists v, index_add attrs a sto = (b, Ok v)) pre pre' /\
    index_add attrs ix sto = (ix', Err e).
Proof.
  revert ixs'. induction ixs as [| ix rest IH]; intros ixs' H; simpl in H.
  - discriminate.
  - destruct (index_add attrs ix sto) as [ix1 [v | e1]] eqn:Hix.
    + destruct (add_to_indexes attrs rest sto) as [rest' [im | e2]] eqn:Hr;
        inversion H; subst.
      destruct (IH rest' eq_refl) as (pre & ix0 & post & pre' & ix' & -> & -> & HF & Hk).
      exists (ix :: pre), ix0, post, (ix1 :: pre'), ix'.
      repeat split; auto. constructor; eauto.
    + inversion H; subst.
      exists [], ix, rest, [], ix1. repeat split; auto.
Qed.

Lemma so_add_err a v e : so_add a v = Err e -> e = AttributeError \/ e = AssertionError.
Proof.
  unfold so_add. intros H. destruct a; try (destruct (existsb _ _)); try (destruct (Nat.ltb _ _));
    inversion H; auto.
Qed.

Lemma add_key_unique ix pk v ix' :
  add_key ix pk v = (ix', Err unique_violation) ->
  ix' = ix /\ v <> VNone /\ unique (params ix) = true /\ tree_get (tree ix) v <> ENone.
Proof.
  unfold add_key. intros H. destruct v as [| b | z | t | l | l].
  1: destruct (none_set ix); inversion H.
  all: destruct (match tree_get (tree ix) _ with ENone => false | _ => true end) eqn:Ep;
       destruct (unique (params ix)) eqn:Eu; cbn [andb] in H;
       [inversion H; subst; repeat split; try discriminate; try assumption;
        intros E; rewrite E in Ep; discriminate | ..];
       destruct (so_add _ _) as [d | e] eqn:Ea; inversion H; subst;
       apply so_add_err in Ea; unfold unique_violation in Ea; destruct Ea; discriminate.
Qed.

Lemma store_val_err ix vs e : store_val ix vs = Err e -> e <> unique_violation.
Proof.
  unfold store_val, unique_violation. intros H.
  destruct (klass ix).
  1, 2: destruct vs as [| v [| ]]; inversion H; discriminate.
  - discriminate.
  - destruct (mapM arr_item vs) as [zs | e'] eqn:Em; inversion H; subst.
    clear H. revert e Em. induction vs as [| v rest IH]; intros e Em; cbn [mapM] in Em.
    + discriminate.
    + destruct (arr_item v) as [z | e1] eqn:Ea; cbn [bind] in Em.
      * destruct (mapM arr_item rest) eqn:E2; inversion Em; subst. eauto.
      * inversion Em; subst. unfold arr_item in Ea.
        destruct (num_of v); [destruct (_ && _) |]; inversion Ea; discriminate.
Qed.

Lemma getattr_index_err attrs o ix m e :
  getattr_index attrs o ix m = Err e ->
  e = AssertionError \/ e = AttributeError \/ e = IndexError \/ e = KeyError.
Proof.
  unfold getattr_index, getattr_name, py_getattr, py_nth. intros H.
  destruct (m && memorize (params ix)).
  - destruct (mem_number ix), (index_mem o); inversion H; auto.
    destruct (_ && _); [destruct (nth_error _ _) |]; inversion H; auto.
  - destruct (String.prefix _ _); [destruct (assoc _ attrs) | destruct (assoc _ (fields _))];
      inversion H; auto.
Qed.

Lemma extract_val_err attrs o ix m e :
  extract_val attrs o ix m = Err e -> e <> unique_violation.
Proof.
  unfold extract_val, unique_violation. intros H.
  destruct (klass ix).
  1, 2: destruct (getattr_index attrs o ix m) eqn:Eg; cbn [bind] in H; inversion H; subst;
        apply getattr_index_err in Eg; destruct Eg as [-> | [-> | [-> | ->]]]; discriminate.
  all: destruct m; [simpl in H; inversion H; discriminate |].
  all: unfold getattr_name, py_getattr in H;
       destruct (String.prefix _ _); [destruct (assoc _ attrs) | destruct (assoc _ (fields _))];
       cbn [bind] in H; try (inversion H; discriminate);
       unfold py_iter in H; destruct p; inversion H; discriminate.
Qed.

Lemma for_keys_add_unique ix pk vs ix' :
  for_keys add_key ix pk vs = (ix', Err unique_violation) ->
  exists pre v rest, vs = pre ++ v :: rest /\ for_keys add_key ix pk pre = (ix', Ok tt)
    /\ v <> VNone /\ unique (params ix') = true /\ tree_get (tree ix') v <> ENone.
Proof.
  revert ix. induction vs as [| v rest IH]; intros ix H; simpl in H.
  - discriminate.
  - destruct (add_key ix pk v) as [ix1 [u | e]] eqn:Hk.
    + destruct (IH ix1 H) as (pre & v' & rest' & -> & Hp & Hr).
      exists (v :: pre), v', rest'. split; [reflexivity |]. split; [| exact Hr].
      simpl. rewrite Hk. exact Hp.
    + inversion H; subst. destruct (add_key_unique _ _ _ _ Hk) as (-> & Hv & Hu & Ht).
      exists [], v, rest. auto.
Qed.

(** the unique check of [HashIndex.add] fails at a key [v] of the object
    after the keys before it were added *)
Lemma index_add_unique attrs ix sto ix' :
  index_add attrs ix sto = (ix', Err unique_violation) ->
  exists pre v rest, extract_val attrs sto ix false = Ok (pre ++ v :: rest)
    /\ for_keys add_key ix (pk sto) pre = (ix', Ok tt)
    /\ v <> VNone /\ unique (params ix') = true /\ tree_get (tree ix') v <> ENone.
Proof.
  unfold index_add. intros H.
  destruct (extract_val attrs sto ix false) as [vs | e] eqn:Ee;
    [| inversion H; subst; exfalso; exact (extract_val_err _ _ _ _ _ Ee eq_refl)].
  destruct (for_keys add_key ix (pk sto) vs) as [ix1 [u | e]] eqn:Hf.
  - destruct (store_val ix vs) as [v | e] eqn:Hs; inversion H; subst.
    exfalso. exact (store_val_err _ _ _ Hs eq_refl).
  - inversion H; subst.
    destruct (for_keys_add_unique _ _ _ _ Hf) as (pre & v & rest & -> & Hr).
    exists pre, v, rest. auto.
Qed.

Lemma index_add_unique_unchanged attrs ix sto ix' :
  klass ix = HashIndexC \/ klass ix = RangeIndexC ->
  index_add attrs ix sto = (ix', Err unique_violation) -> ix' = ix.
Proof.
  intros Hk H. destruct (index_add_unique _ _ _ _ H) as (pre & v & rest & He & Hf & _).
  unfold extract_val in He.
  assert (Hpre : pre = []).
  { destruct Hk as [Hk | Hk]; rewrite Hk in He;
      destruct (getattr_index attrs sto ix false); inversion He as [Hl];
      destruct pre as [| x [| y pre]]; try reflexivity; inversion Hl;
      destruct pre; discriminate. }
  subst pre. simpl in Hf. congruence.
Qed.

Lemma py_set_nth_err {A} (l : list A) i x e : py_set_nth l i x = Err e -> e = IndexError.
Proof. unfold py_set_nth. destruct (_ && _); congruence. Qed.

Lemma py_nth_err {A} (l : list A) i e : py_nth l i = Err e -> e = IndexError.
Proof.
  unfold py_nth. destruct (_ && _); [| congruence].
  destruct (nth_error _ _); congruence.
Qed.

Lemma ls_set_err items pk0 o e :
  ls_set items pk0 o = Err e -> e = AssertionError \/ e = IndexError.
Proof.
  unfold ls_set. destruct (_ =? pk0); [discriminate |].
  destruct (py_nth _ pk0) as [cur | e1] eqn:Hn; simpl.
  - destruct cur as [s |]; [intros H; inversion H; auto |].
    destruct (py_set_nth _ _ _) as [l | e2] eqn:Hs; simpl; [discriminate |].
    intros H; inversion H; subst. right. eapply py_set_nth_err. exact Hs.
  - intros H; inversion H; subst. right. eapply py_nth_err. exact Hn.
Qed.

Lemma ls_set_box items pk0 o items' sto :
  ls_set items pk0 o = Ok (items', sto) -> sto = mkSto o pk0 None.
Proof.
  unfold ls_set. destruct (_ =? pk0); [intros H; inversion H; reflexivity |].
  destruct (py_nth _ pk0) as [cur | e1]; simpl; [| discriminate].
  destruct cur; [discriminate |].
  destruct (py_set_nth _ _ _); simpl; [| discriminate].
  intros H; inversion H; reflexivity.
Qed.

(** ** Claims *)

(** C1 (code_bug). The optimizer chain changes the result of a query.
    With one object [{a: 0}] under a range index on [a], [plan("a = 0")]
    executes to the row-id set [{0}], while the optimized plan
    [IndexLookup(a, 0)] raises [AssertionError]: the bucket of key [0] is
    the raw int row-id [0], which [set_ops.to_set] rejects. Separately,
    [a > 5 AND a >= 5] optimizes to the range [a >= 5], which is wider
    than the query. *)
Theorem optimize_changes_result :
  execute w_a0 (plan_of (BinOp Eq (Attribute "a"%string) (Literal (VInt 0)))) = Ok [0]
  /\ optimize w_a0 (plan_of (BinOp Eq (Attribute "a"%string) (Literal (VInt 0))))
     = Ok (IndexLookup 0 (VInt 0))
  /\ execute w_a0 (IndexLookup 0 (VInt 0)) = Err AssertionError
  /\ optimize w_a0 (plan_of (BinOp And (BinOp Gt (Attribute "a"%string) (Literal (VInt 5)))
                                     (BinOp Ge (Attribute "a"%string) (Literal (VInt 5)))))
     = Ok (IndexRange 0 (mkRange (Some (mkBound (VInt 5) true)) None)).
Proof. vm_compute. repeat split; reflexivity. Qed.

(** C2 (code_bug). Combining two left bounds of equal value but different
    inclusivity does not AND the inclusivities: [Range.combine] of
    [x > 5] with [x >= 5] gives [x >= 5], because [_combine_bounds] tests
    [a == b] on whole bounds; [CombineRanges] then replaces the
    [Intersect] by that wider range. *)
Theorem combine_equal_values_not_tightened :
  combine (mkRange (Some (mkBound (VInt 5) false)) None)
          (mkRange (Some (mkBound (VInt 5) true)) None)
  = Ok (Some (mkRange (Some (mkBound (VInt 5) true)) None))
  /\ combine_ranges (Intersect [IndexRange 0 (mkRange (Some (mkBound (VInt 5) false)) None);
                               IndexRange 0 (mkRange (Some (mkBound (VInt 5) true)) None)])
     = Ok (IndexRange 0 (mkRange (Some (mkBound (VInt 5) true)) None)).
Proof. split; reflexivity. Qed.

(** C3 (corrected), counterexample. Adding [{b: 5}] to a collection that
    already holds [b = 5] under a unique index on [b] raises the unique
    violation at index 1, but index 0 (on [a]) keeps the new row-id and
    the storage keeps the new box. *)
Lemma add_unique_violation_leaves_state :
  snd (wut_add w_unique (obj_ab 2 1 5)) = Err unique_violation
  /\ fst (wut_add w_unique (obj_ab 2 1 5)) <> w_unique
  /\ tree_get (tree (hd (range_index ""%string) (indexes (fst (wut_add w_unique (obj_ab 2 1 5))))))
       (VInt 1) = EInt 1
  /\ ls_keys (store (fst (wut_add w_unique (obj_ab 2 1 5)))) = [0; 1].
Proof.
  vm_compute. split; [reflexivity |]. split; [| split; reflexivity].
  intros H. inversion H.
Qed.

(** C3 (corrected), amended. When [add(obj)] raises the unique-constraint
    violation, the identity map, the count and the row-id counter are
    unchanged, but nothing is rolled back: the storage keeps the new box
    (row-id = the counter) as [ListStore.set] left it, every index before
    the failing index [k] keeps what its [add] wrote, and the indexes
    after [k] are unchanged. Index [k] keeps the keys of the object that
    its loop added before the key [v] already present: none for a hash or
    range index, which is left unchanged; for an inverted index, every
    element of the attribute before [v]. *)
Theorem add_unique_violation_partial_state (w : Wut) (o : pyobj) (w' : Wut) :
  wut_add w o = (w', Err unique_violation) ->
  id_to_rowid w' = id_to_rowid w /\ count w' = count w
  /\ _rowid_counter w' = _rowid_counter w /\ attrs w' = attrs w
  /\ exists sto pre ix ix' post pre',
       ls_set (store w) (_rowid_counter w) o = Ok (store w', sto)
       /\ sto = mkSto o (_rowid_counter w) None
       /\ indexes w = pre ++ ix :: post /\ indexes w' = pre' ++ ix' :: post
       /\ Forall2 (fun a b => exists v, index_add (attrs w) a sto = (b, Ok v)) pre pre'
       /\ index_add (attrs w) ix sto = (ix', Err unique_violation)
       /\ (exists keys v rest, extract_val (attrs w) sto ix false = Ok (keys ++ v :: rest)
             /\ for_keys add_key ix (pk sto) keys = (ix', Ok tt)
             /\ v <> VNone /\ unique (params ix') = true /\ tree_get (tree ix') v <> ENone)
       /\ (klass ix = HashIndexC \/ klass ix = RangeIndexC -> ix' = ix).
Proof.
  unfold wut_add. intros H.
  destruct (id_get (id_to_rowid w) (id_from_obj o)); [discriminate |].
  destruct (ls_set (store w) (_rowid_counter w) o) as [[items sto] | e] eqn:Hs.
  - destruct (add_to_indexes (attrs w) (indexes w) sto) as [ixs [im | e]] eqn:Ha.
    + destruct (py_set_nth _ _ _) eqn:Hp; inversion H; subst.
      apply py_set_nth_err in Hp. discriminate.
    + inversion H; subst. simpl.
      destruct (add_to_indexes_err _ _ _ _ _ Ha) as (pre & ix & post & pre' & ix' & E1 & E2 & HF & Hk).
      repeat split; auto.
      exists sto, pre, ix, ix', post, pre'. repeat split; auto.
      * eapply ls_set_box. exact Hs.
      * exact (index_add_unique _ _ _ _ Hk).
      * intros Hc. exact (index_add_unique_unchanged _ _ _ _ Hc Hk).
  - inversion H; subst. apply ls_set_err in Hs. destruct Hs; discriminate.
Qed.

(** On [w_inv_unique], adding [{t: [1, 5]}] raises on the key [5] after
    the unique inverted index took the key [1] with the new row-id. *)
Lemma add_unique_violation_partial_state_witness :
  wut_add w_inv_unique (mkObj 2 [("t"%string, VList [VInt 1; VInt 5])])
    = (fst (wut_add w_inv_unique (mkObj 2 [("t"%string, VList [VInt 1; VInt 5])])),
       Err unique_violation)
  /\ _rowid_counter (fst (wut_add w_inv_unique (mkObj 2 [("t"%string, VList [VInt 1; VInt 5])])))
     = _rowid_counter w_inv_unique
  /\ tree_get (tree (hd (range_index ""%string)
       (indexes (fst (wut_add w_inv_unique (mkObj 2 [("t"%string, VList [VInt 1; VInt 5])]))))))
       (VInt 1) = EInt 1.
Proof.
  assert (H : wut_add w_inv_unique (mkObj 2 [("t"%string, VList [VInt 1; VInt 5])])
              = (fst (wut_add w_inv_unique (mkObj 2 [("t"%string, VList [VInt 1; VInt 5])])),
                 Err unique_violation))
    by (vm_compute; reflexivity).
  split; [exact H |]. split.
  - exact (proj1 (proj2 (proj2 (add_unique_violation_partial_state _ _ _ H)))).
  - vm_compute. reflexivity.
Defined.

(** C4 (code_bug). Building the collection of the spec's objects [O] with
    range indexes on [a] and [b] raises [AssertionError]: the second
    object with [b = 59] reaches [set_ops.add] with a bucket that is the
    raw int row-id [0]. *)
Theorem scenario_collection_build_fails :
  snd (wut_new O_objs [] [range_index "a"%string; range_index "b"%string])
  = Err AssertionError.
Proof. vm_compute. reflexivity. Qed.

(** C5 (code_bug). [Difference] has no executor: [execute] raises
    [ValueError("Unsupported plan")] on every [Difference] plan. *)
Theorem execute_difference_unsupported (w : Wut) (ps : list plan) :
  execute w (Difference ps) = Err (ValueError "Unsupported plan").
Proof. reflexivity. Qed.

(** C6 (code_bug). [refresh] of an object that is not in the collection
    raises [TypeError] (from [0 <= None] in [ListStore.__contains__]),
    not [ValueError("item not found")], and leaves the state as it was. *)
Theorem refresh_absent_type_error (w : Wut) (o : pyobj) :
  id_get (id_to_rowid w) (id_from_obj o) = None ->
  wut_refresh w o = (w, Err TypeError).
Proof. intros H. unfold wut_refresh. rewrite H. reflexivity. Qed.

Lemma refresh_absent_type_error_witness :
  id_get (id_to_rowid empty_wut) (id_from_obj (obj_ab 7 0 0)) = None
  /\ wut_refresh empty_wut (obj_ab 7 0 0) = (empty_wut, Err TypeError).
Proof.
  assert (H : id_get (id_to_rowid empty_wut) (id_from_obj (obj_ab 7 0 0)) = None)
    by reflexivity.
  exact (conj H (refresh_absent_type_error _ _ H)).
Defined.

(** C7 (code_bug). [clear] does not empty the null-key set: its
    [hasattr(self, '__none_set')] test looks up the unmangled name, so the
    row-id [0] of the object with [a = None] survives, and
    [lookup(None)] still returns it. Count, storage and identity map are
    emptied and the row-id counter is kept. *)
Theorem clear_keeps_none_set :
  none_set (hd (range_index ""%string) (indexes w_none)) = Some [0]
  /\ none_set (hd (range_index ""%string) (indexes (wut_clear w_none))) = Some [0]
  /\ execute (wut_clear w_none) (IndexLookup 0 VNone) = Ok [0]
  /\ count (wut_clear w_none) = 0 /\ ls_keys (store (wut_clear w_none)) = []
  /\ id_to_rowid (wut_clear w_none) = []
  /\ _rowid_counter (wut_clear w_none) = _rowid_counter w_none.
Proof. vm_compute. repeat split; reflexivity. Qed.

(** C8 (confirmed). [add] of an object whose identity is already present
    and [discard] of an absent object return without error and leave the
    whole collection state unchanged. *)
Theorem add_present_discard_absent_noop (w : Wut) (o : pyobj) :
  (forall r, id_get (id_to_rowid w) (id_from_obj o) = Some r -> wut_add w o = (w, Ok tt))
  /\ (id_get (id_to_rowid w) (id_from_obj o) = None -> wut_discard w o = (w, Ok tt)).
Proof.
  split.
  - intros r H. unfold wut_add. rewrite H. reflexivity.
  - intros H. unfold wut_discard. rewrite H. reflexivity.
Qed.

Lemma add_present_discard_absent_noop_witness :
  wut_add w_a0 (mkObj 100 []) = (w_a0, Ok tt)
  /\ wut_discard w_a0 (mkObj 5 []) = (w_a0, Ok tt).
Proof.
  split.
  - exact (proj1 (add_present_discard_absent_noop w_a0 (mkObj 100 [])) 0
             ltac:(vm_compute; reflexivity)).
  - exact (proj2 (add_present_discard_absent_noop w_a0 (mkObj 5 []))
             ltac:(vm_compute; reflexivity)).
Defined.

(** C9 (confirmed). [ScanFilter(Literal(v))] returns the set of all
    row-ids of the storage when [v] is truthy and the empty set otherwise;
    so [filter(True)] is the set of row-ids in the collection and
    [filter(False)] is empty. *)
Theorem scan_filter_literal (w : Wut) :
  (forall v, execute w (ScanFilter (Literal v))
             = Ok (if truthy v then iset_of (ls_keys (store w)) else []))
  /\ (exists res, wut_filter w (Literal (VBool true)) = Ok res
       /\ forall r, List.In r res <-> List.In r (ls_keys (store w)))
  /\ wut_filter w (Literal (VBool false)) = Ok [].
Proof.
  split; [| split].
  - intros v. simpl. destruct (truthy v); reflexivity.
  - exists (iset_of (ls_keys (store w))). split; [reflexivity |].
    intros r. apply iset_of_In.
  - reflexivity.
Qed.

(** C10 (code_bug). [set_ops.add] on a bucket that holds one int row-id
    fails its final [assert type(a) == set]: an int is not a [Box], so the
    singleton branch meant to upgrade int -> array is never taken. *)
Theorem so_add_int_singleton_asserts (r r' : Z) :
  so_add (EInt r) r' = Err AssertionError.
Proof. reflexivity. Qed.

(** ** Further properties: ListStore *)


Lemma ls_keys_from_In (items : Items) (i q : Z) :
  List.In q (ls_keys_from i items) <-> i <= q /\ occupied items (Z.to_nat (q - i)).
Proof.
  unfold occupied. revert i. induction items as [| it rest IH]; intros i; simpl.
  - split; [intros [] | intros [_ [s Hs]]]. destruct (Z.to_nat _); discriminate.
  - assert (Hq : forall q i, i < q -> Z.to_nat (q - i) = S (Z.to_nat (q - (i + 1)))).
    { intros q' i' H. rewrite <- Z2Nat.inj_succ by lia. f_equal. lia. }
    destruct it as [s |]; simpl.
    + rewrite IH. split.
      * intros [-> | [Hle Hs]].
        -- split; [lia |]. rewrite Z.sub_diag. simpl. eauto.
        -- split; [lia |]. rewrite (Hq q i) by lia. exact Hs.
      * intros [Hle Hs]. destruct (Z.eq_dec q i) as [-> | Hne]; [left; reflexivity |].
        right. split; [lia |]. rewrite (Hq q i) in Hs by lia. exact Hs.
    + rewrite IH. split.
      * intros [Hle Hs]. split; [lia |]. rewrite (Hq q i) by lia. exact Hs.
      * intros [Hle [s' Hs]]. destruct (Z.eq_dec q i) as [-> | Hne].
        -- rewrite Z.sub_diag in Hs. discriminate.
        -- split; [lia |]. rewrite (Hq q i) in Hs by lia. eauto.
Qed.

Lemma ls_keys_In (items : Items) (q : Z) :
  List.In q (ls_keys items) <-> 0 <= q /\ occupied items (Z.to_nat q).
Proof. unfold ls_keys. rewrite ls_keys_from_In. rewrite Z.sub_0_r. tauto. Qed.

Lemma py_nth_ok {A} (l : list A) i x :
  0 <= i -> py_nth l i = Ok x -> nth_error l (Z.to_nat i) = Some x /\ (Z.to_nat i < List.length l)%nat.
Proof.
  unfold py_nth. intros Hi. replace (i <? 0) with false by (symmetry; apply Z.ltb_ge; lia).
  destruct ((0 <=? i) && (i <? _)) eqn:E; [| discriminate].
  apply andb_true_iff in E as [_ E]. apply Z.ltb_lt in E.
  destruct (nth_error l (Z.to_nat i)) eqn:Hn; intros H; inversion H; subst.
  split; [reflexivity | lia].
Qed.

Lemma py_set_nth_spec {A} (l l' : list A) i x :
  0 <= i -> py_set_nth l i x = Ok l' ->
  (Z.to_nat i < List.length l)%nat /\ List.length l' = List.length l /\
  forall m, nth_error l' m = if Nat.eqb m (Z.to_nat i) then Some x else nth_error l m.
Proof.
  unfold py_set_nth. intros Hi. replace (i <? 0) with false by (symmetry; apply Z.ltb_ge; lia).
  destruct ((0 <=? i) && (i <? _)) eqn:E; [| discriminate].
  apply andb_true_iff in E as [_ E]. apply Z.ltb_lt in E.
  intros H; inversion H; subst; clear H.
  set (k := Z.to_nat i). assert (Hk : (k < List.length l)%nat) by (unfold k; lia).
  assert (Hf : List.length (firstn k l) = k) by (apply firstn_length_le; lia).
  split; [exact Hk | split].
  - rewrite length_app, Hf. cbn [List.length].
    pose proof (length_skipn (S k) l) as Hs. simpl skipn in Hs. rewrite Hs. lia.
  - intros m. destruct (Nat.eqb_spec m k) as [-> | Hne].
    + rewrite nth_error_app2 by lia. rewrite Hf, Nat.sub_diag. reflexivity.
    + destruct (Nat.lt_ge_cases m k).
      * rewrite nth_error_app1 by lia. rewrite nth_error_firstn.
        replace (Nat.ltb m k) with true by (symmetry; apply Nat.ltb_lt; lia). reflexivity.
      * rewrite nth_error_app2 by lia. rewrite Hf.
        replace (m - k)%nat with (S (m - S k)) by lia. cbn [nth_error].
        pose proof (nth_error_skipn (S k) l (m - S k)) as Hs. simpl skipn in Hs.
        rewrite Hs. f_equal. lia.
Qed.

Lemma ls_set_slots (items items' : Items) pk0 o sto :
  0 <= pk0 -> ls_set items pk0 o = Ok (items', sto) ->
  ~ occupied items (Z.to_nat pk0) /\
  nth_error items' (Z.to_nat pk0) = Some (Some sto) /\
  forall m, m <> Z.to_nat pk0 -> (occupied items' m <-> occupied items m).
Proof.
  intros Hp. unfold ls_set, occupied.
  destruct (Z.of_nat (List.length items) =? pk0) eqn:E1.
  - apply Z.eqb_eq in E1. intros H; inversion H; subst; clear H.
    rewrite Nat2Z.id. split; [| split].
    + intros [s Hs]. assert (Hn : nth_error items (List.length items) <> None) by congruence.
      apply nth_error_Some in Hn. lia.
    + rewrite nth_error_app2 by lia. rewrite Nat.sub_diag. reflexivity.
    + intros m Hm. destruct (Nat.lt_ge_cases m (List.length items)).
      * rewrite nth_error_app1 by lia. reflexivity.
      * rewrite nth_error_app2 by lia. replace (m - List.length items)%nat with (S (m - S (List.length items))) by lia.
        simpl. rewrite nth_error_nil. replace (nth_error items m) with (@None (option ObjectStorage))
          by (symmetry; apply nth_error_None; lia).
        split; intros [s Hs]; discriminate.
  - set (items1 := if Z.of_nat (List.length items) <? pk0 then items ++ repeat None (Z.to_nat (pk0 - Z.of_nat (List.length items) + 1)) else items).
    assert (H1 : forall m, (exists s, nth_error items1 m = Some (Some s)) <-> (exists s, nth_error items m = Some (Some s))).
    { intros m. unfold items1. destruct (_ <? pk0); [| tauto].
      destruct (Nat.lt_ge_cases m (List.length items)).
      - rewrite nth_error_app1 by lia. tauto.
      - rewrite nth_error_app2 by lia.
        replace (nth_error items m) with (@None (option ObjectStorage)) by (symmetry; apply nth_error_None; lia).
        split; intros [s Hs]; [| discriminate].
        apply nth_error_In, repeat_spec in Hs. discriminate. }
    destruct (py_nth items1 pk0) as [cur | e] eqn:Hn; simpl; [| discriminate].
    destruct cur as [c |]; [discriminate |].
    destruct (py_set_nth items1 pk0 (Some (mkSto o pk0 None))) as [l2 | e] eqn:Hs; simpl; [| discriminate].
    intros H; inversion H; subst; clear H.
    apply py_nth_ok in Hn as [Hn _]; [| exact Hp].
    apply py_set_nth_spec in Hs as (_ & _ & Hs); [| exact Hp].
    split; [| split].
    + rewrite <- H1. intros [s Hs']. congruence.
    + rewrite Hs, Nat.eqb_refl. reflexivity.
    + intros m Hm. rewrite <- H1, Hs. apply Nat.eqb_neq in Hm. rewrite Hm. tauto.
Qed.

Lemma py_nth_of_nth {A} (l : list A) i x :
  0 <= i -> nth_error l (Z.to_nat i) = Some x -> py_nth l i = Ok x.
Proof.
  intros Hi Hn. unfold py_nth. replace (i <? 0) with false by (symmetry; apply Z.ltb_ge; lia).
  assert (Hl : (Z.to_nat i < List.length l)%nat) by (apply nth_error_Some; congruence).
  replace ((0 <=? i) && (i <? Z.of_nat (List.length l))) with true
    by (symmetry; apply andb_true_iff; split; [apply Z.leb_le | apply Z.ltb_lt]; lia).
  rewrite Hn. reflexivity.
Qed.

Lemma py_set_nth_in {A} (l : list A) (i : Z) (x : A) :
  0 <= i -> i < Z.of_nat (List.length l) -> exists l', py_set_nth l i x = Ok l'.
Proof.
  intros H1 H2. unfold py_set_nth.
  replace (i <? 0) with false by (symmetry; apply Z.ltb_ge; lia).
  replace ((0 <=? i) && (i <? Z.of_nat (List.length l))) with true
    by (symmetry; apply andb_true_iff; split; [apply Z.leb_le | apply Z.ltb_lt]; lia).
  eexists; reflexivity.
Qed.

Lemma ls_set_free (items : Items) (pk0 : Z) (o : pyobj) :
  0 <= pk0 -> ~ occupied items (Z.to_nat pk0) ->
  exists items' sto, ls_set items pk0 o = Ok (items', sto).
Proof.
  intros Hp Hfree. unfold ls_set.
  destruct (Z.of_nat (List.length items) =? pk0) eqn:E1; [eexists _, _; reflexivity |].
  apply Z.eqb_neq in E1.
  set (items' := if Z.of_nat (List.length items) <? pk0
                 then items ++ repeat None (Z.to_nat (pk0 - Z.of_nat (List.length items) + 1))
                 else items).
  assert (Hlen : pk0 < Z.of_nat (List.length items')
                 /\ nth_error items' (Z.to_nat pk0) = Some None).
  { unfold items'. destruct (Z.of_nat (List.length items) <? pk0) eqn:E2.
    - apply Z.ltb_lt in E2. rewrite length_app, repeat_length. split; [lia |].
      rewrite nth_error_app2 by lia. apply nth_error_repeat. lia.
    - apply Z.ltb_ge in E2. split; [lia |].
      destruct (nth_error items (Z.to_nat pk0)) as [[s |] |] eqn:Hn.
      + exfalso. apply Hfree. exists s. exact Hn.
      + reflexivity.
      + apply nth_error_None in Hn. lia. }
  destruct Hlen as [Hlt Hn]. rewrite (py_nth_of_nth _ _ _ Hp Hn). cbn [bind].
  destruct (py_set_nth_in items' pk0 (Some (mkSto o pk0 None)) Hp Hlt) as [l' Hl'].
  rewrite Hl'. eexists _, _; reflexivity.
Qed.

(** [ListStore.set(pk)] with [pk >= 0] succeeds exactly when [pk] is not
    a key (its slot is free or past the end); it then returns the new box
    (with [pk] and no memory yet), which [get(pk)] finds, and [pk] is the
    one new key of the store. *)
Theorem ls_set_get_keys (items : Items) (pk0 : Z) (o : pyobj) :
  0 <= pk0 ->
  ((exists r, ls_set items pk0 o = Ok r) <-> ~ List.In pk0 (ls_keys items))
  /\ (~ List.In pk0 (ls_keys items) ->
      exists items', ls_set items pk0 o = Ok (items', mkSto o pk0 None)
      /\ ls_get items' pk0 = Ok (mkSto o pk0 None)
      /\ forall q, List.In q (ls_keys items') <-> List.In q (ls_keys items) \/ q = pk0).
Proof.
  intros Hp.
  assert (Hok : forall items' sto, ls_set items pk0 o = Ok (items', sto) ->
            sto = mkSto o pk0 None /\ ls_get items' pk0 = Ok sto
            /\ ~ List.In pk0 (ls_keys items)
            /\ forall q, List.In q (ls_keys items') <-> List.In q (ls_keys items) \/ q = pk0).
  { intros items' sto Hs. pose proof (ls_set_box _ _ _ _ _ Hs) as Hb.
    destruct (ls_set_slots _ _ _ _ _ Hp Hs) as (Hfree & Hat & Hother).
    split; [exact Hb | split; [| split]].
    - unfold ls_get. rewrite (py_nth_of_nth _ _ _ Hp Hat). reflexivity.
    - rewrite ls_keys_In. tauto.
    - intros q. rewrite !ls_keys_In. split.
      + intros [Hq Ho]. destruct (Z.eq_dec q pk0) as [-> | Hne]; [right; reflexivity |].
        left. split; [exact Hq |]. apply Hother; [lia | exact Ho].
      + intros [[Hq Ho] | ->].
        * split; [exact Hq |]. destruct (Z.eq_dec q pk0) as [-> | Hne]; [contradiction |].
          apply Hother; [lia | exact Ho].
        * split; [exact Hp |]. exists sto. exact Hat. }
  assert (Hfree : ~ List.In pk0 (ls_keys items) -> exists items' sto, ls_set items pk0 o = Ok (items', sto)).
  { intros Hn. apply ls_set_free; [exact Hp |]. intros Ho. apply Hn. apply ls_keys_In. auto. }
  split; [split |].
  - intros [[items' sto] Hs]. exact (proj1 (proj2 (proj2 (Hok _ _ Hs)))).
  - intros Hn. destruct (Hfree Hn) as (items' & sto & Hs). exists (items', sto). exact Hs.
  - intros Hn. destruct (Hfree Hn) as (items' & sto & Hs).
    destruct (Hok _ _ Hs) as (-> & Hg & _ & Hk). exists items'. auto.
Qed.

(** setting slot 1 of a store whose slot 1 is free *)
Lemma ls_set_get_keys_witness :
  0 <= 1 /\ ~ List.In 1 (ls_keys [Some (mkSto (obj_ab 1 0 0) 0 None); None])
  /\ exists items', ls_set [Some (mkSto (obj_ab 1 0 0) 0 None); None] 1 (obj_ab 2 0 0)
                     = Ok (items', mkSto (obj_ab 2 0 0) 1 None)
                   /\ ls_get items' 1 = Ok (mkSto (obj_ab 2 0 0) 1 None).
Proof.
  assert (Hp : 0 <= 1) by lia.
  assert (Hn : ~ List.In 1 (ls_keys [Some (mkSto (obj_ab 1 0 0) 0 None); None])).
  { simpl. intros [H | []]. discriminate. }
  split; [exact Hp |]. split; [exact Hn |].
  destruct (proj2 (ls_set_get_keys [Some (mkSto (obj_ab 1 0 0) 0 None); None] 1 (obj_ab 2 0 0) Hp) Hn)
    as (items' & Hs & Hg & _).
  exists items'. exact (conj Hs Hg).
Defined.

Lemma ls_set_occupied_err (items : Items) (pk0 : Z) (o : pyobj) :
  ls_contains items (Some pk0) = Ok true -> ls_set items pk0 o = Err AssertionError.
Proof.
  unfold ls_contains. intros H. inversion H as [H1]. clear H.
  apply andb_true_iff in H1 as [H1 H3]. apply andb_true_iff in H1 as [H1 H2].
  apply Z.leb_le in H1. apply Z.ltb_lt in H2.
  destruct (nth_error items (Z.to_nat pk0)) as [[s |] |] eqn:Hn; try discriminate.
  unfold ls_set.
  replace (Z.of_nat (List.length items) =? pk0) with false by (symmetry; apply Z.eqb_neq; lia).
  replace (Z.of_nat (List.length items) <? pk0) with false by (symmetry; apply Z.ltb_ge; lia).
  rewrite (py_nth_of_nth _ _ _ H1 Hn). reflexivity.
Qed.

(** [ListStore.set] on a slot that is in use fails its
    [assert self._items[pk] is None]. *)
Theorem ls_set_occupied_asserts (items : Items) (pk0 : Z) (o : pyobj) :
  ls_contains items (Some pk0) = Ok true -> ls_set items pk0 o = Err AssertionError.
Proof. exact (ls_set_occupied_err items pk0 o). Qed.

Lemma ls_set_occupied_asserts_witness :
  ls_contains [Some (mkSto (obj_ab 1 0 0) 0 None)] (Some 0) = Ok true
  /\ ls_set [Some (mkSto (obj_ab 1 0 0) 0 None)] 0 (obj_ab 2 0 0) = Err AssertionError.
Proof.
  assert (H : ls_contains [Some (mkSto (obj_ab 1 0 0) 0 None)] (Some 0) = Ok true)
    by reflexivity.
  exact (conj H (ls_set_occupied_asserts _ _ _ H)).
Defined.

(** [ListStore.delete(pk)] succeeds exactly when [pk] is a key; it then
    removes [pk] and only [pk] from the keys, and [get(pk)] afterwards
    fails its assertion. *)
Theorem ls_delete_keys (items : Items) (pk0 : Z) :
  0 <= pk0 ->
  match ls_delete items pk0 with
  | Ok items' =>
      List.In pk0 (ls_keys items) /\ ls_get items' pk0 = Err AssertionError
      /\ forall q, List.In q (ls_keys items') <-> List.In q (ls_keys items) /\ q <> pk0
  | Err _ => ~ List.In pk0 (ls_keys items)
  end.
Proof.
  intros Hp. unfold ls_delete.
  destruct (py_nth items pk0) as [item | e] eqn:Hn; simpl.
  - apply py_nth_ok in Hn as [Hn Hlen]; [| exact Hp].
    destruct item as [s |].
    + destruct (py_set_nth items pk0 None) as [items' | e] eqn:Hs.
      * apply py_set_nth_spec in Hs as (_ & _ & Hs); [| exact Hp].
        split; [| split].
        -- apply ls_keys_In. split; [exact Hp | exists s; exact Hn].
        -- unfold ls_get. rewrite (py_nth_of_nth items' pk0 None Hp) by (rewrite Hs, Nat.eqb_refl; reflexivity).
           reflexivity.
        -- intros q. rewrite !ls_keys_In. unfold occupied. rewrite Hs.
           destruct (Nat.eqb_spec (Z.to_nat q) (Z.to_nat pk0)) as [E | E].
           ++ split; [intros [_ [s' Hs']]; discriminate | intros [[Hq _] Hne]; lia].
           ++ split; [intros [Hq Ho]; split; [tauto | intros ->; contradiction]
                     | intros [[Hq Ho] _]; tauto].
      * exfalso. unfold py_set_nth in Hs.
        replace (pk0 <? 0) with false in Hs by (symmetry; apply Z.ltb_ge; lia).
        replace ((0 <=? pk0) && (pk0 <? Z.of_nat (List.length items))) with true in Hs
          by (symmetry; apply andb_true_iff; split; [apply Z.leb_le | apply Z.ltb_lt]; lia).
        discriminate.
    + rewrite ls_keys_In. intros [_ [s Hs]]. congruence.
  - rewrite ls_keys_In. intros [_ [s Hs]].
    rewrite (py_nth_of_nth _ _ _ Hp Hs) in Hn. discriminate.
Qed.

Lemma ls_delete_keys_witness :
  ls_delete [Some (mkSto (obj_ab 1 0 0) 0 None)] 0 = Ok [None]
  /\ ls_get [None] 0 = Err AssertionError.
Proof.
  pose proof (ls_delete_keys [Some (mkSto (obj_ab 1 0 0) 0 None)] 0 (Z.le_refl 0)) as H.
  assert (E : ls_delete [Some (mkSto (obj_ab 1 0 0) 0 None)] 0 = Ok [None]) by reflexivity.
  rewrite E in H. exact (conj E (proj1 (proj2 H))).
Defined.

(** ** Further properties: the collection *)

Lemma ls_keys_from_length (i : Z) (items : Items) :
  List.length (ls_keys_from i items) = List.length (filter is_box items).
Proof.
  revert i. induction items as [| [s |] rest IH]; intros i; simpl; auto.
Qed.

Lemma nkeys_mid (l1 l2 : Items) (x : option ObjectStorage) :
  List.length (ls_keys (l1 ++ x :: l2))
  = (List.length (filter is_box l1) + (if is_box x then 1 else 0)
     + List.length (filter is_box l2))%nat.
Proof.
  unfold ls_keys. rewrite ls_keys_from_length, filter_app, length_app.
  destruct x; simpl; lia.
Qed.

Lemma ls_keys_bound (items : Items) (q : Z) :
  List.In q (ls_keys items) -> 0 <= q < Z.of_nat (List.length items).
Proof.
  rewrite ls_keys_In. intros [Hq [s Hs]].
  assert (Z.to_nat q < List.length items)%nat by (apply nth_error_Some; congruence).
  lia.
Qed.

(** [l[i]] read and then written at the same [i] touches one slot *)
Lemma py_nth_set_split {A} (l l' : list A) (i : Z) (x y : A) :
  py_nth l i = Ok y -> py_set_nth l i x = Ok l' ->
  exists l1 l2, l = l1 ++ y :: l2 /\ l' = l1 ++ x :: l2
    /\ (0 <= i -> List.length l1 = Z.to_nat i).
Proof.
  unfold py_nth, py_set_nth.
  set (j := if i <? 0 then Z.of_nat (List.length l) + i else i).
  assert (Hj : 0 <= i -> j = i) by (intros; unfold j; destruct (Z.ltb_spec i 0); lia).
  destruct ((0 <=? j) && (j <? Z.of_nat (List.length l))); [| discriminate].
  destruct (nth_error l (Z.to_nat j)) as [y' |] eqn:Hn; [| discriminate].
  intros Hy Hs. injection Hy as <-. injection Hs as <-.
  destruct (nth_error_split l _ Hn) as (l1 & l2 & E & Hl).
  exists l1, l2. split; [exact E |].
  split; [| intros Hi; rewrite <- (Hj Hi); exact Hl]. rewrite E, <- Hl.
  match goal with
  | |- context [match ?L with [] => [] | _ :: l0 => skipn ?n l0 end] =>
      change (match L with [] => [] | _ :: l0 => skipn n l0 end) with (skipn (S n) L)
  end.
  rewrite firstn_app, skipn_app, firstn_all, Nat.sub_diag, (skipn_all2 l1) by lia.
  replace (S (List.length l1) - List.length l1)%nat with 1%nat by lia.
  simpl. rewrite app_nil_r. reflexivity.
Qed.

Lemma nth_error_mid_other {A} (l1 l2 : list A) (x y : A) (m : nat) :
  m <> List.length l1 -> nth_error (l1 ++ x :: l2) m = nth_error (l1 ++ y :: l2) m.
Proof.
  intros Hm. destruct (Nat.lt_ge_cases m (List.length l1)).
  - rewrite !nth_error_app1 by lia. reflexivity.
  - rewrite !nth_error_app2 by lia.
    destruct (m - List.length l1)%nat eqn:E; [lia | reflexivity].
Qed.

Lemma nth_error_mid {A} (l1 l2 : list A) (x : A) :
  nth_error (l1 ++ x :: l2) (List.length l1) = Some x.
Proof. rewrite nth_error_app2, Nat.sub_diag by lia. reflexivity. Qed.

Lemma occupied_app_last (l : Items) (x : ObjectStorage) (m : nat) :
  occupied (l ++ [Some x]) m <-> occupied l m \/ m = List.length l.
Proof.
  unfold occupied. destruct (Nat.lt_ge_cases m (List.length l)).
  - rewrite nth_error_app1 by lia. split; [tauto | intros [H' | ->]; [exact H' | lia]].
  - rewrite nth_error_app2 by lia.
    assert (Hn : nth_error l m = None) by (apply nth_error_None; lia).
    rewrite Hn. destruct (m - List.length l)%nat eqn:E.
    + split; [intros _; right; lia | intros _; exists x; reflexivity].
    + simpl. rewrite nth_error_nil.
      split; [intros [s Hs]; discriminate | intros [[s Hs] | E']; [discriminate | lia]].
Qed.

Lemma py_set_nth_last {A} (l : list A) (x y : A) :
  py_set_nth (l ++ [y]) (Z.of_nat (List.length l)) x = Ok (l ++ [x]).
Proof.
  unfold py_set_nth. rewrite length_app. simpl List.length.
  replace (Z.of_nat (List.length l) <? 0) with false by (symmetry; apply Z.ltb_ge; lia).
  replace ((0 <=? Z.of_nat (List.length l)) && (Z.of_nat (List.length l) <? Z.of_nat (List.length l + 1)))
    with true by (symmetry; apply andb_true_iff; split; [apply Z.leb_le | apply Z.ltb_lt]; lia).
  rewrite Nat2Z.id, firstn_app, firstn_all, Nat.sub_diag, skipn_all2
    by (rewrite length_app; simpl; lia).
  simpl. rewrite app_nil_r. reflexivity.
Qed.

Lemma id_get_set (m : list (Z * Z)) (k v k' : Z) :
  id_get (id_set m k v) k' = if k' =? k then Some v else id_get m k'.
Proof.
  unfold id_set. simpl. destruct (Z.eqb_spec k' k) as [-> | Hne]; [reflexivity |].
  induction m as [| [a b] m IH]; simpl; [reflexivity |].
  destruct (Z.eqb_spec a k) as [-> | Hak]; simpl.
  - rewrite IH. rewrite (proj2 (Z.eqb_neq k' k) Hne). reflexivity.
  - destruct (k' =? a); [reflexivity | exact IH].
Qed.

Lemma id_get_del (m : list (Z * Z)) (k k' : Z) :
  id_get (id_del m k) k' = if k' =? k then None else id_get m k'.
Proof.
  unfold id_del. induction m as [| [a b] m IH]; simpl; [destruct (k' =? k); reflexivity |].
  destruct (Z.eqb_spec a k) as [-> | Hak]; simpl.
  - rewrite IH. destruct (k' =? k); reflexivity.
  - destruct (Z.eqb_spec k' a) as [-> | Hka].
    + rewrite (proj2 (Z.eqb_neq a k) Hak). reflexivity.
    + exact IH.
Qed.

Lemma ls_keys_from_none (i : Z) (l : Items) :
  ls_keys_from i (map (fun _ => None) l) = [].
Proof. revert i. induction l; intros i; simpl; auto. Qed.

(** a successful [add] of a new object appends its box to [_items] when
    [len(_items)] is the row-id counter *)
Lemma wut_add_ok_shape (w w' : Wut) (o : pyobj) :
  Z.of_nat (List.length (store w)) = _rowid_counter w ->
  id_get (id_to_rowid w) (id_from_obj o) = None ->
  wut_add w o = (w', Ok tt) ->
  exists im ixs,
    add_to_indexes (attrs w) (indexes w) (mkSto o (_rowid_counter w) None) = (ixs, Ok im)
    /\ w' = mkWut (store w ++ [Some (mkSto o (_rowid_counter w) (Some im))])
              (id_set (id_to_rowid w) (id_from_obj o) (_rowid_counter w))
              (count w + 1) (_rowid_counter w + 1) (attrs w) ixs.
Proof.
  intros Hl Hn. unfold wut_add. rewrite Hn. unfold ls_set at 1.
  rewrite <- Hl, Z.eqb_refl. cbn iota beta.
  destruct (add_to_indexes (attrs w) (indexes w) (mkSto o (Z.of_nat (List.length (store w))) None))
    as [ixs [im | e]] eqn:Ha; [| discriminate].
  simpl. rewrite py_set_nth_last. intros H. inversion H; subst.
  exists im, ixs. split; reflexivity.
Qed.

Lemma keys_mid_none (l1 l2 : Items) (s : ObjectStorage) (q : Z) :
  List.In q (ls_keys (l1 ++ None :: l2))
  <-> List.In q (ls_keys (l1 ++ Some s :: l2)) /\ q <> Z.of_nat (List.length l1).
Proof.
  rewrite !ls_keys_In. unfold occupied.
  destruct (Nat.eq_dec (Z.to_nat q) (List.length l1)) as [E | E].
  - rewrite E, !nth_error_mid. split.
    + intros [_ [s' H]]; discriminate.
    + intros [[Hq _] Hne]; lia.
  - rewrite (nth_error_mid_other l1 l2 None (Some s)) by exact E.
    split; [intros [Hq Ho]; split; [tauto | lia] | tauto].
Qed.

Lemma keys_mid_some (l1 l2 : Items) (s s' : ObjectStorage) (q : Z) :
  List.In q (ls_keys (l1 ++ Some s' :: l2)) <-> List.In q (ls_keys (l1 ++ Some s :: l2)).
Proof.
  rewrite !ls_keys_In. unfold occupied.
  destruct (Nat.eq_dec (Z.to_nat q) (List.length l1)) as [E | E].
  - rewrite E, !nth_error_mid. split; intros [Hq _]; split; [exact Hq | eexists; reflexivity
                                                              | exact Hq | eexists; reflexivity].
  - rewrite (nth_error_mid_other l1 l2 (Some s') (Some s)) by exact E. tauto.
Qed.

Lemma wut_inv_add (w w' : Wut) (o : pyobj) :
  wut_inv w -> wut_add w o = (w', Ok tt) -> wut_inv w'.
Proof.
  intros Hinv H. destruct (id_get (id_to_rowid w) (id_from_obj o)) as [r |] eqn:Hn.
  - unfold wut_add in H. rewrite Hn in H. inversion H; subst. exact Hinv.
  - destruct Hinv as (Hl & Hc & Hmk & Hkm & Hinj).
    destruct (wut_add_ok_shape _ _ _ Hl Hn H) as (im & ixs & _ & ->).
    unfold wut_inv. cbn [store id_to_rowid count _rowid_counter].
    assert (Hkeys : forall q, List.In q (ls_keys (store w ++ [Some (mkSto o (_rowid_counter w) (Some im))]))
                     <-> List.In q (ls_keys (store w)) \/ q = _rowid_counter w).
    { intros q. rewrite !ls_keys_In, occupied_app_last. split.
      - intros [Hq [Ho | Ho]]; [left; tauto | right; lia].
      - intros [[Hq Ho] | ->]; split; try tauto; [lia | right; lia]. }
    assert (Hcnot : ~ List.In (_rowid_counter w) (ls_keys (store w)))
      by (intros Hin; apply ls_keys_bound in Hin; lia).
    refine (conj _ (conj _ (conj _ (conj _ _)))).
    + rewrite length_app. simpl. lia.
    + unfold ls_keys in *. rewrite ls_keys_from_length, filter_app, length_app.
      rewrite ls_keys_from_length in Hc. simpl. lia.
    + intros k r. rewrite id_get_set. destruct (Z.eqb_spec k (id_from_obj o)).
      * intros E. inversion E; subst. apply Hkeys. right. reflexivity.
      * intros E. apply Hkeys. left. eapply Hmk. exact E.
    + intros r Hr. apply Hkeys in Hr as [Hr | ->].
      * destruct (Hkm r Hr) as [k Hk]. exists k. rewrite id_get_set.
        destruct (Z.eqb_spec k (id_from_obj o)) as [-> | _]; [congruence | exact Hk].
      * exists (id_from_obj o). rewrite id_get_set, Z.eqb_refl. reflexivity.
    + intros k1 k2 r. rewrite !id_get_set.
      destruct (Z.eqb_spec k1 (id_from_obj o)), (Z.eqb_spec k2 (id_from_obj o));
        intros E1 E2; subst; try reflexivity.
      * inversion E1; subst. exfalso. apply Hcnot. eapply Hmk. exact E2.
      * inversion E2; subst. exfalso. apply Hcnot. eapply Hmk. exact E1.
      * eapply Hinj; eassumption.
Qed.

Lemma wut_inv_discard (w w' : Wut) (o : pyobj) :
  wut_inv w -> wut_discard w o = (w', Ok tt) -> wut_inv w'.
Proof.
  intros Hinv H. unfold wut_discard in H.
  destruct (id_get (id_to_rowid w) (id_from_obj o)) as [r |] eqn:Hn;
    [| inversion H; subst; exact Hinv].
  destruct (ls_get (store w) (id_from_obj o)) as [sto | e]; [| discriminate].
  destruct (index_mem sto) as [im |]; [| discriminate].
  destruct (remove_from_indexes (attrs w) (indexes w) sto im) as [ixs [u | e]]; [| discriminate].
  destruct (ls_delete (store w) r) as [items | e] eqn:Hd; [| discriminate].
  inversion H; subst. clear H.
  destruct Hinv as (Hl & Hc & Hmk & Hkm & Hinj).
  assert (Hr : 0 <= r) by (pose proof (ls_keys_bound _ _ (Hmk _ _ Hn)); lia).
  unfold ls_delete in Hd.
  destruct (py_nth (store w) r) as [[s |] | e] eqn:Hp; simpl in Hd; try discriminate.
  destruct (py_nth_set_split _ _ _ _ _ Hp Hd) as (l1 & l2 & Es & Ei & Hlen).
  specialize (Hlen Hr).
  assert (Hkeys : forall q, List.In q (ls_keys items) <-> List.In q (ls_keys (store w)) /\ q <> r).
  { intros q. rewrite Ei, Es, (keys_mid_none l1 l2 s). rewrite Hlen, Z2Nat.id by exact Hr. tauto. }
  unfold wut_inv. cbn [store id_to_rowid count _rowid_counter set_store set_indexes].
  refine (conj _ (conj _ (conj _ (conj _ _)))).
  - rewrite Ei, <- Hl, Es, !length_app. reflexivity.
  - rewrite Hc, Es, Ei, !nkeys_mid. simpl. lia.
  - intros k r'. rewrite id_get_del. destruct (Z.eqb_spec k (id_from_obj o)) as [_ | Hk];
      [discriminate |].
    intros E. apply Hkeys. split; [eapply Hmk; exact E |].
    intros ->. apply Hk. eapply Hinj; eassumption.
  - intros r' Hr'. apply Hkeys in Hr' as [Hr' Hne]. destruct (Hkm r' Hr') as [k Hk].
    exists k. rewrite id_get_del. destruct (Z.eqb_spec k (id_from_obj o)) as [-> | _];
      [congruence | exact Hk].
  - intros k1 k2 r'. rewrite !id_get_del.
    destruct (k1 =? id_from_obj o), (k2 =? id_from_obj o); try discriminate.
    apply Hinj.
Qed.

Lemma wut_inv_refresh (w w' : Wut) (o : pyobj) :
  wut_inv w -> wut_refresh w o = (w', Ok tt) -> wut_inv w'.
Proof.
  intros Hinv H. unfold wut_refresh in H.
  destruct (ls_contains (store w) (id_get (id_to_rowid w) (id_from_obj o))) as [[|] | e];
    try discriminate.
  destruct (ls_get (store w) (id_from_obj o)) as [sto | e] eqn:Hg; [| discriminate].
  destruct (index_mem sto) as [im |]; [| discriminate].
  destruct (refresh_indexes (attrs w) (indexes w) sto im) as [ixs [nl | e]]; [| discriminate].
  destruct (py_set_nth (store w) (id_from_obj o) _) as [items | e] eqn:Hs; [| discriminate].
  inversion H; subst. clear H.
  unfold ls_get in Hg.
  destruct (py_nth (store w) (id_from_obj o)) as [[s |] | e] eqn:Hp; simpl in Hg; try discriminate.
  destruct (py_nth_set_split _ _ _ _ _ Hp Hs) as (l1 & l2 & Es & Ei & _).
  destruct Hinv as (Hl & Hc & Hmk & Hkm & Hinj).
  assert (Hkeys : forall q, List.In q (ls_keys items) <-> List.In q (ls_keys (store w))).
  { intros q. rewrite Ei, Es. apply keys_mid_some. }
  unfold wut_inv. cbn [store id_to_rowid count _rowid_counter set_store set_indexes].
  refine (conj _ (conj _ (conj _ (conj _ _)))).
  - rewrite Ei, <- Hl, Es, !length_app. reflexivity.
  - rewrite Hc, Es, Ei, !nkeys_mid. reflexivity.
  - intros k r E. apply Hkeys. eapply Hmk. exact E.
  - intros r Hr. apply Hkeys in Hr. exact (Hkm r Hr).
  - exact Hinj.
Qed.

Lemma wut_inv_clear (w : Wut) : wut_inv w -> wut_inv (wut_clear w).
Proof.
  intros (Hl & _). unfold wut_inv, wut_clear, ls_clear, ls_keys. simpl.
  rewrite ls_keys_from_none, length_map.
  refine (conj Hl (conj eq_refl (conj _ (conj _ _)))); simpl; intros; try discriminate; contradiction.
Qed.

Lemma wut_inv_update (w w' : Wut) (objs : list pyobj) :
  wut_inv w -> wut_update w objs = (w', Ok tt) -> wut_inv w'.
Proof.
  revert w. induction objs as [| o rest IH]; intros w Hinv H; simpl in H.
  - inversion H; subst. exact Hinv.
  - destruct (wut_add w o) as [w1 [[] | e]] eqn:Ha; [| discriminate].
    exact (IH w1 (wut_inv_add _ _ _ Hinv Ha) H).
Qed.

Lemma wut_inv_new (objs : list pyobj) (attrs : ComputedAttrs) (ixs : list Index) (w : Wut) :
  wut_new objs attrs ixs = (w, Ok tt) -> wut_inv w.
Proof.
  unfold wut_new. apply wut_inv_update.
  unfold wut_inv. simpl.
  refine (conj eq_refl (conj eq_refl (conj _ (conj _ _)))); simpl; intros; try discriminate; contradiction.
Qed.

Lemma ls_values_length (items : Items) :
  List.length (ls_values items) = List.length (filter is_box items).
Proof. induction items as [| [s |] rest IH]; simpl; auto. Qed.

Lemma ls_set_contains (items items' : Items) (pk0 : Z) (o : pyobj) (sto : ObjectStorage) :
  0 <= pk0 -> ls_set items pk0 o = Ok (items', sto) -> ls_contains items' (Some pk0) = Ok true.
Proof.
  intros Hp Hs. destruct (ls_set_slots _ _ _ _ _ Hp Hs) as (_ & Hat & _).
  assert (Hl : (Z.to_nat pk0 < List.length items')%nat) by (apply nth_error_Some; congruence).
  unfold ls_contains. rewrite Hat.
  replace ((0 <=? pk0) && (pk0 <? Z.of_nat (List.length items'))) with true
    by (symmetry; apply andb_true_iff; split; [apply Z.leb_le | apply Z.ltb_lt]; lia).
  reflexivity.
Qed.

(** [Wut.add], [discard], [refresh], [clear] and [update], when they
    return normally, keep the fields of the collection consistent
    ([wut_inv]): [len(store._items)] is the row-id counter, [count] the
    number of stored boxes, and [id_to_rowid] maps the identities one to
    one onto the row-ids in use. *)
Theorem wut_ops_preserve_inv (w w' : Wut) (o : pyobj) (objs : list pyobj) :
  wut_inv w ->
  (wut_add w o = (w', Ok tt) -> wut_inv w')
  /\ (wut_discard w o = (w', Ok tt) -> wut_inv w')
  /\ (wut_refresh w o = (w', Ok tt) -> wut_inv w')
  /\ wut_inv (wut_clear w)
  /\ (wut_update w objs = (w', Ok tt) -> wut_inv w').
Proof.
  intros Hinv. refine (conj _ (conj _ (conj _ (conj _ _)))).
  - exact (wut_inv_add w w' o Hinv).
  - exact (wut_inv_discard w w' o Hinv).
  - exact (wut_inv_refresh w w' o Hinv).
  - exact (wut_inv_clear w Hinv).
  - exact (wut_inv_update w w' objs Hinv).
Qed.

Lemma wut_ops_preserve_inv_witness :
  wut_inv w_a0 /\ wut_inv (wut_clear w_a0).
Proof.
  assert (H : wut_inv w_a0).
  { apply (wut_inv_new [mkObj 100 [("a"%string, VInt 0)]] [] [range_index "a"%string]).
    vm_compute. reflexivity. }
  exact (conj H (proj1 (proj2 (proj2 (proj2 (wut_ops_preserve_inv w_a0 w_a0 (obj_ab 1 0 0) [] H)))))).
Defined.

(** A collection built by [Wut(objs, ...)] without an exception is
    consistent, and [len()] is the number of objects iteration yields. *)
Theorem wut_new_consistent (objs : list pyobj) (attrs : ComputedAttrs) (ixs : list Index) (w : Wut) :
  wut_new objs attrs ixs = (w, Ok tt) ->
  wut_inv w /\ wut_len w = Z.of_nat (List.length (wut_iter w)).
Proof.
  intros H. pose proof (wut_inv_new _ _ _ _ H) as Hinv. split; [exact Hinv |].
  destruct Hinv as (_ & Hc & _). unfold wut_len, wut_iter, ls_keys in *.
  rewrite length_map, ls_values_length. rewrite ls_keys_from_length in Hc. exact Hc.
Qed.

Lemma wut_new_consistent_witness :
  wut_new [mkObj 100 [("a"%string, VInt 0)]] [] [range_index "a"%string] = (w_a0, Ok tt)
  /\ wut_len w_a0 = 1.
Proof.
  assert (H : wut_new [mkObj 100 [("a"%string, VInt 0)]] [] [range_index "a"%string] = (w_a0, Ok tt))
    by (vm_compute; reflexivity).
  split; [exact H |].
  rewrite (proj2 (wut_new_consistent _ _ _ _ H)). vm_compute. reflexivity.
Defined.

(** In a consistent collection every object [__contains__] reports has a
    box stored at its row-id ([store.get(row_id)] succeeds). *)
Theorem contains_has_box (w : Wut) (o : pyobj) :
  wut_inv w -> wut_contains w o = true ->
  exists r sto, id_get (id_to_rowid w) (id_from_obj o) = Some r /\ ls_get (store w) r = Ok sto.
Proof.
  intros (_ & _ & Hmk & _) Hc. unfold wut_contains in Hc.
  destruct (id_get (id_to_rowid w) (id_from_obj o)) as [r |] eqn:Hn; [| discriminate].
  pose proof (Hmk _ _ Hn) as Hr. apply ls_keys_In in Hr as [Hr [sto Hs]].
  exists r, sto. split; [reflexivity |].
  unfold ls_get. rewrite (py_nth_of_nth _ _ _ Hr Hs). reflexivity.
Qed.

Lemma contains_has_box_witness :
  exists r sto, id_get (id_to_rowid w_a0) 100 = Some r /\ ls_get (store w_a0) r = Ok sto.
Proof.
  assert (H : wut_inv w_a0).
  { apply (wut_inv_new [mkObj 100 [("a"%string, VInt 0)]] [] [range_index "a"%string]).
    vm_compute. reflexivity. }
  exact (contains_has_box w_a0 (mkObj 100 []) H eq_refl).
Defined.

(** [Wut.add] of an object that is not yet present, returning normally in
    a collection whose [len(store._items)] is the row-id counter: the
    new box (with its index memory) is appended at row-id = the counter,
    the identity now maps to it, and [count] and the counter go up by one;
    other identities keep their row-ids. *)
Theorem add_new_appends (w w' : Wut) (o : pyobj) :
  Z.of_nat (List.length (store w)) = _rowid_counter w ->
  wut_contains w o = false ->
  wut_add w o = (w', Ok tt) ->
  (exists im, store w' = store w ++ [Some (mkSto o (_rowid_counter w) (Some im))])
  /\ id_get (id_to_rowid w') (id_from_obj o) = Some (_rowid_counter w)
  /\ (forall k, k <> id_from_obj o -> id_get (id_to_rowid w') k = id_get (id_to_rowid w) k)
  /\ wut_contains w' o = true
  /\ count w' = count w + 1 /\ _rowid_counter w' = _rowid_counter w + 1.
Proof.
  intros Hl Hc H. unfold wut_contains in *.
  destruct (id_get (id_to_rowid w) (id_from_obj o)) eqn:Hn; [discriminate |].
  destruct (wut_add_ok_shape _ _ _ Hl Hn H) as (im & ixs & _ & ->).
  cbn [store id_to_rowid count _rowid_counter]. rewrite !id_get_set, Z.eqb_refl.
  refine (conj (ex_intro _ im eq_refl) (conj eq_refl (conj _ (conj eq_refl (conj eq_refl eq_refl))))).
  intros k Hk. rewrite id_get_set, (proj2 (Z.eqb_neq k (id_from_obj o)) Hk). reflexivity.
Qed.

Lemma add_new_appends_witness :
  wut_add empty_wut (obj_ab 5 1 2) = (fst (wut_add empty_wut (obj_ab 5 1 2)), Ok tt)
  /\ count (fst (wut_add empty_wut (obj_ab 5 1 2))) = 1.
Proof.
  assert (H : wut_add empty_wut (obj_ab 5 1 2) = (fst (wut_add empty_wut (obj_ab 5 1 2)), Ok tt))
    by (vm_compute; reflexivity).
  split; [exact H |].
  destruct (add_new_appends _ _ _ (eq_refl : Z.of_nat (List.length (store empty_wut)) = _rowid_counter empty_wut)
              (eq_refl : wut_contains empty_wut (obj_ab 5 1 2) = false) H)
    as (_ & _ & _ & _ & Hc & _).
  rewrite Hc. vm_compute. reflexivity.
Defined.

(** A failed [Wut.add] either leaves the collection as it was, or (when
    the failure comes after [store.set]) leaves a box in the slot of the
    row-id counter without advancing the counter: from then on every [add]
    of a new object fails [ListStore.set]'s assertion and changes nothing. *)
Theorem failed_add_jams (w w' : Wut) (o : pyobj) (e : pyexc) :
  0 <= _rowid_counter w -> wut_add w o = (w', Err e) ->
  w' = w
  \/ (_rowid_counter w' = _rowid_counter w
      /\ List.In (_rowid_counter w) (ls_keys (store w'))
      /\ forall o2, wut_contains w' o2 = false -> wut_add w' o2 = (w', Err AssertionError)).
Proof.
  intros Hp H. unfold wut_add in H.
  destruct (id_get (id_to_rowid w) (id_from_obj o)); [discriminate |].
  destruct (ls_set (store w) (_rowid_counter w) o) as [[items sto] | e'] eqn:Hs;
    [| inversion H; left; reflexivity].
  right. pose proof (ls_set_contains _ _ _ _ _ Hp Hs) as Hocc.
  assert (E : store w' = items /\ _rowid_counter w' = _rowid_counter w).
  { destruct (add_to_indexes (attrs w) (indexes w) sto) as [ixs [im | e1]];
      [destruct (py_set_nth _ _ _) |]; inversion H; subst; split; reflexivity. }
  destruct E as [E1 E2]. split; [exact E2 | split].
  - rewrite E1, ls_keys_In. split; [exact Hp |].
    destruct (ls_set_slots _ _ _ _ _ Hp Hs) as (_ & Hat & _). exists sto. exact Hat.
  - intros o2 Hc. unfold wut_contains in Hc. unfold wut_add.
    destruct (id_get (id_to_rowid w') (id_from_obj o2)); [discriminate |].
    rewrite E1, E2, (ls_set_occupied_err items _ o2 Hocc). reflexivity.
Qed.

Lemma failed_add_jams_witness :
  0 <= _rowid_counter w_unique
  /\ wut_add (fst (wut_add w_unique (obj_ab 2 1 5))) (obj_ab 9 3 3)
     = (fst (wut_add w_unique (obj_ab 2 1 5)), Err AssertionError).
Proof.
  assert (Hp : 0 <= _rowid_counter w_unique) by (vm_compute; discriminate).
  assert (H : wut_add w_unique (obj_ab 2 1 5)
              = (fst (wut_add w_unique (obj_ab 2 1 5)), Err unique_violation))
    by (vm_compute; reflexivity).
  split; [exact Hp |].
  destruct (failed_add_jams _ _ _ _ Hp H) as [E | (_ & _ & J)].
  - exfalso. vm_compute in E. discriminate E.
  - apply J. vm_compute. reflexivity.
Defined.

Ltac case_match_goal :=
  match goal with |- context [match ?x with _ => _ end] => destruct x eqn:? end.

Lemma counter_add (w : Wut) (o : pyobj) : _rowid_counter w <= _rowid_counter (fst (wut_add w o)).
Proof.
  unfold wut_add. repeat case_match_goal; cbn; lia.
Qed.

Lemma counter_update (w : Wut) (objs : list pyobj) :
  _rowid_counter w <= _rowid_counter (fst (wut_update w objs)).
Proof.
  revert w. induction objs as [| o rest IH]; intros w; simpl; [lia |].
  pose proof (counter_add w o) as Ha.
  destruct (wut_add w o) as [w1 [u | e]]; simpl in *; [specialize (IH w1) |]; lia.
Qed.

(** [_rowid_counter] is "never decremented": [add] and [update] only
    raise it, [discard], [refresh] and [clear] keep it, whether they
    return normally or raise. *)
Theorem rowid_counter_never_decreases (w : Wut) (o : pyobj) (objs : list pyobj) :
  _rowid_counter w <= _rowid_counter (fst (wut_add w o))
  /\ _rowid_counter (fst (wut_discard w o)) = _rowid_counter w
  /\ _rowid_counter (fst (wut_refresh w o)) = _rowid_counter w
  /\ _rowid_counter (wut_clear w) = _rowid_counter w
  /\ _rowid_counter w <= _rowid_counter (fst (wut_update w objs)).
Proof.
  refine (conj (counter_add w o) (conj _ (conj _ (conj eq_refl (counter_update w objs))))).
  - unfold wut_discard. repeat case_match_goal; reflexivity.
  - unfold wut_refresh. repeat case_match_goal; reflexivity.
Qed.

(** [Wut.discard] fetches the box with [self.store.get(obj_id)], by
    identity: when the identity of a present object is not itself a
    row-id in use, [discard] raises [IndexError] or [AssertionError]
    before changing anything, and the object stays in the collection. *)
Theorem discard_by_identity_fails (w : Wut) (o : pyobj) :
  wut_contains w o = true -> 0 <= id_from_obj o ->
  ~ List.In (id_from_obj o) (ls_keys (store w)) ->
  exists e, wut_discard w o = (w, Err e) /\ (e = IndexError \/ e = AssertionError).
Proof.
  intros Hc Hi Hk. unfold wut_contains in Hc. unfold wut_discard.
  destruct (id_get (id_to_rowid w) (id_from_obj o)); [| discriminate].
  unfold ls_get. destruct (py_nth (store w) (id_from_obj o)) as [[s |] | e] eqn:Hp; simpl.
  - exfalso. apply Hk. apply py_nth_ok in Hp as [Hp _]; [| exact Hi].
    apply ls_keys_In. split; [exact Hi | exists s; exact Hp].
  - exists AssertionError. split; [reflexivity | right; reflexivity].
  - exists e. split; [reflexivity | left; exact (py_nth_err _ _ _ Hp)].
Qed.

Lemma discard_by_identity_fails_witness :
  exists e, wut_discard w_a0 (mkObj 100 []) = (w_a0, Err e).
Proof.
  assert (Hk : ~ List.In 100 (ls_keys (store w_a0))).
  { vm_compute. intros [H | H]; [discriminate | contradiction]. }
  destruct (discard_by_identity_fails w_a0 (mkObj 100 []) eq_refl ltac:(vm_compute; discriminate) Hk)
    as (e & He & _).
  exists e. exact He.
Defined.

(** ** Further properties: ranges (plan.py) and [RangeIndex.match] *)

Ltac zdec :=
  repeat match goal with
  | |- context [?a <=? ?b] => destruct (Z.leb_spec a b)
  | |- context [?a <? ?b] => destruct (Z.ltb_spec a b)
  | |- context [?a =? ?b] => destruct (Z.eqb_spec a b)
  end.

Lemma key_in_range_int (r : Range) (z : Z) :
  int_range r = true -> key_in_range r (VInt z) = Ok (lo_ok (rleft r) z && hi_ok (rright r) z).
Proof.
  destruct r as [a b]. unfold int_range. simpl.
  destruct a as [[va ia] |], b as [[vb ib] |]; try destruct va; try destruct vb; try discriminate;
    intros _; try destruct ia; try destruct ib; cbn; zdec; try reflexivity; lia.
Qed.

Lemma combine_left (a b : option Bound) :
  int_bound a = true -> int_bound b = true ->
  exists c, _combine_bounds a b py_gt = Ok c /\ int_bound c = true
    /\ forall z, lo_ok a z = true -> lo_ok b z = true -> lo_ok c z = true.
Proof.
  destruct a as [[va ia] |], b as [[vb ib] |]; try destruct va; try destruct vb; try discriminate;
    intros _ _; cbn; try (eexists; split; [reflexivity | split; [reflexivity | tauto]]).
  unfold Bound_eq; simpl.
  destruct ia, ib; simpl; zdec; simpl;
    (eexists; split; [reflexivity | split; [reflexivity |]]); intros q; simpl; zdec; lia.
Qed.

Lemma combine_right (a b : option Bound) :
  int_bound a = true -> int_bound b = true ->
  exists c, _combine_bounds a b py_lt = Ok c /\ int_bound c = true
    /\ forall z, hi_ok a z = true -> hi_ok b z = true -> hi_ok c z = true.
Proof.
  destruct a as [[va ia] |], b as [[vb ib] |]; try destruct va; try destruct vb; try discriminate;
    intros _ _; cbn; try (eexists; split; [reflexivity | split; [reflexivity | tauto]]).
  unfold Bound_eq; simpl.
  destruct ia, ib; simpl; zdec; simpl;
    (eexists; split; [reflexivity | split; [reflexivity |]]); intros q; simpl; zdec; lia.
Qed.

(** [Range.combine] on integer bounds never raises, and never loses a key:
    an integer in both ranges is in the combined range, so when [combine]
    answers [None] (empty) the two ranges have no integer in common. *)
Theorem combine_sound (r1 r2 : Range) :
  int_range r1 = true -> int_range r2 = true ->
  exists res, combine r1 r2 = Ok res
  /\ forall z, key_in_range r1 (VInt z) = Ok true -> key_in_range r2 (VInt z) = Ok true ->
       exists r, res = Some r /\ key_in_range r (VInt z) = Ok true.
Proof.
  intros H1 H2.
  assert (Hin : forall z, key_in_range r1 (VInt z) = Ok true -> key_in_range r2 (VInt z) = Ok true ->
            lo_ok (rleft r1) z && lo_ok (rleft r2) z = true
            /\ hi_ok (rright r1) z && hi_ok (rright r2) z = true).
  { intros z K1 K2. rewrite key_in_range_int in K1, K2 by assumption.
    injection K1 as K1. injection K2 as K2.
    apply andb_true_iff in K1 as [? ?], K2 as [? ?]. rewrite !andb_true_iff. tauto. }
  destruct r1 as [a1 b1], r2 as [a2 b2]. unfold int_range in H1, H2. simpl in *.
  apply andb_true_iff in H1 as [Ha1 Hb1], H2 as [Ha2 Hb2].
  destruct (combine_left a1 a2 Ha1 Ha2) as (c1 & E1 & I1 & S1).
  destruct (combine_right b1 b2 Hb1 Hb2) as (c2 & E2 & I2 & S2).
  assert (Hc : forall z, key_in_range (mkRange a1 b1) (VInt z) = Ok true ->
                key_in_range (mkRange a2 b2) (VInt z) = Ok true ->
                lo_ok c1 z = true /\ hi_ok c2 z = true).
  { intros z K1 K2. destruct (Hin z K1 K2) as [L R].
    apply andb_true_iff in L as [? ?], R as [? ?]. split; [apply S1 | apply S2]; assumption. }
  assert (Hr : forall z, lo_ok c1 z = true -> hi_ok c2 z = true ->
                key_in_range (mkRange c1 c2) (VInt z) = Ok true).
  { intros z L R. rewrite key_in_range_int by (unfold int_range; simpl; rewrite I1, I2; reflexivity).
    simpl. rewrite L, R. reflexivity. }
  unfold combine. simpl. rewrite E1. simpl. rewrite E2. simpl.
  destruct c1 as [[lv li] |], c2 as [[rv ri] |];
    try (eexists; split; [reflexivity |]; intros z K1 K2; destruct (Hc z K1 K2);
         eexists; split; [reflexivity | apply Hr; assumption]).
  destruct lv; try discriminate I1. destruct rv; try discriminate I2.
  destruct li, ri; simpl; zdec; simpl;
    (eexists; split; [reflexivity |]); intros q K1 K2; destruct (Hc q K1 K2) as [L R];
    simpl in L, R; zdec; try lia;
    (eexists; split; [reflexivity | apply Hr; simpl; zdec; try reflexivity; lia]).
Qed.

Lemma combine_sound_witness :
  exists res, combine (mkRange (Some (mkBound (VInt 1) true)) None)
                      (mkRange None (Some (mkBound (VInt 5) false))) = Ok res.
Proof.
  destruct (combine_sound (mkRange (Some (mkBound (VInt 1) true)) None)
              (mkRange None (Some (mkBound (VInt 5) false))) eq_refl eq_refl) as (res & E & _).
  exists res. exact E.
Defined.

(** [RangeIndex.match] on a comparison with a literal other than [None]
    (on either side, the literal-on-the-left case going through
    [INVERSE_COMPARISONS]) gives an [IndexRange] whose key test agrees
    with evaluating the comparison itself, on every key, errors included. *)
Theorem range_match_comparison (ix : Index) (op : binop) (lit_left : bool) (v k : pyval) :
  klass ix = RangeIndexC -> is_comparison op = true -> v <> VNone ->
  exists r, index_match ix op lit_left (Literal v) = Some (IndexRange (number ix) r)
  /\ key_in_range r k
     = (b <- apply_binop op (if lit_left then v else k) (if lit_left then k else v) ;;
        Ok (truthy b)).
Proof.
  intros Hk Hc Hv. unfold index_match. rewrite Hk, Hc.
  eexists; split; [reflexivity |].
  destruct op; try discriminate Hc; destruct lit_left; destruct v; try congruence;
    unfold key_in_range, apply_binop, py_gt, py_ge, bind; simpl;
    repeat match goal with |- context [match ?x with Ok _ => _ | Err _ => _ end] =>
             destruct x; simpl end;
    rewrite ?andb_true_r; reflexivity.
Qed.

Lemma range_match_comparison_witness :
  exists r, index_match (range_index "a"%string) Lt true (Literal (VInt 3))
            = Some (IndexRange (number (range_index "a"%string)) r)
  /\ key_in_range r (VInt 5) = Ok true.
Proof.
  destruct (range_match_comparison (range_index "a"%string) Lt true (VInt 3) (VInt 5)
              eq_refl eq_refl ltac:(discriminate)) as (r & E & K).
  exists r. split; [exact E |]. rewrite K. reflexivity.
Defined.

(** ** Further properties: planner and executor *)

Lemma keys_get (items : Items) (x : Z) :
  List.In x (ls_keys items) -> exists sto, ls_get items x = Ok sto.
Proof.
  rewrite ls_keys_In. intros [Hx [sto Hs]]. exists sto.
  unfold ls_get. rewrite (py_nth_of_nth _ _ _ Hx Hs). reflexivity.
Qed.

Lemma keep_spec (w : Wut) (condition : cond) (objs ks : list Z) :
  (fix keep (l : list Z) : result (list Z) :=
     match l with
     | [] => Ok []
     | x :: rest =>
         sto <- ls_get (store w) x ;;
         m <- wut_match (attrs w) condition sto ;;
         ks <- keep rest ;;
         Ok (if truthy m then x :: ks else ks)
     end) objs = Ok ks ->
  (forall x, List.In x objs -> exists sto v, ls_get (store w) x = Ok sto
                                 /\ wut_match (attrs w) condition sto = Ok v)
  /\ forall x, List.In x ks <-> List.In x objs /\ exists sto v, ls_get (store w) x = Ok sto
                               /\ wut_match (attrs w) condition sto = Ok v /\ truthy v = true.
Proof.
  revert ks. induction objs as [| y rest IH]; intros ks H; simpl in H.
  - injection H as <-. split; intros x; simpl; tauto.
  - destruct (ls_get (store w) y) as [sto | e] eqn:Hg; simpl in H; [| discriminate].
    destruct (wut_match (attrs w) condition sto) as [m | e] eqn:Hm; simpl in H; [| discriminate].
    match type of H with bind (?K rest) _ = _ => destruct (K rest) as [ks' | e] eqn:Hk end;
      simpl in H; [| discriminate].
    injection H as <-. destruct (IH ks' eq_refl) as [T M]. split.
    + intros x [<- | Hx]; [exists sto, m; split; assumption | exact (T x Hx)].
    + intros x. destruct (truthy m) eqn:Ht; simpl; rewrite M.
      * split.
        -- intros [<- | [Hx R]]; [split; [left; reflexivity | exists sto, m; tauto]
                                 | split; [right; exact Hx | exact R]].
        -- intros [[<- | Hx] R]; [left; reflexivity | right; split; [exact Hx | exact R]].
      * split.
        -- intros [Hx R]. split; [right; exact Hx | exact R].
        -- intros [[<- | Hx] R]; [| split; [exact Hx | exact R]].
           exfalso. destruct R as (sto' & v & Hg' & Hm' & Hv). rewrite Hg in Hg'.
           injection Hg' as <-. rewrite Hm in Hm'. injection Hm' as <-. congruence.
Qed.

Lemma exec_filter_nonlit (w : Wut) (objs : list Z) (condition : cond) :
  (forall v, condition <> Literal v) ->
  _execute_filter w objs condition
  = (ks <- (fix keep (l : list Z) : result (list Z) :=
              match l with
              | [] => Ok []
              | x :: rest =>
                  sto <- ls_get (store w) x ;;
                  m <- wut_match (attrs w) condition sto ;;
                  ks <- keep rest ;;
                  Ok (if truthy m then x :: ks else ks)
              end) objs ;; Ok (iset_of ks)).
Proof.
  destruct condition as [v | | | |]; intros H; [exfalso; exact (H v eq_refl) | reflexivity ..].
Qed.

Lemma scan_filter_sound (w : Wut) (c : cond) (ids : list Z) :
  execute w (ScanFilter c) = Ok ids ->
  (forall x, List.In x (ls_keys (store w)) -> exists sto v, ls_get (store w) x = Ok sto
                                              /\ wut_match (attrs w) c sto = Ok v)
  /\ forall x, List.In x ids <-> selected w c x.
Proof.
  unfold selected. intros H.
  assert (Hl : (exists v, c = Literal v) \/ forall v, c <> Literal v)
    by (destruct c; [left; eauto | right; intros v'; discriminate ..]).
  destruct Hl as [[v ->] | Hl].
  - simpl in H. split.
    + intros x Hx. destruct (keys_get _ _ Hx) as [sto Hs]. exists sto, v. split; [exact Hs | reflexivity].
    + intros x. destruct (truthy v) eqn:Ht; simpl in H; injection H as <-.
      * rewrite iset_of_In. split; [| tauto]. intros Hx. split; [exact Hx |].
        destruct (keys_get _ _ Hx) as [sto Hs]. exists sto, v. tauto.
      * simpl. split; [tauto |]. intros [_ (sto & v' & _ & Hm & Hv)]. simpl in Hm.
        injection Hm as <-. congruence.
  - simpl execute in H. rewrite (exec_filter_nonlit _ _ _ Hl) in H.
    match type of H with
    | bind (?K ?objs) _ = _ =>
        destruct (K objs) as [ks | e] eqn:Hk; simpl in H; [| discriminate]
    end.
    injection H as <-. destruct (keep_spec _ _ _ _ Hk) as [T M].
    split; [exact T |]. intros x. rewrite iset_of_In, M. reflexivity.
Qed.

Lemma match_and (attrs : ComputedAttrs) (l r : cond) (sto : ObjectStorage) (v : pyval) :
  wut_match attrs (BinOp And l r) sto = Ok v ->
  exists a b, wut_match attrs l sto = Ok a /\ wut_match attrs r sto = Ok b
              /\ truthy v = truthy a && truthy b.
Proof.
  simpl. destruct (wut_match attrs l sto) as [a | e]; simpl; [| discriminate].
  destruct (wut_match attrs r sto) as [b | e]; simpl; [| discriminate].
  intros H. injection H as <-. exists a, b. split; [reflexivity | split; [reflexivity |]].
  destruct (truthy a) eqn:Ha; simpl; [reflexivity | exact Ha].
Qed.

Lemma match_or (attrs : ComputedAttrs) (l r : cond) (sto : ObjectStorage) (v : pyval) :
  wut_match attrs (BinOp Or l r) sto = Ok v ->
  exists a b, wut_match attrs l sto = Ok a /\ wut_match attrs r sto = Ok b
              /\ truthy v = truthy a || truthy b.
Proof.
  simpl. destruct (wut_match attrs l sto) as [a | e]; simpl; [| discriminate].
  destruct (wut_match attrs r sto) as [b | e]; simpl; [| discriminate].
  intros H. injection H as <-. exists a, b. split; [reflexivity | split; [reflexivity |]].
  destruct (truthy a) eqn:Ha; simpl; [exact Ha | reflexivity].
Qed.

Lemma match_binop_ok (attrs : ComputedAttrs) (op : binop) (l r : cond) (sto : ObjectStorage) (a b : pyval) :
  wut_match attrs l sto = Ok a -> wut_match attrs r sto = Ok b ->
  wut_match attrs (BinOp op l r) sto = apply_binop op a b.
Proof. intros Hl Hr. simpl. rewrite Hl, Hr. reflexivity. Qed.

Lemma ls_get_fun (items : Items) (x : Z) (s1 s2 : ObjectStorage) :
  ls_get items x = Ok s1 -> ls_get items x = Ok s2 -> s1 = s2.
Proof. intros H1 H2. rewrite H1 in H2. injection H2 as <-. reflexivity. Qed.

Lemma in_existsb_eqb (x : Z) (s : list Z) : existsb (Z.eqb x) s = true <-> List.In x s.
Proof.
  rewrite existsb_exists. split.
  - intros [y [Hy E]]. apply Z.eqb_eq in E. subst y. exact Hy.
  - intros Hx. exists x. split; [exact Hx | apply Z.eqb_refl].
Qed.

(** [Planner.plan] followed by [Wut.execute] computes what [Wut.match]
    selects: when executing the plan of a condition raises nothing, the
    condition was evaluated without error on every stored box, and the
    result holds exactly the row-ids in use whose box matches it
    ([And] becomes [Intersect], [Or] becomes [Union]). *)
Theorem plan_of_sound (w : Wut) (c : cond) (ids : list Z) :
  execute w (plan_of c) = Ok ids ->
  (forall x, List.In x (ls_keys (store w)) -> exists sto v, ls_get (store w) x = Ok sto
                                              /\ wut_match (attrs w) c sto = Ok v)
  /\ forall x, List.In x ids <-> selected w c x.
Proof.
  revert ids. induction c as [v | n | items | op l IHl r IHr | op c IH]; intros ids H;
    try exact (scan_filter_sound w _ ids H).
  destruct op; try exact (scan_filter_sound w _ ids H); simpl in H.
  - destruct (execute w (plan_of l)) as [s1 | e] eqn:E1; simpl in H; [| discriminate].
    destruct (execute w (plan_of r)) as [s2 | e] eqn:E2; simpl in H; [| discriminate].
    injection H as <-.
    destruct (IHl s1 eq_refl) as [Tl Ml], (IHr s2 eq_refl) as [Tr Mr].
    split.
    + intros x Hx. destruct (Tl x Hx) as (sto & a & Hg & Ha), (Tr x Hx) as (sto' & b & Hg' & Hb).
      rewrite <- (ls_get_fun _ _ _ _ Hg Hg') in Hb.
      exists sto. eexists. split; [exact Hg |]. rewrite (match_binop_ok _ _ _ _ _ _ _ Ha Hb). reflexivity.
    + intros x. unfold int64set_intersection. rewrite filter_In. simpl.
      rewrite andb_true_r, in_existsb_eqb, Ml, Mr. unfold selected. split.
      * intros [[Hx (sto & a & Hg & Ha & Ta)] [_ (sto' & b & Hg' & Hb & Tb)]].
        rewrite <- (ls_get_fun _ _ _ _ Hg Hg') in Hb.
        split; [exact Hx |]. exists sto. eexists.
        rewrite (match_binop_ok _ _ _ _ _ _ _ Ha Hb). simpl. rewrite Ta.
        split; [exact Hg | split; [reflexivity | exact Tb]].
      * intros [Hx (sto & v & Hg & Hm & Tv)].
        destruct (match_and _ _ _ _ _ Hm) as (a & b & Ha & Hb & E).
        rewrite Tv in E. symmetry in E. apply andb_true_iff in E as [Ta Tb].
        split; split; [exact Hx | exists sto, a; tauto | exact Hx | exists sto, b; tauto].
  - destruct (execute w (plan_of l)) as [s1 | e] eqn:E1; simpl in H; [| discriminate].
    destruct (execute w (plan_of r)) as [s2 | e] eqn:E2; simpl in H; [| discriminate].
    injection H as <-.
    destruct (IHl s1 eq_refl) as [Tl Ml], (IHr s2 eq_refl) as [Tr Mr].
    split.
    + intros x Hx. destruct (Tl x Hx) as (sto & a & Hg & Ha), (Tr x Hx) as (sto' & b & Hg' & Hb).
      rewrite <- (ls_get_fun _ _ _ _ Hg Hg') in Hb.
      exists sto. eexists. split; [exact Hg |]. rewrite (match_binop_ok _ _ _ _ _ _ _ Ha Hb). reflexivity.
    + intros x. unfold int64set_union. simpl. rewrite fold_iset_add_In, Ml, Mr. unfold selected. split.
      * intros [[Hx (sto & a & Hg & Ha & Ta)] | [Hx (sto & b & Hg & Hb & Tb)]].
        -- destruct (Tr x Hx) as (sto' & b & Hg' & Hb).
           rewrite <- (ls_get_fun _ _ _ _ Hg Hg') in Hb.
           split; [exact Hx |]. exists sto. eexists.
           rewrite (match_binop_ok _ _ _ _ _ _ _ Ha Hb). simpl. rewrite Ta.
           split; [exact Hg | split; [reflexivity | exact Ta]].
        -- destruct (Tl x Hx) as (sto' & a & Hg' & Ha).
           rewrite <- (ls_get_fun _ _ _ _ Hg Hg') in Ha.
           split; [exact Hx |]. exists sto. eexists.
           rewrite (match_binop_ok _ _ _ _ _ _ _ Ha Hb). simpl.
           split; [exact Hg | split; [reflexivity |]].
           destruct (truthy a) eqn:Ta; [exact Ta | exact Tb].
      * intros [Hx (sto & v & Hg & Hm & Tv)].
        destruct (match_or _ _ _ _ _ Hm) as (a & b & Ha & Hb & E).
        rewrite Tv in E. symmetry in E. apply orb_true_iff in E as [Ta | Tb].
        -- left. split; [exact Hx | exists sto, a; tauto].
        -- right. split; [exact Hx | exists sto, b; tauto].
Qed.

Lemma plan_of_sound_witness :
  execute w_a0 (plan_of (BinOp Or (BinOp Eq (Attribute "a"%string) (Literal (VInt 0)))
                                  (Literal (VBool false)))) = Ok [0]
  /\ selected w_a0 (BinOp Or (BinOp Eq (Attribute "a"%string) (Literal (VInt 0)))
                              (Literal (VBool false))) 0.
Proof.
  assert (H : execute w_a0 (plan_of (BinOp Or (BinOp Eq (Attribute "a"%string) (Literal (VInt 0)))
                                           (Literal (VBool false)))) = Ok [0])
    by (vm_compute; reflexivity).
  split; [exact H |].
  apply (proj2 (plan_of_sound _ _ _ H)). left. reflexivity.
Defined.

(** ** Further properties: index buckets *)

Lemma tree_set_In (t : list (pyval * eset)) (k0 k : pyval) (b0 b : eset) :
  List.In (k, b) (tree_set t k0 b0) -> List.In (k, b) t \/ b = b0.
Proof.
  induction t as [| [k' b'] rest IH]; simpl.
  - intros [E | []]. injection E as _ <-. right. reflexivity.
  - destruct (py_eq k0 k').
    + intros [E | H]; [injection E as _ <-; right; reflexivity | left; right; exact H].
    + intros [E | H]; [left; left; exact E | destruct (IH H); [left; right |]; tauto].
Qed.

Lemma tree_del_In (t t' : list (pyval * eset)) (k0 k : pyval) (b : eset) :
  tree_del t k0 = Ok t' -> List.In (k, b) t' -> List.In (k, b) t.
Proof.
  revert t'. induction t as [| [k' b'] rest IH]; intros t'; simpl; [discriminate |].
  destruct (py_eq k0 k').
  - intros H. injection H as <-. intros Hin. right. exact Hin.
  - destruct (tree_del rest k0) as [r | e] eqn:Hd; simpl; [| discriminate].
    intros H. injection H as <-. intros [E | Hin]; [left; exact E | right; exact (IH r eq_refl Hin)].
Qed.

Lemma tree_get_In (t : list (pyval * eset)) (k : pyval) :
  tree_get t k = ENone \/ exists k', List.In (k', tree_get t k) t.
Proof.
  induction t as [| [k' b'] rest IH]; simpl; [left; reflexivity |].
  destruct (py_eq k k'); [right; exists k'; left; reflexivity |].
  destruct IH as [E | [k'' H]]; [left; exact E | right; exists k''; right; exact H].
Qed.

Lemma bucket_shape (ix : Index) (v : pyval) :
  buckets_single ix -> tree_get (tree ix) v = ENone \/ exists r, tree_get (tree ix) v = EInt r.
Proof.
  intros Hs. destruct (tree_get_In (tree ix) v) as [E | [k' H]]; [left; exact E |].
  right. exact (Hs _ _ H).
Qed.

Lemma add_tree_single (ix : Index) (pk0 : Z) (v : pyval) :
  buckets_single ix ->
  buckets_single (fst (let dest_set := tree_get (tree ix) v in
    let present := match dest_set with ENone => false | _ => true end in
    if present && unique (params ix) then (ix, Err unique_violation)
    else match so_add dest_set pk0 with
         | Ok dest_set2 => (with_tree ix (tree_set (tree ix) v dest_set2), Ok tt)
         | Err e => (ix, Err e)
         end)).
Proof.
  intros Hs. cbv zeta.
  destruct (bucket_shape ix v Hs) as [E | [r E]]; rewrite E; simpl.
  - intros k b Hin. apply tree_set_In in Hin as [Hin | ->]; [exact (Hs _ _ Hin) | eauto].
  - destruct (unique (params ix)); exact Hs.
Qed.

Lemma add_key_single (ix : Index) (pk0 : Z) (v : pyval) :
  buckets_single ix -> buckets_single (fst (add_key ix pk0 v)).
Proof.
  intros Hs. unfold add_key.
  destruct v; try (apply add_tree_single; exact Hs).
  destruct (none_set ix); exact Hs.
Qed.

Lemma discard_key_single (ix : Index) (pk0 : Z) (v : pyval) :
  buckets_single ix -> buckets_single (fst (discard_key ix pk0 v)).
Proof.
  intros Hs. unfold discard_key.
  destruct v; [destruct (none_set ix); exact Hs | ..];
  match goal with |- context [tree_get (tree ix) ?w] =>
    destruct (bucket_shape ix w Hs) as [E | [r E]]; rewrite E; simpl; exact Hs end.
Qed.

Lemma for_keys_preserve (P : Index -> Prop) (step : Index -> Z -> pyval -> Index * result unit)
    (ix : Index) (pk0 : Z) (vs : list pyval) :
  (forall ix' v, P ix' -> P (fst (step ix' pk0 v))) -> P ix -> P (fst (for_keys step ix pk0 vs)).
Proof.
  intros Hstep. revert ix. induction vs as [| v rest IH]; intros ix H; simpl; [exact H |].
  pose proof (Hstep ix v H) as H1.
  destruct (step ix pk0 v) as [ix' [u | e]]; simpl in *; [exact (IH ix' H1) | exact H1].
Qed.

Lemma index_add_single (attrs : ComputedAttrs) (ix : Index) (o : ObjectStorage) :
  buckets_single ix -> buckets_single (fst (index_add attrs ix o)).
Proof.
  intros Hs. unfold index_add. destruct (extract_val attrs o ix false) as [vs | e]; [| exact Hs].
  pose proof (for_keys_preserve buckets_single add_key ix (pk o) vs
                (fun ix' v H => add_key_single ix' (pk o) v H) Hs) as H.
  destruct (for_keys add_key ix (pk o) vs) as [ix' [u | e]]; [| exact H].
  destruct (store_val ix vs); exact H.
Qed.

Lemma index_remove_single (attrs : ComputedAttrs) (ix : Index) (o : ObjectStorage) (v : pyval) :
  buckets_single ix -> buckets_single (fst (index_remove attrs ix o v)).
Proof.
  intros Hs. unfold index_remove. cbv zeta.
  destruct (match v with
            | VNone => extract_val attrs o ix true
            | _ => load_val ix v end) as [vs | e]; [| exact Hs].
  exact (for_keys_preserve buckets_single discard_key ix (pk o) vs
           (fun ix' v H => discard_key_single ix' (pk o) v H) Hs).
Qed.

Lemma index_refresh_single (attrs : ComputedAttrs) (ix : Index) (o : ObjectStorage)
    (old_v new_v : pyval) :
  buckets_single ix -> buckets_single (fst (index_refresh attrs ix o old_v new_v)).
Proof.
  intros Hs. unfold index_refresh. destruct (negb (memorize (params ix))); [exact Hs |].
  cbv zeta.
  destruct (old_l <- load_val ix old_v ;;
            new_l <- match new_v with
                     | VNone => extract_val attrs o ix false
                     | _ => load_val ix new_v
                     end ;;
            Ok (old_l, new_l)) as [[ol nl] | e]; [| exact Hs].
  set (rs := py_set_minus (py_set_of ol) (py_set_of nl)).
  set (ads := py_set_minus (py_set_of nl) (py_set_of ol)).
  pose proof (for_keys_preserve buckets_single discard_key ix (pk o) rs
                (fun ix' v H => discard_key_single ix' (pk o) v H) Hs) as H1.
  destruct (for_keys discard_key ix (pk o) rs) as [ix1 [u | e]]; [| exact H1].
  pose proof (for_keys_preserve buckets_single add_key ix1 (pk o) ads
                (fun ix' v H => add_key_single ix' (pk o) v H) H1) as H2.
  destruct (for_keys add_key ix1 (pk o) ads) as [ix2 [u' | e]]; [| exact H2].
  destruct (store_val ix nl); exact H2.
Qed.

Lemma index_clear_single (ix : Index) : buckets_single (index_clear ix).
Proof. unfold index_clear. destruct (index_hasattr _ _); intros k' b []. Qed.

(** Every bucket of an index (of any of the four classes) holds at most
    one row-id, as a raw [int]: [set_ops.add] only succeeds on an empty bucket (a
    second row-id under one key raises), so a new index has the property
    and [add], [remove], [refresh] and [clear] keep it, whether they
    return normally or raise. *)
Theorem index_buckets_single (k : index_class) (p : IndexParams) (attrs : ComputedAttrs)
    (ix : Index) (o : ObjectStorage) (v old_v new_v : pyval) :
  buckets_single (new_index k p)
  /\ (buckets_single ix ->
      buckets_single (fst (index_add attrs ix o))
      /\ buckets_single (fst (index_remove attrs ix o v))
      /\ buckets_single (fst (index_refresh attrs ix o old_v new_v))
      /\ buckets_single (index_clear ix)).
Proof.
  split; [intros k' b []; fail |]. intros Hs.
  split; [apply index_add_single; exact Hs |].
  split; [apply index_remove_single; exact Hs |].
  split; [apply index_refresh_single; exact Hs | apply index_clear_single].
Qed.

Lemma ix_a0_single : buckets_single ix_a0.
Proof.
  intros k b Hin. vm_compute in Hin. destruct Hin as [E | []].
  injection E as _ <-. eexists. reflexivity.
Qed.

Lemma index_buckets_single_witness :
  buckets_single (fst (index_add [] ix_a0 (mkSto (mkObj 101 [("a"%string, VInt 1)]) 1 None))).
Proof.
  apply (index_buckets_single HashIndexC (mkParams "a"%string false false true) []
           ix_a0 (mkSto (mkObj 101 [("a"%string, VInt 1)]) 1 None) VNone VNone VNone).
  exact ix_a0_single.
Defined.

Lemma range_values_In (r : Range) (t : list (pyval * eset)) (vals : list eset) :
  range_values r t = Ok vals -> forall b, List.In b vals -> exists k, List.In (k, b) t.
Proof.
  revert vals. induction t as [| [k b'] rest IH]; intros vals; simpl.
  - intros H. injection H as <-. intros b [].
  - destruct (key_in_range r k) as [c | e]; simpl; [| discriminate].
    destruct (range_values r rest) as [bs | e]; simpl; [| discriminate].
    intros H. injection H as <-. intros b Hb.
    assert (Hr : List.In b bs -> exists k0, List.In (k0, b) ((k, b') :: rest))
      by (intros Hb'; destruct (IH bs eq_refl b Hb') as [k0 Hk]; exists k0; right; exact Hk).
    destruct c; [destruct Hb as [<- | Hb]; [exists k; left; reflexivity | exact (Hr Hb)] | exact (Hr Hb)].
Qed.

Lemma fold_iterate_err (vals : list eset) (e : pyexc) :
  fold_left (fun acc b => s <- acc ;; xs <- so_iterate b ;; Ok (fold_left iset_add xs s))
    vals (Err e) = Err e.
Proof. induction vals as [| b rest IH]; simpl; [reflexivity | exact IH]. Qed.

Lemma discard_key_absent (ix : Index) (pk0 : Z) (u : pyval) :
  u <> VNone -> tree_get (tree ix) u = ENone -> discard_key ix pk0 u = (ix, Ok tt).
Proof. intros Hu E. unfold discard_key. destruct u; [contradiction | ..]; rewrite E; reflexivity. Qed.

Lemma discard_key_present (ix : Index) (pk0 : Z) (v : pyval) :
  buckets_single ix -> v <> VNone -> tree_get (tree ix) v <> ENone ->
  discard_key ix pk0 v = (ix, Err AssertionError).
Proof.
  intros Hs Hv Hne. destruct (bucket_shape ix v Hs) as [E | [r E]]; [contradiction |].
  unfold discard_key. destruct v; [contradiction | ..]; rewrite E; reflexivity.
Qed.

(** On an index whose buckets are raw [int]s, [lookup] of a non-[None]
    value never returns a row-id: it gives the empty set when the key is
    absent and fails [to_set]'s assertion when it is present; and [remove]
    of an object raises [AssertionError] from [set_ops.discard] at its
    first key that is present, leaving the index as it was, when the keys
    before it are absent and not [None]. For a hash or range index the
    keys of [remove(obj, ctx, v)] are [[v]]; for an inverted index they are
    the items of the stored list [v]. *)
Theorem index_lookup_remove_present (attrs : ComputedAttrs) (ix : Index) (o : ObjectStorage)
    (v : pyval) :
  buckets_single ix -> v <> VNone ->
  (tree_get (tree ix) v = ENone -> index_lookup ix v = Ok [])
  /\ (tree_get (tree ix) v <> ENone ->
      index_lookup ix v = Err AssertionError
      /\ (klass ix = HashIndexC \/ klass ix = RangeIndexC ->
          index_remove attrs ix o v = (ix, Err AssertionError)))
  /\ (forall val pre rest, val <> VNone -> load_val ix val = Ok (pre ++ v :: rest) ->
      Forall (fun u => u <> VNone /\ tree_get (tree ix) u = ENone) pre ->
      tree_get (tree ix) v <> ENone ->
      index_remove attrs ix o val = (ix, Err AssertionError)).
Proof.
  intros Hs Hv.
  assert (Hrem : forall val pre rest, val <> VNone -> load_val ix val = Ok (pre ++ v :: rest) ->
      Forall (fun u => u <> VNone /\ tree_get (tree ix) u = ENone) pre ->
      tree_get (tree ix) v <> ENone ->
      index_remove attrs ix o val = (ix, Err AssertionError)).
  { intros val pre rest Hval Hl HF Hne. unfold index_remove.
    replace (match val with VNone => extract_val attrs o ix true | _ => load_val ix val end)
      with (load_val ix val) by (destruct val; [contradiction | ..]; reflexivity).
    rewrite Hl. clear Hl. induction HF as [| u pre' [Hu Ha] HF IH]; simpl.
    - rewrite (discard_key_present ix (pk o) v Hs Hv Hne). reflexivity.
    - rewrite (discard_key_absent ix (pk o) u Hu Ha). exact IH. }
  split; [| split; [| exact Hrem]].
  - intros E. unfold index_lookup. destruct v; [contradiction | ..]; rewrite E; reflexivity.
  - intros Hne. destruct (bucket_shape ix v Hs) as [E | [r E]]; [contradiction |].
    split.
    + unfold index_lookup. destruct v; [contradiction | ..]; rewrite E; reflexivity.
    + intros Hk. apply (Hrem v [] []); [exact Hv | | constructor | exact Hne].
      unfold load_val. destruct Hk as [-> | ->]; reflexivity.
Qed.

Lemma index_lookup_remove_present_witness :
  index_lookup ix_a0 (VInt 0) = Err AssertionError
  /\ index_remove [] ix_a0 (mkSto (mkObj 100 [("a"%string, VInt 0)]) 0 None) (VInt 0)
     = (ix_a0, Err AssertionError).
Proof.
  assert (Hv : VInt 0 <> VNone) by discriminate.
  assert (Hne : tree_get (tree ix_a0) (VInt 0) <> ENone) by (vm_compute; discriminate).
  destruct (proj1 (proj2 (index_lookup_remove_present [] ix_a0
              (mkSto (mkObj 100 [("a"%string, VInt 0)]) 0 None) (VInt 0) ix_a0_single Hv)) Hne)
    as [HC HR].
  exact (conj HC (HR (or_intror eq_refl))).
Defined.

Lemma range_single_nil (ix : Index) (r : Range) (ids : list Z) :
  buckets_single ix -> index_range ix r = Ok ids -> ids = [].
Proof.
  intros Hs. unfold index_range.
  destruct (range_values r (tree ix)) as [vals | e] eqn:Hv; simpl; [| discriminate].
  pose proof (range_values_In r (tree ix) vals Hv) as Hin.
  destruct vals as [| b rest]; simpl.
  - intros H. injection H as <-. reflexivity.
  - destruct (Hin b (or_introl eq_refl)) as [k Hk].
    destruct (Hs k b Hk) as [z ->]. simpl. rewrite fold_iterate_err. discriminate.
Qed.

(** On an index whose buckets are raw [int]s, [RangeIndex.range] never
    returns a row-id: with no bucket in range it returns the empty set,
    otherwise [set_ops.iterate] of the first bucket raises ([yield from]
    on an [int]). *)
Theorem index_range_empty (ix : Index) (r : Range) (ids : list Z) :
  buckets_single ix -> index_range ix r = Ok ids -> ids = [].
Proof. exact (range_single_nil ix r ids). Qed.

Lemma index_range_empty_witness :
  index_range ix_a0 (mkRange None None) = Err TypeError
  /\ index_range ix_a0 (mkRange (Some (mkBound (VInt 5) true)) None) = Ok []
  /\ @nil Z = [].
Proof.
  split; [vm_compute; reflexivity |]. split; [vm_compute; reflexivity |].
  apply (index_range_empty ix_a0 (mkRange (Some (mkBound (VInt 5) true)) None) []
           ix_a0_single).
  vm_compute; reflexivity.
Defined.

Lemma add_to_indexes_single (attrs : ComputedAttrs) (ixs : list Index) (sto : ObjectStorage) :
  Forall buckets_single ixs -> Forall buckets_single (fst (add_to_indexes attrs ixs sto)).
Proof.
  induction ixs as [| ix rest IH]; intros Hf; simpl; [constructor |].
  inversion Hf as [| ? ? Hix Hrest]; subst.
  pose proof (index_add_single attrs ix sto Hix) as H1.
  destruct (index_add attrs ix sto) as [ix' [val | e]]; simpl in *.
  - pose proof (IH Hrest) as H2.
    destruct (add_to_indexes attrs rest sto) as [rest' r]; simpl in *. constructor; assumption.
  - constructor; assumption.
Qed.

Lemma remove_from_indexes_single (attrs : ComputedAttrs) (ixs : list Index)
    (sto : ObjectStorage) (im : list pyval) :
  Forall buckets_single ixs -> Forall buckets_single (fst (remove_from_indexes attrs ixs sto im)).
Proof.
  revert im. induction ixs as [| ix rest IH]; intros im Hf; simpl; [constructor |].
  inversion Hf as [| ? ? Hix Hrest]; subst.
  destruct (if memorize (params ix) then _ else _) as [step im'] eqn:Hs.
  assert (H1 : buckets_single (fst step)).
  { destruct (memorize (params ix)).
    - destruct im as [| mem im0]; injection Hs as <- <-; [exact Hix |].
      apply index_remove_single; exact Hix.
    - injection Hs as <- <-. apply index_remove_single; exact Hix. }
  destruct step as [ix' [u | e]]; simpl in *.
  - pose proof (IH im' Hrest) as H2.
    destruct (remove_from_indexes attrs rest sto im') as [rest' r]; simpl in *.
    constructor; assumption.
  - constructor; assumption.
Qed.

Lemma refresh_indexes_single (attrs : ComputedAttrs) (ixs : list Index)
    (sto : ObjectStorage) (old_im : list pyval) :
  Forall buckets_single ixs -> Forall buckets_single (fst (refresh_indexes attrs ixs sto old_im)).
Proof.
  revert old_im. induction ixs as [| ix rest IH]; intros old_im Hf; simpl; [constructor |].
  inversion Hf as [| ? ? Hix Hrest]; subst.
  destruct (negb (memorize (params ix))).
  - pose proof (IH old_im Hrest) as H2.
    destruct (refresh_indexes attrs rest sto old_im) as [rest' r]; simpl in *.
    constructor; assumption.
  - destruct old_im as [| old_v old_im']; [exact Hf |].
    destruct (index_make_val attrs ix sto) as [new_v | e]; [| exact Hf].
    assert (H1 : buckets_single (fst (if negb (py_eq old_v new_v)
                                      then index_refresh attrs ix sto old_v new_v
                                      else (ix, Ok new_v))))
      by (destruct (negb (py_eq old_v new_v)); [apply index_refresh_single |]; exact Hix).
    destruct (if negb (py_eq old_v new_v) then _ else _) as [ix' [u | e]]; simpl in *.
    + pose proof (IH old_im' Hrest) as H2.
      destruct (refresh_indexes attrs rest sto old_im') as [rest' r]; simpl in *.
      constructor; assumption.
    + constructor; assumption.
Qed.

Lemma wut_add_single (w : Wut) (o : pyobj) :
  Forall buckets_single (indexes w) -> Forall buckets_single (indexes (fst (wut_add w o))).
Proof.
  intros Hf. unfold wut_add.
  destruct (id_get (id_to_rowid w) (id_from_obj o)); [exact Hf |].
  destruct (ls_set (store w) (_rowid_counter w) o) as [[items sto] | e]; [| exact Hf].
  pose proof (add_to_indexes_single (attrs w) (indexes w) sto Hf) as H.
  destruct (add_to_indexes (attrs w) (indexes w) sto) as [ixs [im | e]]; simpl in *; [| exact H].
  destruct (py_set_nth items (pk sto) _); exact H.
Qed.

Lemma wut_update_single (w : Wut) (objs : list pyobj) :
  Forall buckets_single (indexes w) -> Forall buckets_single (indexes (fst (wut_update w objs))).
Proof.
  revert w. induction objs as [| o rest IH]; intros w Hf; simpl; [exact Hf |].
  pose proof (wut_add_single w o Hf) as H.
  destruct (wut_add w o) as [w' [u | e]]; simpl in *; [exact (IH w' H) | exact H].
Qed.

Lemma setdefault_append_In (d : list (string * list Index)) (ix x : Index) :
  List.In x (flat_map snd (setdefault_append d ix)) -> List.In x (flat_map snd d) \/ x = ix.
Proof.
  induction d as [| [n l] rest IH]; simpl.
  - intros [<- | []]. right. reflexivity.
  - destruct (String.eqb n (name (params ix))); simpl; rewrite !in_app_iff.
    + intros [[H | [<- | []]] | H]; auto.
    + intros [H | H]; [auto | destruct (IH H); auto].
Qed.

Lemma grouped_In (ixs : list Index) (d : list (string * list Index)) (x : Index) :
  List.In x (flat_map snd (fold_left setdefault_append ixs d)) ->
  List.In x (flat_map snd d) \/ List.In x ixs.
Proof.
  revert d. induction ixs as [| ix rest IH]; intros d; simpl; [auto |].
  intros H. destruct (IH _ H) as [H1 | H1]; [| auto].
  destruct (setdefault_append_In d ix x H1); auto.
Qed.

Lemma number_indexes_single (ixs : list Index) (n m : nat) :
  Forall buckets_single ixs -> Forall buckets_single (number_indexes ixs n m).
Proof.
  revert n m. induction ixs as [| ix rest IH]; intros n m Hf; simpl; [constructor |].
  inversion Hf; subst. constructor; [assumption | apply IH; assumption].
Qed.

Lemma wut_new_single (objs : list pyobj) (attrs0 : ComputedAttrs) (ixs : list Index) :
  Forall buckets_single ixs -> Forall buckets_single (indexes (fst (wut_new objs attrs0 ixs))).
Proof.
  intros Hixs. unfold wut_new. apply wut_update_single. simpl. apply number_indexes_single.
  apply Forall_forall. intros x Hx. destruct (grouped_In ixs [] x Hx) as [[] | H].
  exact (proj1 (Forall_forall _ _) Hixs x H).
Qed.

(** In every collection whose indexes start empty (as [HashIndex.__init__]
    makes them), every bucket of every index is a raw [int] row-id, after
    the constructor and after any [add], [discard], [refresh], [update] or
    [clear], including those that raise. *)
Theorem wut_indexes_single (objs : list pyobj) (attrs0 : ComputedAttrs) (ixs : list Index)
    (w : Wut) (o : pyobj) (objs' : list pyobj) :
  Forall buckets_single ixs ->
  Forall buckets_single (indexes (fst (wut_new objs attrs0 ixs)))
  /\ (Forall buckets_single (indexes w) ->
      Forall buckets_single (indexes (fst (wut_add w o)))
      /\ Forall buckets_single (indexes (fst (wut_discard w o)))
      /\ Forall buckets_single (indexes (fst (wut_refresh w o)))
      /\ Forall buckets_single (indexes (fst (wut_update w objs')))
      /\ Forall buckets_single (indexes (wut_clear w))).
Proof.
  intros Hixs. split.
  - apply wut_new_single. exact Hixs.
  - intros Hf. split; [apply wut_add_single; exact Hf |].
    split.
    { unfold wut_discard.
      destruct (id_get (id_to_rowid w) (id_from_obj o)) as [row_id |]; [| exact Hf].
      destruct (ls_get (store w) (id_from_obj o)) as [sto | e]; [| exact Hf].
      destruct (index_mem sto) as [im |]; [| exact Hf].
      pose proof (remove_from_indexes_single (attrs w) (indexes w) sto im Hf) as H.
      destruct (remove_from_indexes (attrs w) (indexes w) sto im) as [ixs' [u | e]];
        simpl in *; [| exact H].
      destruct (ls_delete (store w) row_id); exact H. }
    split.
    { unfold wut_refresh.
      destruct (ls_contains (store w) (id_get (id_to_rowid w) (id_from_obj o))) as [[|] | e];
        try exact Hf.
      destruct (ls_get (store w) (id_from_obj o)) as [sto | e]; [| exact Hf].
      destruct (index_mem sto) as [im |]; [| exact Hf].
      pose proof (refresh_indexes_single (attrs w) (indexes w) sto im Hf) as H.
      destruct (refresh_indexes (attrs w) (indexes w) sto im) as [ixs' [l | e]];
        simpl in *; [| exact H].
      destruct (py_set_nth (store w) (id_from_obj o) _); exact H. }
    split; [apply wut_update_single; exact Hf |].
    unfold wut_clear. simpl. apply Forall_forall. intros x Hx.
    apply in_map_iff in Hx as [ix [<- _]]. apply index_clear_single.
Qed.

Lemma wut_indexes_single_witness :
  Forall buckets_single (indexes (fst (wut_new O_objs [] [range_index "a"%string; range_index "b"%string]))).
Proof.
  refine (proj1 (wut_indexes_single O_objs [] [range_index "a"%string; range_index "b"%string]
                   empty_wut (mkObj 1 []) [] _)).
  repeat constructor; intros k b [].
Defined.

(** In a collection whose index buckets are raw [int]s, executing an
    [IndexLookup] of a non-[None] value or an [IndexRange] never returns a
    row-id: it returns the empty set or raises. *)
Theorem index_plans_empty (w : Wut) (n : nat) (v : pyval) (r : Range) (ids : list Z) :
  Forall buckets_single (indexes w) ->
  (v <> VNone -> execute w (IndexLookup n v) = Ok ids -> ids = [])
  /\ (execute w (IndexRange n r) = Ok ids -> ids = []).
Proof.
  intros Hf. simpl. unfold index_at.
  destruct (nth_error (indexes w) n) as [ix |] eqn:E; simpl; [| split; discriminate].
  assert (Hs : buckets_single ix)
    by exact (proj1 (Forall_forall _ _) Hf ix (nth_error_In _ _ E)).
  split.
  - intros Hv H. destruct (bucket_shape ix v Hs) as [E' | [z E']];
      unfold index_lookup in H; destruct v; try contradiction; rewrite E' in H;
      simpl in H; first [injection H as <-; reflexivity | discriminate].
  - destruct (klass ix); [discriminate | exact (range_single_nil ix r ids Hs) | discriminate ..].
Qed.

(** the collection [O] under range indexes on [a] and [b] *)
Lemma index_plans_empty_witness :
  execute (fst (wut_new O_objs [] [range_index "a"%string; range_index "b"%string]))
    (IndexLookup 0 (VInt 0)) = Err AssertionError
  /\ execute (fst (wut_new O_objs [] [range_index "a"%string; range_index "b"%string]))
       (IndexLookup 0 (VInt 5)) = Ok []
  /\ @nil Z = [].
Proof.
  split; [vm_compute; reflexivity |]. split; [vm_compute; reflexivity |].
  apply (proj1 (index_plans_empty (fst (wut_new O_objs [] [range_index "a"%string; range_index "b"%string]))
                  0 (VInt 5) (mkRange None None) []
                  (wut_new_single O_objs [] [range_index "a"%string; range_index "b"%string]
                     ltac:(repeat constructor; intros k b []))));
  [discriminate | vm_compute; reflexivity].
Defined.

(** ** Further properties: row-id slots and [sort_ids] *)

Lemma py_nth_norm {A} (l : list A) i y :
  py_nth l i = Ok y ->
  0 <= py_index (List.length l) i /\ nth_error l (Z.to_nat (py_index (List.length l) i)) = Some y.
Proof.
  unfold py_nth, py_index. set (j := if i <? 0 then _ else i).
  destruct ((0 <=? j) && (j <? _)) eqn:E; [| discriminate].
  apply andb_true_iff in E as [E _]. apply Z.leb_le in E.
  destruct (nth_error l (Z.to_nat j)); intros H; [injection H as <-; auto | discriminate].
Qed.

Lemma py_set_nth_norm {A} (l l' : list A) i x :
  py_set_nth l i x = Ok l' ->
  forall m, nth_error l' m =
    if Nat.eqb m (Z.to_nat (py_index (List.length l) i)) then Some x else nth_error l m.
Proof.
  intros H. assert (Hj : 0 <= py_index (List.length l) i /\ py_set_nth l (py_index (List.length l) i) x = Ok l').
  { revert H. unfold py_set_nth, py_index. set (j := if i <? 0 then _ else i).
    destruct (0 <=? j) eqn:E0; [| discriminate]. apply Z.leb_le in E0.
    replace (j <? 0) with false by (symmetry; apply Z.ltb_ge; lia).
    replace (0 <=? j) with true by (symmetry; apply Z.leb_le; lia). auto. }
  destruct Hj as [Hj Hs]. exact (proj2 (proj2 (py_set_nth_spec l l' _ x Hj Hs))).
Qed.

Lemma slots_set_none (l l' : Items) i :
  py_set_nth l i None = Ok l' -> slots_pk l -> slots_pk l'.
Proof.
  intros H Hs m sto Hm. rewrite (py_set_nth_norm l l' i None H m) in Hm.
  destruct (Nat.eqb m _); [discriminate | exact (Hs m sto Hm)].
Qed.

Lemma slots_set_same (l l' : Items) i s s' :
  py_nth l i = Ok (Some s) -> py_set_nth l i (Some s') = Ok l' -> pk s' = pk s ->
  slots_pk l -> slots_pk l'.
Proof.
  intros Hn H Hp Hs m sto Hm. apply py_nth_norm in Hn as [_ Hn].
  rewrite (py_set_nth_norm l l' i _ H m) in Hm.
  destruct (Nat.eqb_spec m (Z.to_nat (py_index (List.length l) i))) as [-> | _];
    [injection Hm as <-; rewrite Hp; exact (Hs _ _ Hn) | exact (Hs m sto Hm)].
Qed.

Lemma slots_ls_set (items items' : Items) pk0 o sto :
  0 <= pk0 -> ls_set items pk0 o = Ok (items', sto) -> slots_pk items ->
  slots_pk items' /\ pk sto = pk0.
Proof.
  intros Hp. unfold ls_set.
  destruct (Z.of_nat (List.length items) =? pk0) eqn:E1.
  - apply Z.eqb_eq in E1. intros H Hs; injection H as <- <-. split; [| reflexivity].
    intros m s Hm. destruct (Nat.lt_ge_cases m (List.length items)).
    + rewrite nth_error_app1 in Hm by lia. exact (Hs m s Hm).
    + rewrite nth_error_app2 in Hm by lia.
      destruct (m - List.length items)%nat as [| k] eqn:Ek.
      * injection Hm as <-. simpl. lia.
      * simpl in Hm. rewrite nth_error_nil in Hm. discriminate.
  - set (items1 := if Z.of_nat (List.length items) <? pk0 then items ++ repeat None (Z.to_nat (pk0 - Z.of_nat (List.length items) + 1)) else items).
    intros H Hs.
    assert (H1 : slots_pk items1).
    { intros m s Hm. unfold items1 in Hm. destruct (_ <? pk0); [| exact (Hs m s Hm)].
      destruct (Nat.lt_ge_cases m (List.length items)).
      - rewrite nth_error_app1 in Hm by lia. exact (Hs m s Hm).
      - rewrite nth_error_app2 in Hm by lia.
        apply nth_error_In, repeat_spec in Hm. discriminate. }
    revert H. fold items1.
    destruct (py_nth items1 pk0) as [cur | e]; simpl; [| discriminate].
    destruct cur as [c |]; [discriminate |].
    destruct (py_set_nth items1 pk0 (Some (mkSto o pk0 None))) as [l2 | e] eqn:Hset; simpl; [| discriminate].
    intros H; injection H as <- <-. split; [| reflexivity].
    apply py_set_nth_spec in Hset as (_ & _ & Hset); [| exact Hp].
    intros m s Hm. rewrite Hset in Hm. destruct (Nat.eqb_spec m (Z.to_nat pk0)) as [-> | _].
    + injection Hm as <-. simpl. lia.
    + exact (H1 m s Hm).
Qed.

Lemma slot_inv_add (w : Wut) (o : pyobj) : slot_inv w -> slot_inv (fst (wut_add w o)).
Proof.
  intros [Hc Hs]. unfold wut_add.
  destruct (id_get (id_to_rowid w) (id_from_obj o)); [split; assumption |].
  destruct (ls_set (store w) (_rowid_counter w) o) as [[items sto] | e] eqn:Hset;
    [| split; assumption].
  destruct (slots_ls_set _ _ _ _ _ Hc Hset Hs) as [Hs1 Hp].
  destruct (add_to_indexes (attrs w) (indexes w) sto) as [ixs [im | e]];
    [| split; assumption].
  destruct (py_set_nth items (pk sto) (Some (mkSto (obj sto) (pk sto) (Some im)))) as [items' | e]
    eqn:Hn; [| split; assumption].
  split; simpl; [lia |].
  apply py_set_nth_spec in Hn as (_ & _ & Hn); [| lia].
  intros m s Hm. rewrite Hn in Hm. destruct (Nat.eqb_spec m (Z.to_nat (pk sto))) as [-> | _].
  - injection Hm as <-. simpl. lia.
  - exact (Hs1 m s Hm).
Qed.

Lemma slot_inv_update (w : Wut) (objs : list pyobj) :
  slot_inv w -> slot_inv (fst (wut_update w objs)).
Proof.
  revert w. induction objs as [| o rest IH]; intros w H; simpl; [exact H |].
  pose proof (slot_inv_add w o H) as H1.
  destruct (wut_add w o) as [w' [u | e]]; simpl in *; [exact (IH w' H1) | exact H1].
Qed.

Lemma slot_inv_discard (w : Wut) (o : pyobj) : slot_inv w -> slot_inv (fst (wut_discard w o)).
Proof.
  intros [Hc Hs]. unfold wut_discard.
  destruct (id_get (id_to_rowid w) (id_from_obj o)) as [row_id |]; [| split; assumption].
  destruct (ls_get (store w) (id_from_obj o)) as [sto | e]; [| split; assumption].
  destruct (index_mem sto) as [im |]; [| split; assumption].
  destruct (remove_from_indexes (attrs w) (indexes w) sto im) as [ixs [u | e]];
    [| split; assumption].
  destruct (ls_delete (store w) row_id) as [items | e] eqn:Hd; [| split; assumption].
  split; [exact Hc |]. simpl. unfold ls_delete in Hd.
  destruct (py_nth (store w) row_id) as [[s |] | e]; simpl in Hd; try discriminate.
  exact (slots_set_none _ _ _ Hd Hs).
Qed.

Lemma slot_inv_refresh (w : Wut) (o : pyobj) : slot_inv w -> slot_inv (fst (wut_refresh w o)).
Proof.
  intros [Hc Hs]. unfold wut_refresh.
  destruct (ls_contains _ _) as [[|] | e]; try (split; assumption).
  destruct (ls_get (store w) (id_from_obj o)) as [sto | e] eqn:Hg; [| split; assumption].
  destruct (index_mem sto) as [im |]; [| split; assumption].
  destruct (refresh_indexes (attrs w) (indexes w) sto im) as [ixs [l | e]];
    [| split; assumption].
  destruct (py_set_nth (store w) (id_from_obj o) _) as [items | e] eqn:Hn; [| split; assumption].
  split; [exact Hc |]. simpl. unfold ls_get in Hg.
  destruct (py_nth (store w) (id_from_obj o)) as [[s |] | e] eqn:Hnth; simpl in Hg; try discriminate.
  injection Hg as <-. exact (slots_set_same _ _ _ _ _ Hnth Hn eq_refl Hs).
Qed.

Lemma slot_inv_clear (w : Wut) : slot_inv w -> slot_inv (wut_clear w).
Proof.
  intros [Hc _]. split; [exact Hc |]. intros m s Hm. simpl in Hm. unfold ls_clear in Hm.
  rewrite nth_error_map in Hm. destruct (nth_error (store w) m); discriminate.
Qed.

Lemma slot_inv_new (objs : list pyobj) (attrs0 : ComputedAttrs) (ixs : list Index) :
  slot_inv (fst (wut_new objs attrs0 ixs)).
Proof.
  apply slot_inv_update. split; [simpl; lia |]. intros m s Hm. simpl in Hm.
  rewrite nth_error_nil in Hm. discriminate.
Qed.

(** Row-ids are slots: in every collection, the box stored at slot [i] of
    the [ListStore] has [pk = i], and the row-id counter is non-negative,
    after the constructor and after any [add], [discard], [refresh],
    [update] or [clear], including those that raise. *)
Theorem wut_slots_pk (objs : list pyobj) (attrs0 : ComputedAttrs) (ixs : list Index)
    (w : Wut) (o : pyobj) (objs' : list pyobj) :
  slot_inv (fst (wut_new objs attrs0 ixs))
  /\ (slot_inv w ->
      slot_inv (fst (wut_add w o)) /\ slot_inv (fst (wut_discard w o))
      /\ slot_inv (fst (wut_refresh w o)) /\ slot_inv (fst (wut_update w objs'))
      /\ slot_inv (wut_clear w)).
Proof.
  split; [apply slot_inv_new |]. intros H.
  split; [apply slot_inv_add; exact H |].
  split; [apply slot_inv_discard; exact H |].
  split; [apply slot_inv_refresh; exact H |].
  split; [apply slot_inv_update; exact H | apply slot_inv_clear; exact H].
Qed.

Lemma wut_slots_pk_witness :
  slot_inv (fst (wut_add (fst (wut_new O_objs [] [])) (obj_ab 104 5 5))).
Proof.
  apply (wut_slots_pk O_objs [] [] (fst (wut_new O_objs [] [])) (obj_ab 104 5 5) []).
  apply slot_inv_new.
Defined.

Lemma insert_by_perm {A} (lt : A -> A -> bool) (x : A) (l : list A) :
  Permutation (x :: l) (insert_by lt x l).
Proof.
  induction l as [| y rest IH]; simpl; [reflexivity |].
  destruct (lt x y); [reflexivity |].
  etransitivity; [apply perm_swap | constructor; exact IH].
Qed.

Lemma py_sorted_perm {A} (lt : A -> A -> bool) (l : list A) : Permutation l (py_sorted lt l).
Proof.
  unfold py_sorted. change l with ([] ++ l) at 1. generalize (@nil A) as acc.
  induction l as [| x rest IH]; intros acc; simpl; [rewrite app_nil_r; reflexivity |].
  rewrite <- IH. rewrite <- Permutation_middle. change (x :: acc ++ rest) with ((x :: acc) ++ rest).
  apply Permutation_app_tail. apply insert_by_perm.
Qed.

Section SortedBy.
Variable A : Type.
Variable f : A -> Z.
Variable lt : A -> A -> bool.
Hypothesis lt_spec : forall a b, lt a b = (f a <? f b).

Lemma insert_by_hd (a x : A) (l : list A) :
  HdRel (fun p q => f p <= f q) a l -> f a <= f x ->
  HdRel (fun p q => f p <= f q) a (insert_by lt x l).
Proof.
  intros Hh Hax. destruct l as [| y rest]; simpl; [constructor; exact Hax |].
  destruct (lt x y); constructor; [exact Hax |]. inversion Hh; assumption.
Qed.

Lemma insert_by_sorted (x : A) (l : list A) :
  Sorted (fun p q => f p <= f q) l -> Sorted (fun p q => f p <= f q) (insert_by lt x l).
Proof.
  induction l as [| y rest IH]; intros Hs; simpl; [repeat constructor |].
  destruct (lt x y) eqn:E; rewrite lt_spec in E.
  - apply Z.ltb_lt in E. constructor; [exact Hs | constructor; lia].
  - apply Z.ltb_ge in E. inversion Hs as [| ? ? Hr Hh]; subst.
    constructor; [exact (IH Hr) | apply insert_by_hd; assumption].
Qed.

Lemma py_sorted_sorted (l : list A) : Sorted (fun p q => f p <= f q) (py_sorted lt l).
Proof.
  unfold py_sorted.
  assert (H : forall acc, Sorted (fun p q => f p <= f q) acc ->
                Sorted (fun p q => f p <= f q) (fold_left (fun acc x => insert_by lt x acc) l acc)).
  { induction l as [| x rest IH]; intros acc Ha; simpl; [exact Ha |].
    apply IH. apply insert_by_sorted. exact Ha. }
  apply H. constructor.
Qed.

End SortedBy.

Lemma sorted_map_fst (s : list (Z * ObjectStorage)) :
  Forall (fun p => pk (snd p) = fst p) s ->
  Sorted (fun p q => pk (snd p) <= pk (snd q)) s -> Sorted Z.le (map fst s).
Proof.
  intros Hf Hs. induction Hs as [| a l Hs IH Hh]; simpl; constructor.
  - inversion Hf; subst. apply IH; assumption.
  - destruct Hh as [| b l' Hab]; simpl; constructor.
    inversion Hf as [| ? ? Ha Hf']; subst. inversion Hf'; subst. lia.
Qed.

Lemma sort_keys_spec (w : Wut) (ids : list Z) (keys : list (Z * ObjectStorage)) :
  mapM (fun i => sto <- ls_get (store w) i ;; Ok (i, sto)) ids = Ok keys ->
  map fst keys = ids /\ Forall (fun p => ls_get (store w) (fst p) = Ok (snd p)) keys.
Proof.
  revert keys. induction ids as [| i rest IH]; intros keys; simpl.
  - intros H. injection H as <-. split; constructor.
  - destruct (ls_get (store w) i) as [sto | e] eqn:Hg; simpl; [| discriminate].
    destruct (mapM _ rest) as [ks | e]; simpl; [| discriminate].
    intros H. injection H as <-. destruct (IH ks eq_refl) as [H1 H2].
    split; [simpl; f_equal; exact H1 | constructor; [exact Hg | exact H2]].
Qed.

Lemma sort_keys_exist (w : Wut) (ids : list Z) :
  (forall x, List.In x ids -> exists sto, ls_get (store w) x = Ok sto) ->
  exists keys, mapM (fun i => sto <- ls_get (store w) i ;; Ok (i, sto)) ids = Ok keys.
Proof.
  induction ids as [| i rest IH]; intros H; simpl; [eexists; reflexivity |].
  destruct (H i (or_introl eq_refl)) as [sto ->]. simpl.
  destruct IH as [ks ->]; [intros x Hx; apply H; right; exact Hx |].
  eexists; reflexivity.
Qed.

Lemma ls_get_slot (items : Items) (x : Z) (sto : ObjectStorage) :
  0 <= x -> ls_get items x = Ok sto ->
  nth_error items (Z.to_nat x) = Some (Some sto).
Proof.
  intros Hx. unfold ls_get.
  destruct (py_nth items x) as [[s |] | e] eqn:Hn; simpl; try discriminate.
  intros H. injection H as <-. exact (proj1 (py_nth_ok _ _ _ Hx Hn)).
Qed.

(** [sort_ids] with no ordering returns the given row-ids in ascending
    order (the insertion order of their objects), provided every row-id is
    in the collection; a row-id not in it makes [wut.store[id_]] raise,
    and any non-empty ordering raises [AssertionError]. *)
Theorem sort_ids_default (w : Wut) (ids : list Z) :
  slots_pk (store w) -> (forall x, List.In x ids -> 0 <= x) ->
  (forall oi os, sort_ids w ids (oi :: os) = Err AssertionError)
  /\ (forall l, sort_ids w ids [] = Ok l -> Sorted Z.le l /\ Permutation ids l)
  /\ ((exists l, sort_ids w ids [] = Ok l) <->
      (forall x, List.In x ids -> List.In x (ls_keys (store w)))).
Proof.
  intros Hs Hpos. split; [reflexivity |]. split.
  - intros l. unfold sort_ids.
    destruct (mapM _ ids) as [keys | e] eqn:Hm; simpl; [| discriminate].
    intros H. injection H as <-. destruct (sort_keys_spec w ids keys Hm) as [Hids Hget].
    pose proof (py_sorted_perm (WutSortKey_lt false) keys) as Hp.
    split.
    + apply sorted_map_fst.
      * apply Forall_forall. intros p Hp'. apply (Permutation_in _ (Permutation_sym Hp)) in Hp'.
        pose proof (proj1 (Forall_forall _ _) Hget p Hp') as Hg.
        assert (Hx : 0 <= fst p) by (apply Hpos; rewrite <- Hids; apply in_map; exact Hp').
        pose proof (Hs _ _ (ls_get_slot _ _ _ Hx Hg)) as E. lia.
      * apply (py_sorted_sorted _ (fun p => pk (snd p))).
        intros a b. unfold WutSortKey_lt. apply xorb_false_r.
    + rewrite <- Hids. apply Permutation_map. exact Hp.
  - split.
    + intros [l H] x Hx. unfold sort_ids in H.
      destruct (mapM _ ids) as [keys | e] eqn:Hm; simpl in H; [| discriminate].
      destruct (sort_keys_spec w ids keys Hm) as [Hids Hget].
      rewrite <- Hids in Hx. apply in_map_iff in Hx as [p [<- Hp]].
      pose proof (proj1 (Forall_forall _ _) Hget p Hp) as Hg.
      assert (H0 : 0 <= fst p) by (apply Hpos; rewrite <- Hids; apply in_map; exact Hp).
      apply ls_keys_In. split; [exact H0 |]. exists (snd p). exact (ls_get_slot _ _ _ H0 Hg).
    + intros Hk. unfold sort_ids.
      destruct (sort_keys_exist w ids) as [keys ->]; [intros x Hx; exact (keys_get _ _ (Hk x Hx)) |].
      eexists; reflexivity.
Qed.

(** the collection [O] (row-ids 0 to 3) sorted from a shuffled id list *)
Lemma sort_ids_default_witness :
  sort_ids (fst (wut_new O_objs [] [])) [3; 0; 2; 1] [] = Ok [0; 1; 2; 3]
  /\ Sorted Z.le [0; 1; 2; 3] /\ Permutation [3; 0; 2; 1] [0; 1; 2; 3].
Proof.
  split; [vm_compute; reflexivity |].
  apply (proj1 (proj2 (sort_ids_default (fst (wut_new O_objs [] [])) [3; 0; 2; 1]
                         (proj2 (slot_inv_new O_objs [] []))
                         ltac:(simpl; intros x Hx; repeat destruct Hx as [<- | Hx]; [lia .. | destruct Hx]))));
  vm_compute; reflexivity.
Defined.

(** ** Further properties: [set_ops] on boxes *)

Lemma iset_add_nodup (s : list Z) (x : Z) : NoDup s -> NoDup (iset_add s x).
Proof.
  intros H. unfold iset_add. destruct (existsb (Z.eqb x) s) eqn:E; [exact H |].
  apply NoDup_app; [exact H | repeat constructor; intros [] |].
  intros a Ha [<- | []]. apply in_existsb_eqb in Ha. congruence.
Qed.

Lemma fold_iset_add_nodup (l s : list Z) : NoDup s -> NoDup (fold_left iset_add l s).
Proof.
  revert s. induction l as [| x rest IH]; intros s H; simpl; [exact H |].
  apply IH, iset_add_nodup, H.
Qed.

Lemma iset_of_nodup (l : list Z) : NoDup (iset_of l).
Proof. apply fold_iset_add_nodup. constructor. Qed.

Lemma fold_iset_add_id (l acc : list Z) : NoDup (acc ++ l) -> fold_left iset_add l acc = acc ++ l.
Proof.
  revert acc. induction l as [| x rest IH]; intros acc H; simpl; [rewrite app_nil_r; reflexivity |].
  assert (Hx : ~ List.In x acc)
    by (intros Hin; apply (NoDup_remove_2 acc rest x H); apply in_or_app; left; exact Hin).
  unfold iset_add at 2. destruct (existsb (Z.eqb x) acc) eqn:E;
    [apply in_existsb_eqb in E; contradiction |].
  rewrite IH; [rewrite <- app_assoc; reflexivity | rewrite <- app_assoc; exact H].
Qed.

Lemma iset_of_id (l : list Z) : NoDup l -> iset_of l = l.
Proof. intros H. exact (fold_iset_add_id l [] H). Qed.

Lemma iset_add_length (s : list Z) (x : Z) :
  List.length (iset_add s x) = if existsb (Z.eqb x) s then List.length s else S (List.length s).
Proof.
  unfold iset_add. destruct (existsb (Z.eqb x) s); [reflexivity |].
  rewrite length_app. simpl. lia.
Qed.

Lemma iset_discard_In (s : list Z) (x y : Z) :
  List.In y (iset_discard s x) <-> List.In y s /\ y <> x.
Proof.
  unfold iset_discard. split; [apply in_remove |].
  intros [H1 H2]. apply in_in_remove; assumption.
Qed.

Lemma iset_discard_nodup (s : list Z) (x : Z) : NoDup s -> NoDup (iset_discard s x).
Proof. intros H. unfold iset_discard. rewrite <- remove_alt. apply NoDup_filter. exact H. Qed.

Lemma iset_discard_length (s : list Z) (x : Z) :
  NoDup s -> List.length (iset_discard s x) = if existsb (Z.eqb x) s then pred (List.length s) else List.length s.
Proof.
  intros Hs. unfold iset_discard. destruct (existsb (Z.eqb x) s) eqn:E.
  - apply in_existsb_eqb in E. apply in_split in E as [l1 [l2 ->]].
    assert (H1 : ~ List.In x (l1 ++ l2)) by exact (NoDup_remove_2 _ _ _ Hs).
    rewrite remove_app, remove_cons, !notin_remove
      by (intros H; apply H1, in_or_app; auto).
    rewrite !length_app. simpl. lia.
  - rewrite notin_remove; [reflexivity |]. intros H. apply in_existsb_eqb in H. congruence.
Qed.

Lemma box_eqb_same (pkval : Z -> Z) (p v : Z) :
  (pkval p = pkval v -> p = v) -> BoxSet.box_eqb pkval p v = Z.eqb p v.
Proof.
  intros H. unfold BoxSet.box_eqb.
  destruct (Z.eqb_spec p v) as [-> | Hne]; [apply Z.eqb_refl |].
  apply Z.eqb_neq. intros E. apply Hne, H, E.
Qed.

Lemma existsb_box_eqb (pkval : Z -> Z) (v : Z) (l : list Z) :
  (forall x, List.In x l -> pkval x = pkval v -> x = v) ->
  existsb (BoxSet.box_eqb pkval v) l = existsb (Z.eqb v) l.
Proof.
  induction l as [| y rest IH]; intros H; [reflexivity |]. cbn [existsb].
  rewrite IH by (intros x Hx; apply H; right; exact Hx).
  f_equal. apply box_eqb_same. intros E. symmetry. apply H; [left; reflexivity | symmetry; exact E].
Qed.

Lemma remove_first_discard (pkval : Z -> Z) (l : list Z) (v : Z) :
  NoDup l -> (forall x, List.In x l -> pkval x = pkval v -> x = v) ->
  BoxSet.remove_first pkval v l = iset_discard l v.
Proof.
  unfold iset_discard. induction l as [| y rest IH]; intros H Hv; [reflexivity |].
  cbn [BoxSet.remove_first remove].
  inversion H as [| ? ? Hy Hr]; subst.
  rewrite box_eqb_same by (apply Hv; left; reflexivity).
  destruct (Z.eqb_spec y v) as [-> | Hne].
  - destruct (Z.eq_dec v v) as [_ | C]; [| congruence]. symmetry. apply notin_remove. exact Hy.
  - destruct (Z.eq_dec v y) as [C | _]; [congruence |]. f_equal. apply IH; [exact Hr |].
    intros x Hx. apply Hv. right. exact Hx.
Qed.

Lemma repr_nodup (a : eset) : BoxSet.repr_ok a -> NoDup (BoxSet.members a).
Proof.
  destruct a as [| z | p | l | l]; simpl; try tauto; try (intros; repeat constructor; intros []).
Qed.

Lemma from_set_ok (s : list Z) :
  NoDup s -> BoxSet.repr_ok (BoxSet.from_set s) /\ BoxSet.members (BoxSet.from_set s) = s.
Proof.
  intros H. destruct s as [| x [| y r]]; [simpl; tauto | simpl; tauto |].
  unfold BoxSet.from_set.
  destruct (Nat.leb_spec (List.length (x :: y :: r)) ARRAY_SIZE_MAX) as [Hl | Hl].
  - split; [split; [exact H | simpl in *; lia] | reflexivity].
  - split; [split; [exact H | unfold SET_SIZE_MIN, ARRAY_SIZE_MAX in *; simpl in *; lia] | reflexivity].
Qed.

Lemma to_set_ok (a : eset) :
  BoxSet.repr_ok a -> BoxSet.to_set a = Ok (BoxSet.members a).
Proof.
  destruct a as [| z | p | l | l]; simpl; try tauto; try reflexivity.
  intros [H _]. rewrite iset_of_id by exact H. reflexivity.
Qed.

Lemma copy_ok (a : eset) : BoxSet.repr_ok a -> BoxSet.copy a = Ok a.
Proof. destruct a; simpl; tauto. Qed.

Lemma boxset_add_ok (pkval : Z -> Z) (a : eset) (v : Z) :
  BoxSet.repr_ok a ->
  (forall x, List.In x (BoxSet.members a) -> pkval x = pkval v -> x = v) ->
  exists a', BoxSet.add pkval a v = Ok a' /\ BoxSet.repr_ok a'
             /\ forall x, List.In x (BoxSet.members a') <-> List.In x (BoxSet.members a) \/ x = v.
Proof.
  destruct a as [| z | p | l | l]; cbn [BoxSet.repr_ok BoxSet.members BoxSet.add];
    intros Hr Hv; try contradiction.
  - eexists; split; [reflexivity |]. simpl. intuition.
  - rewrite box_eqb_same by (apply Hv; left; reflexivity).
    destruct (Z.eqb_spec p v) as [-> | Hne].
    + eexists; split; [reflexivity |]. simpl. intuition.
    + eexists; split; [reflexivity |]. simpl.
      split; [split; [repeat constructor; simpl; intuition | simpl; unfold ARRAY_SIZE_MAX; lia] |].
      intuition.
  - destruct Hr as [Hn Hl]. rewrite existsb_box_eqb by exact Hv.
    destruct (existsb (Z.eqb v) l) eqn:E.
    + eexists; split; [reflexivity |]. simpl. split; [tauto |].
      apply in_existsb_eqb in E. intros x; split; [tauto | intros [H | ->]; assumption].
    + assert (Hn' : NoDup (l ++ [v])).
      { apply NoDup_app; [exact Hn | repeat constructor; intros [] |].
        intros a Ha [<- | []]. apply in_existsb_eqb in Ha. congruence. }
      assert (Hin : forall x, List.In x (l ++ [v]) <-> List.In x l \/ x = v)
        by (intros x; rewrite in_app_iff; simpl; intuition).
      rewrite length_app. simpl.
      destruct (Nat.ltb_spec ARRAY_SIZE_MAX (List.length l + 1)) as [Hc | Hc].
      * eexists; split; [reflexivity |]. simpl. rewrite iset_of_id by exact Hn'.
        split; [split; [exact Hn' | rewrite length_app; unfold SET_SIZE_MIN, ARRAY_SIZE_MAX in *; simpl; lia] | exact Hin].
      * eexists; split; [reflexivity |]. simpl.
        split; [split; [exact Hn' | rewrite length_app; simpl; lia] | exact Hin].
  - destruct Hr as [Hn Hl].
    eexists; split; [reflexivity |]. simpl.
    split; [split; [apply iset_add_nodup; exact Hn | rewrite iset_add_length; destruct (existsb _ _); lia] |].
    intros x. apply iset_add_In.
Qed.

Lemma boxset_discard_ok (pkval : Z -> Z) (a : eset) (v : Z) :
  BoxSet.repr_ok a ->
  (forall x, List.In x (BoxSet.members a) -> pkval x = pkval v -> x = v) ->
  exists a', BoxSet.discard pkval a v = Ok a' /\ BoxSet.repr_ok a'
             /\ forall x, List.In x (BoxSet.members a') <-> List.In x (BoxSet.members a) /\ x <> v.
Proof.
  destruct a as [| z | p | l | l]; cbn [BoxSet.repr_ok BoxSet.members BoxSet.discard];
    intros Hr Hv; try contradiction.
  - eexists; split; [reflexivity |]. simpl. intuition.
  - rewrite box_eqb_same by (apply Hv; left; reflexivity).
    destruct (Z.eqb_spec p v) as [-> | Hne].
    + eexists; split; [reflexivity |]. simpl. intuition.
    + eexists; split; [reflexivity |]. simpl. split; [exact I |]. intuition congruence.
  - destruct Hr as [Hn Hl]. rewrite existsb_box_eqb by exact Hv.
    destruct (existsb (Z.eqb v) l) eqn:E; simpl.
    + rewrite remove_first_discard by assumption.
      pose proof (iset_discard_length l v Hn) as Hlen. rewrite E in Hlen.
      pose proof (iset_discard_nodup l v Hn) as Hn'.
      destruct (iset_discard l v) as [| x0 [| y0 r0]] eqn:Ed; simpl in Hlen; [lia | |].
      * eexists; split; [reflexivity |]. simpl. split; [exact I |].
        intros x. rewrite <- iset_discard_In, Ed. reflexivity.
      * eexists; split; [reflexivity |]. simpl.
        split; [split; [exact Hn' | simpl; lia] |].
        intros x. rewrite <- iset_discard_In, Ed. reflexivity.
    + eexists; split; [reflexivity |]. simpl. split; [tauto |].
      intros x; split; [intros H; split; [exact H |] | tauto].
      intros ->. assert (C : existsb (Z.eqb v) l = true) by (apply in_existsb_eqb; exact H).
      congruence.
  - destruct Hr as [Hn Hl].
    pose proof (iset_discard_length l v Hn) as Hlen.
    pose proof (iset_discard_nodup l v Hn) as Hn'.
    assert (Hin : forall x, List.In x (iset_discard l v) <-> List.In x l /\ x <> v)
      by (intros x; apply iset_discard_In).
    destruct (Nat.ltb_spec (List.length (iset_discard l v)) SET_SIZE_MIN) as [Hc | Hc].
    + eexists; split; [reflexivity |]. simpl.
      split; [split; [exact Hn' | unfold SET_SIZE_MIN, ARRAY_SIZE_MAX in *; destruct (existsb _ _); lia] | exact Hin].
    + eexists; split; [reflexivity |]. simpl. split; [split; [exact Hn' | lia] | exact Hin].
Qed.

(** [set_ops.add] and [set_ops.discard] on a well-formed efficient set of
    boxes never fail, keep it well-formed (an array of 2 to 32 distinct
    boxes, or a set of at least 16), and add or remove exactly the box
    [val], provided no other box of the set has a pk equal to [val]'s
    (the list and single-box branches compare with [Box.__eq__], the set
    branch by the pk object's identity). *)
Theorem boxset_add_discard (pkval : Z -> Z) (a : eset) (v : Z) :
  BoxSet.repr_ok a ->
  (forall x, List.In x (BoxSet.members a) -> pkval x = pkval v -> x = v) ->
  (exists a', BoxSet.add pkval a v = Ok a' /\ BoxSet.repr_ok a'
              /\ forall x, List.In x (BoxSet.members a') <-> List.In x (BoxSet.members a) \/ x = v)
  /\ (exists a', BoxSet.discard pkval a v = Ok a' /\ BoxSet.repr_ok a'
                 /\ forall x, List.In x (BoxSet.members a') <-> List.In x (BoxSet.members a) /\ x <> v).
Proof. intros H Hv. split; [apply boxset_add_ok | apply boxset_discard_ok]; assumption. Qed.

Lemma repr_ok_123 : BoxSet.repr_ok (EList [1; 2; 3]).
Proof.
  split; [repeat constructor; simpl; intuition discriminate | unfold ARRAY_SIZE_MAX; simpl; lia].
Qed.

Lemma boxset_add_discard_witness :
  BoxSet.add (fun x => x) (EList [1; 2; 3]) 4 = Ok (EList [1; 2; 3; 4])
  /\ BoxSet.discard (fun x => x) (EList [1; 2; 3]) 2 = Ok (EList [1; 3])
  /\ BoxSet.repr_ok (EList [1; 2; 3; 4]) /\ BoxSet.repr_ok (EList [1; 3]).
Proof.
  split; [reflexivity |]. split; [reflexivity |].
  assert (Hv : forall v x, List.In x (BoxSet.members (EList [1; 2; 3])) -> x = v -> x = v)
    by (intros v x _ E; exact E).
  destruct (boxset_add_discard (fun x => x) (EList [1; 2; 3]) 4 repr_ok_123 (Hv 4))
    as [[a1 [H1 [R1 _]]] _].
  destruct (boxset_add_discard (fun x => x) (EList [1; 2; 3]) 2 repr_ok_123 (Hv 2))
    as [_ [a2 [H2 [R2 _]]]].
  injection H1 as <-. injection H2 as <-. split; assumption.
Defined.

(** [set_ops.remove] on a well-formed efficient set of boxes, when no other
    box of the set has a pk equal to [val]'s, succeeds exactly when [val]
    is in it and it holds at least three boxes, and then removes exactly
    [val]: on a set of one or two boxes [size] meets a single [Box] (before
    or after the [discard]) and fails its assertion, and on a set without
    [val] the size is unchanged and it raises [KeyError]. *)
Theorem boxset_remove (pkval : Z -> Z) (a : eset) (v : Z) :
  BoxSet.repr_ok a ->
  (forall x, List.In x (BoxSet.members a) -> pkval x = pkval v -> x = v) ->
  ((exists a', BoxSet.remove pkval a v = Ok a') <->
   List.In v (BoxSet.members a) /\ (3 <= List.length (BoxSet.members a))%nat)
  /\ (forall a', BoxSet.remove pkval a v = Ok a' ->
      BoxSet.repr_ok a'
      /\ forall x, List.In x (BoxSet.members a') <-> List.In x (BoxSet.members a) /\ x <> v).
Proof.
  intros Hr Hv. split.
  - destruct a as [| z | p | l | l]; simpl in Hr |- *; try contradiction.
    + split; [intros [a' H]; discriminate | intros [[] _]].
    + split; [intros [a' H]; discriminate | simpl; lia].
    + destruct Hr as [Hn Hl]. unfold BoxSet.remove. cbn [BoxSet.size bind BoxSet.discard].
      rewrite existsb_box_eqb by exact Hv.
      destruct (existsb (Z.eqb v) l) eqn:E; simpl.
      * rewrite remove_first_discard by assumption.
        pose proof (iset_discard_length l v Hn) as Hlen. rewrite E in Hlen.
        apply in_existsb_eqb in E.
        destruct (iset_discard l v) as [| x0 [| y0 r0]] eqn:Ed; simpl in Hlen;
          [lia | simpl | cbn [bind BoxSet.size]].
        -- split; [intros [a' H]; discriminate | lia].
        -- replace (Nat.eqb (List.length (x0 :: y0 :: r0)) (List.length l)) with false
             by (symmetry; apply Nat.eqb_neq; simpl; lia).
           split; [intros _; split; [exact E | lia] | intros _; eexists; reflexivity].
      * rewrite Nat.eqb_refl. split; [intros [a' H]; discriminate |].
        intros [H _]. apply in_existsb_eqb in H. congruence.
    + destruct Hr as [Hn Hl].
      pose proof (iset_discard_length l v Hn) as Hlen.
      unfold BoxSet.remove, BoxSet.discard.
      destruct (existsb (Z.eqb v) l) eqn:E.
      * apply in_existsb_eqb in E.
        destruct (Nat.ltb _ SET_SIZE_MIN); cbn [BoxSet.size bind]; rewrite Hlen;
          (replace (Nat.eqb (pred (List.length l)) (List.length l)) with false
             by (symmetry; apply Nat.eqb_neq; unfold SET_SIZE_MIN in Hl; lia));
          (split; [intros _; split; [exact E | unfold SET_SIZE_MIN in Hl; lia]
                  | intros _; eexists; reflexivity]).
      * destruct (Nat.ltb _ SET_SIZE_MIN); cbn [BoxSet.size bind]; rewrite Hlen, Nat.eqb_refl;
          (split; [intros [a' H]; discriminate
                  | intros [H _]; apply in_existsb_eqb in H; congruence]).
  - intros a' H. unfold BoxSet.remove in H.
    destruct (BoxSet.size a) as [n | e]; simpl in H; [| discriminate].
    destruct (boxset_discard_ok pkval a v Hr Hv) as [a'' [Hd Hp]]. rewrite Hd in H. simpl in H.
    destruct (BoxSet.size a'') as [m | e]; simpl in H; [| discriminate].
    destruct (Nat.eqb m n); [discriminate |]. injection H as <-. exact Hp.
Qed.

Lemma boxset_remove_witness :
  BoxSet.remove (fun x => x) (EList [1; 2; 3]) 2 = Ok (EList [1; 3])
  /\ BoxSet.remove (fun x => x) (EList [1; 3]) 3 = Err AssertionError
  /\ BoxSet.remove (fun x => x) (EBox 1) 1 = Err AssertionError
  /\ BoxSet.repr_ok (EList [1; 3]).
Proof.
  split; [reflexivity |]. split; [reflexivity |]. split; [reflexivity |].
  assert (Hv : forall x, List.In x (BoxSet.members (EList [1; 2; 3])) -> x = 2 -> x = 2)
    by (intros x _ E; exact E).
  exact (proj1 (proj2 (boxset_remove (fun x => x) (EList [1; 2; 3]) 2 repr_ok_123 Hv)
                  (EList [1; 3]) eq_refl)).
Defined.

Lemma update_loop_ok (s : list Z) (bs : list eset) :
  NoDup s -> Forall BoxSet.repr_ok bs ->
  exists s', BoxSet.update_loop s bs = Ok s' /\ NoDup s'
             /\ forall x, List.In x s' <->
                  List.In x s \/ exists b, List.In b bs /\ List.In x (BoxSet.members b).
Proof.
  revert s. induction bs as [| b rest IH]; intros s Hs Hf; simpl.
  - exists s. split; [reflexivity |]. split; [exact Hs |]. intros x. split; [auto |].
    intros [H | [b [[] _]]]; exact H.
  - inversion Hf as [| ? ? Hb Hrest]; subst.
    assert (Hstep : forall s1, NoDup s1 ->
              (forall x, List.In x s1 <-> List.In x s \/ List.In x (BoxSet.members b)) ->
              exists s', BoxSet.update_loop s1 rest = Ok s' /\ NoDup s'
                /\ forall x, List.In x s' <-> List.In x s \/
                     exists b', (b = b' \/ List.In b' rest) /\ List.In x (BoxSet.members b')).
    { intros s1 Hs1 Hin. destruct (IH s1 Hs1 Hrest) as [s' [H1 [H2 H3]]].
      exists s'. split; [exact H1 |]. split; [exact H2 |]. intros x. rewrite H3, Hin.
      split.
      - intros [[H | H] | [b' [Hb' Hx]]]; [auto | right; exists b; auto | right; exists b'; auto].
      - intros [H | [b' [[<- | Hb'] Hx]]]; [auto | auto | right; exists b'; auto]. }
    destruct b as [| z | p | l | l]; simpl in Hb; try contradiction.
    + apply Hstep; [exact Hs | simpl; tauto].
    + apply Hstep; [apply iset_add_nodup; exact Hs |].
      intros x. rewrite iset_add_In. simpl. intuition.
    + apply Hstep; [apply fold_iset_add_nodup; exact Hs | intros x; apply fold_iset_add_In].
    + apply Hstep; [apply fold_iset_add_nodup; exact Hs | intros x; apply fold_iset_add_In].
Qed.

(** [set_ops.update(a, *b)] and [set_ops.union(a, *b)] on well-formed
    efficient sets of boxes return a well-formed efficient set holding the
    boxes of [a] and of every [b]; all these functions work through Python
    sets, so a box is identified by its pk object, as the set hashes it. *)
Theorem boxset_update (a : eset) (bs : list eset) :
  BoxSet.repr_ok a -> Forall BoxSet.repr_ok bs ->
  exists a', BoxSet.update a bs = Ok a' /\ BoxSet.union a bs = Ok a' /\ BoxSet.repr_ok a'
             /\ forall x, List.In x (BoxSet.members a') <->
                  List.In x (BoxSet.members a) \/ exists b, List.In b bs /\ List.In x (BoxSet.members b).
Proof.
  intros Ha Hbs.
  destruct (update_loop_ok (BoxSet.members a) bs (repr_nodup a Ha) Hbs) as [s' [H1 [H2 H3]]].
  destruct (from_set_ok s' H2) as [R M].
  assert (Hu : BoxSet.update a bs = Ok (BoxSet.from_set s'))
    by (unfold BoxSet.update; rewrite (to_set_ok a Ha); cbn [bind]; rewrite H1; reflexivity).
  exists (BoxSet.from_set s'). split; [exact Hu |].
  split; [unfold BoxSet.union; rewrite (copy_ok a Ha); exact Hu |].
  split; [exact R | rewrite M; exact H3].
Qed.

Lemma boxset_update_witness :
  BoxSet.union (EList [1; 2; 3]) [EBox 5; ENone; EList [1; 2; 3]] = Ok (EList [1; 2; 3; 5])
  /\ BoxSet.repr_ok (EList [1; 2; 3; 5]).
Proof.
  split; [vm_compute; reflexivity |].
  destruct (boxset_update (EList [1; 2; 3]) [EBox 5; ENone; EList [1; 2; 3]] repr_ok_123
              (Forall_cons (EBox 5) I (Forall_cons ENone I (Forall_cons _ repr_ok_123 (Forall_nil _))))) as [a' [_ [H [R _]]]].
  vm_compute in H. injection H as <-. exact R.
Defined.

Lemma filter_mem_In (s l : list Z) (x : Z) :
  List.In x (filter (fun y => existsb (Z.eqb y) l) s) <-> List.In x s /\ List.In x l.
Proof. rewrite filter_In, in_existsb_eqb. reflexivity. Qed.

Lemma filter_notmem_In (s l : list Z) (x : Z) :
  List.In x (filter (fun y => negb (existsb (Z.eqb y) l)) s) <-> List.In x s /\ ~ List.In x l.
Proof.
  rewrite filter_In, negb_true_iff, <- not_true_iff_false, in_existsb_eqb. reflexivity.
Qed.

Lemma intersection_loop_ok (s : list Z) (bs : list eset) :
  NoDup s -> Forall BoxSet.repr_ok bs ->
  exists a', BoxSet.intersection_loop s bs = Ok a' /\ BoxSet.repr_ok a'
             /\ forall x, List.In x (BoxSet.members a') <->
                  List.In x s /\ forall b, List.In b bs -> List.In x (BoxSet.members b).
Proof.
  revert s. induction bs as [| b rest IH]; intros s Hs Hf; simpl.
  - destruct (from_set_ok s Hs) as [R M]. exists (BoxSet.from_set s).
    split; [reflexivity |]. split; [exact R |]. rewrite M. intros x. split; [| tauto].
    intros H. split; [exact H | intros b []].
  - inversion Hf as [| ? ? Hb Hrest]; subst.
    assert (Hfilter : forall l, b = EList l \/ b = ESet l ->
              exists a', (match filter (fun x => existsb (Z.eqb x) l) s with
                          | [] => Ok ENone
                          | s' => BoxSet.intersection_loop s' rest end) = Ok a'
                /\ BoxSet.repr_ok a'
                /\ forall x, List.In x (BoxSet.members a') <->
                     List.In x s /\ forall b', b = b' \/ List.In b' rest -> List.In x (BoxSet.members b')).
    { intros l Hbl. assert (Hm : BoxSet.members b = l) by (destruct Hbl as [-> | ->]; reflexivity).
      destruct (filter (fun x => existsb (Z.eqb x) l) s) as [| y ys] eqn:F.
      - exists ENone. split; [reflexivity |]. split; [exact I |]. intros x; split; [intros [] |].
        intros [Hx Hall]. assert (Hxl : List.In x l) by (rewrite <- Hm; apply Hall; left; reflexivity).
        assert (C : List.In x (filter (fun y => existsb (Z.eqb y) l) s))
          by (apply filter_mem_In; auto).
        rewrite F in C. destruct C.
      - assert (Hn : NoDup (y :: ys)) by (rewrite <- F; apply NoDup_filter; exact Hs).
        destruct (IH (y :: ys) Hn Hrest) as [a' [H1 [H2 H3]]].
        exists a'. split; [exact H1 |]. split; [exact H2 |]. intros x. rewrite H3, <- F, filter_mem_In.
        split.
        + intros [[Hx Hxl] Hall]. split; [exact Hx |]. intros b' [<- | Hb']; [rewrite Hm; exact Hxl | auto].
        + intros [Hx Hall]. split; [split; [exact Hx | rewrite <- Hm; apply Hall; auto] |].
          intros b' Hb'. apply Hall. auto. }
    destruct b as [| z | p | l | l]; simpl in Hb; try contradiction.
    + exists ENone. split; [reflexivity |]. split; [exact I |]. intros x; split; [intros [] |].
      intros [_ Hall]. exact (Hall ENone (or_introl eq_refl)).
    + destruct (existsb (Z.eqb p) s) eqn:E.
      * apply in_existsb_eqb in E.
        destruct (IH [p] ltac:(repeat constructor; intros []) Hrest) as [a' [H1 [H2 H3]]].
        exists a'. split; [exact H1 |]. split; [exact H2 |]. intros x. rewrite H3. simpl.
        split.
        -- intros [[<- | []] Hall]. split; [exact E |]. intros b' [<- | Hb']; [left; reflexivity | auto].
        -- intros [Hx Hall]. destruct (Hall (EBox p) (or_introl eq_refl)) as [<- | []].
           split; [left; reflexivity | intros b' Hb'; apply Hall; auto].
      * exists ENone. split; [reflexivity |]. split; [exact I |]. intros x; split; [intros [] |].
        intros [Hx Hall]. destruct (Hall (EBox p) (or_introl eq_refl)) as [<- | []].
        assert (C : existsb (Z.eqb p) s = true) by (apply in_existsb_eqb; exact Hx). congruence.
    + exact (Hfilter l (or_introl eq_refl)).
    + exact (Hfilter l (or_intror eq_refl)).
Qed.

(** [set_ops.intersection_update(a, *b)] and [set_ops.intersection(a, *b)]
    on well-formed efficient sets of boxes return a well-formed efficient
    set holding the boxes of [a] that are in every [b], a box being
    identified by its pk object, as the Python set hashes it. *)
Theorem boxset_intersection (a : eset) (bs : list eset) :
  BoxSet.repr_ok a -> Forall BoxSet.repr_ok bs ->
  exists a', BoxSet.intersection_update a bs = Ok a' /\ BoxSet.intersection a bs = Ok a'
             /\ BoxSet.repr_ok a'
             /\ forall x, List.In x (BoxSet.members a') <->
                  List.In x (BoxSet.members a) /\ forall b, List.In b bs -> List.In x (BoxSet.members b).
Proof.
  intros Ha Hbs.
  destruct (intersection_loop_ok (BoxSet.members a) bs (repr_nodup a Ha) Hbs) as [a' [H1 [H2 H3]]].
  assert (Hu : BoxSet.intersection_update a bs = Ok a')
    by (unfold BoxSet.intersection_update; rewrite (to_set_ok a Ha); cbn [bind]; exact H1).
  exists a'. split; [exact Hu |].
  split; [unfold BoxSet.intersection; rewrite (copy_ok a Ha); exact Hu |].
  split; [exact H2 | exact H3].
Qed.

Lemma boxset_intersection_witness :
  BoxSet.intersection (EList [1; 2; 3]) [EList [1; 2; 3]; EBox 2] = Ok (EBox 2)
  /\ BoxSet.intersection (EList [1; 2; 3]) [EBox 7] = Ok ENone
  /\ BoxSet.repr_ok (EBox 2).
Proof.
  split; [vm_compute; reflexivity |]. split; [vm_compute; reflexivity |].
  destruct (boxset_intersection (EList [1; 2; 3]) [EList [1; 2; 3]; EBox 2] repr_ok_123
              (Forall_cons _ repr_ok_123 (Forall_cons (EBox 2) I (Forall_nil _)))) as [a' [_ [H [R _]]]].
  vm_compute in H. injection H as <-. exact R.
Defined.

Lemma difference_loop_ok (s : list Z) (bs : list eset) :
  NoDup s -> Forall BoxSet.repr_ok bs ->
  exists s', BoxSet.difference_loop s bs = Ok s' /\ NoDup s'
             /\ forall x, List.In x s' <->
                  List.In x s /\ forall b, List.In b bs -> ~ List.In x (BoxSet.members b).
Proof.
  revert s. induction bs as [| b rest IH]; intros s Hs Hf; simpl.
  - exists s. split; [reflexivity |]. split; [exact Hs |]. intros x. split; [| tauto].
    intros H. split; [exact H | intros b []].
  - inversion Hf as [| ? ? Hb Hrest]; subst.
    assert (Hstep : forall s1, NoDup s1 ->
              (forall x, List.In x s1 <-> List.In x s /\ ~ List.In x (BoxSet.members b)) ->
              exists s', BoxSet.difference_loop s1 rest = Ok s' /\ NoDup s'
                /\ forall x, List.In x s' <-> List.In x s /\
                     forall b', b = b' \/ List.In b' rest -> ~ List.In x (BoxSet.members b')).
    { intros s1 Hs1 Hin. destruct (IH s1 Hs1 Hrest) as [s' [H1 [H2 H3]]].
      exists s'. split; [exact H1 |]. split; [exact H2 |]. intros x. rewrite H3, Hin.
      split.
      - intros [[Hx Hnb] Hall]. split; [exact Hx |]. intros b' [<- | Hb']; [exact Hnb | auto].
      - intros [Hx Hall]. split; [split; [exact Hx | apply Hall; auto] | intros b' Hb'; apply Hall; auto]. }
    destruct b as [| z | p | l | l]; simpl in Hb; try contradiction.
    + apply Hstep; [exact Hs | simpl; tauto].
    + apply Hstep; [apply iset_discard_nodup; exact Hs |].
      intros x. rewrite iset_discard_In. simpl. intuition.
    + apply Hstep; [apply NoDup_filter; exact Hs | intros x; apply filter_notmem_In].
    + apply Hstep; [apply NoDup_filter; exact Hs | intros x; apply filter_notmem_In].
Qed.

(** [set_ops.difference_update(a, *b)] and [set_ops.difference(a, *b)] on
    well-formed efficient sets of boxes return a well-formed efficient set
    holding the boxes of [a] that are in no [b], a box being identified
    by its pk object, as the Python set hashes it. *)
Theorem boxset_difference (a : eset) (bs : list eset) :
  BoxSet.repr_ok a -> Forall BoxSet.repr_ok bs ->
  exists a', BoxSet.difference_update a bs = Ok a' /\ BoxSet.difference a bs = Ok a'
             /\ BoxSet.repr_ok a'
             /\ forall x, List.In x (BoxSet.members a') <->
                  List.In x (BoxSet.members a) /\ forall b, List.In b bs -> ~ List.In x (BoxSet.members b).
Proof.
  intros Ha Hbs.
  destruct (difference_loop_ok (BoxSet.members a) bs (repr_nodup a Ha) Hbs) as [s' [H1 [H2 H3]]].
  destruct (from_set_ok s' H2) as [R M].
  assert (Hu : BoxSet.difference_update a bs = Ok (BoxSet.from_set s'))
    by (unfold BoxSet.difference_update; rewrite (to_set_ok a Ha); cbn [bind]; rewrite H1; reflexivity).
  exists (BoxSet.from_set s'). split; [exact Hu |].
  split; [unfold BoxSet.difference; rewrite (copy_ok a Ha); exact Hu |].
  split; [exact R | rewrite M; exact H3].
Qed.

Lemma boxset_difference_witness :
  BoxSet.difference (EList [1; 2; 3]) [EBox 2; ENone] = Ok (EList [1; 3])
  /\ BoxSet.repr_ok (EList [1; 3]).
Proof.
  split; [vm_compute; reflexivity |].
  destruct (boxset_difference (EList [1; 2; 3]) [EBox 2; ENone] repr_ok_123
              (Forall_cons (EBox 2) I (Forall_cons ENone I (Forall_nil _)))) as [a' [_ [H [R _]]]].
  vm_compute in H. injection H as <-. exact R.
Defined.

(** [set_ops.symmetric_difference_update(a, b)] and
    [set_ops.symmetric_difference(a, b)] on well-formed efficient sets of
    boxes return a well-formed efficient set holding the boxes in exactly
    one of [a] and [b], a box being identified by its pk object, as the
    Python set hashes it. *)
Theorem boxset_symmetric_difference (a b : eset) :
  BoxSet.repr_ok a -> BoxSet.repr_ok b ->
  exists a', BoxSet.symmetric_difference_update a b = Ok a'
             /\ BoxSet.symmetric_difference a b = Ok a' /\ BoxSet.repr_ok a'
             /\ forall x, List.In x (BoxSet.members a') <->
                  (List.In x (BoxSet.members a) /\ ~ List.In x (BoxSet.members b))
                  \/ (List.In x (BoxSet.members b) /\ ~ List.In x (BoxSet.members a)).
Proof.
  intros Ha Hb. set (s := BoxSet.members a). pose proof (repr_nodup a Ha) as Hs. fold s in Hs.
  assert (Hgen : forall s', NoDup s' ->
            (forall x, List.In x s' <-> (List.In x s /\ ~ List.In x (BoxSet.members b))
                                       \/ (List.In x (BoxSet.members b) /\ ~ List.In x s)) ->
            BoxSet.symmetric_difference_update a b = Ok (BoxSet.from_set s') ->
            exists a', BoxSet.symmetric_difference_update a b = Ok a'
              /\ BoxSet.symmetric_difference a b = Ok a' /\ BoxSet.repr_ok a'
              /\ forall x, List.In x (BoxSet.members a') <->
                   (List.In x s /\ ~ List.In x (BoxSet.members b))
                   \/ (List.In x (BoxSet.members b) /\ ~ List.In x s)).
  { intros s' Hn Hin Hu. destruct (from_set_ok s' Hn) as [R M].
    exists (BoxSet.from_set s'). split; [exact Hu |].
    split; [unfold BoxSet.symmetric_difference; rewrite (copy_ok a Ha); exact Hu |].
    split; [exact R | rewrite M; exact Hin]. }
  destruct b as [| z | p | l | l]; simpl in Hb; try contradiction.
  - eapply Hgen; [exact Hs | simpl; tauto | unfold BoxSet.symmetric_difference_update; rewrite (to_set_ok a Ha); cbn [bind]; fold s; try rewrite E; reflexivity].
  - destruct (existsb (Z.eqb p) s) eqn:E.
    + pose proof (proj1 (in_existsb_eqb p s) E) as Ep. eapply Hgen; [apply iset_discard_nodup; exact Hs | | unfold BoxSet.symmetric_difference_update; rewrite (to_set_ok a Ha); cbn [bind]; fold s; try rewrite E; reflexivity].
      intros x. rewrite iset_discard_In. simpl. split.
      * intros [Hx Hne]. left. split; [exact Hx | intuition].
      * intros [[Hx Hn] | [[<- | []] Hn]]; [split; [exact Hx | intros ->; auto] | contradiction].
    + eapply Hgen; [apply iset_add_nodup; exact Hs | | unfold BoxSet.symmetric_difference_update; rewrite (to_set_ok a Ha); cbn [bind]; fold s; try rewrite E; reflexivity].
      intros x. rewrite iset_add_In. simpl. split.
      * intros [Hx | ->]; [left; split; [exact Hx | intros [<- | []]] | right; split; [auto |]].
        -- assert (C : existsb (Z.eqb p) s = true) by (apply in_existsb_eqb; exact Hx). congruence.
        -- intros Hx. assert (C : existsb (Z.eqb p) s = true) by (apply in_existsb_eqb; exact Hx).
           congruence.
      * intros [[Hx _] | [[<- | []] _]]; auto.
  - destruct Hb as [Hbn _].
    assert (Hn : NoDup (filter (fun x => negb (existsb (Z.eqb x) l)) s
                        ++ filter (fun x => negb (existsb (Z.eqb x) s)) (iset_of l))).
    { apply NoDup_app; [apply NoDup_filter; exact Hs | apply NoDup_filter, iset_of_nodup |].
      intros x H1 H2. apply filter_notmem_In in H1. apply filter_notmem_In in H2. tauto. }
    eapply Hgen; [exact Hn | | unfold BoxSet.symmetric_difference_update; rewrite (to_set_ok a Ha); cbn [bind]; fold s; try rewrite E; reflexivity].
    intros x. rewrite in_app_iff, filter_notmem_In, filter_notmem_In, iset_of_In. simpl. tauto.
  - destruct Hb as [Hbn _].
    assert (Hn : NoDup (filter (fun x => negb (existsb (Z.eqb x) l)) s
                        ++ filter (fun x => negb (existsb (Z.eqb x) s)) (iset_of l))).
    { apply NoDup_app; [apply NoDup_filter; exact Hs | apply NoDup_filter, iset_of_nodup |].
      intros x H1 H2. apply filter_notmem_In in H1. apply filter_notmem_In in H2. tauto. }
    eapply Hgen; [exact Hn | | unfold BoxSet.symmetric_difference_update; rewrite (to_set_ok a Ha); cbn [bind]; fold s; try rewrite E; reflexivity].
    intros x. rewrite in_app_iff, filter_notmem_In, filter_notmem_In, iset_of_In. simpl. tauto.
Qed.

Lemma boxset_symmetric_difference_witness :
  BoxSet.symmetric_difference (EList [1; 2; 3]) (EBox 2) = Ok (EList [1; 3])
  /\ BoxSet.symmetric_difference (EList [1; 2; 3]) (EBox 5) = Ok (EList [1; 2; 3; 5])
  /\ BoxSet.repr_ok (EList [1; 3]).
Proof.
  split; [vm_compute; reflexivity |]. split; [vm_compute; reflexivity |].
  destruct (boxset_symmetric_difference (EList [1; 2; 3]) (EBox 2) repr_ok_123 I)
    as [a' [_ [H [R _]]]].
  vm_compute in H. injection H as <-. exact R.
Defined.

(** [set_ops.create(a)] of an iterable of distinct boxes is a well-formed
    efficient set holding exactly them; it builds an array only below
    [ARRAY_SIZE_MAX] boxes, so exactly 32 boxes give a set where
    [from_set] gives an array. *)
Theorem boxset_create (l : list Z) :
  NoDup l ->
  BoxSet.repr_ok (BoxSet.create (Some l)) /\ BoxSet.members (BoxSet.create (Some l)) = l
  /\ (List.length l = ARRAY_SIZE_MAX ->
      BoxSet.create (Some l) = ESet l /\ BoxSet.from_set l = EList l).
Proof.
  intros Hn. destruct l as [| x [| y r]].
  - split; [exact I |]. split; [reflexivity |]. unfold ARRAY_SIZE_MAX. intros E; discriminate E.
  - split; [exact I |]. split; [reflexivity |]. unfold ARRAY_SIZE_MAX. intros E; discriminate E.
  - unfold BoxSet.create, BoxSet.from_set.
    destruct (Nat.ltb_spec (List.length (x :: y :: r)) ARRAY_SIZE_MAX) as [Hc | Hc].
    + split; [split; [exact Hn | simpl in *; lia] |]. split; [reflexivity |].
      intros E. rewrite E in Hc. lia.
    + rewrite iset_of_id by exact Hn.
      split; [split; [exact Hn | unfold SET_SIZE_MIN, ARRAY_SIZE_MAX in *; lia] |].
      split; [reflexivity |]. intros E. rewrite E, Nat.leb_refl. split; reflexivity.
Qed.

Lemma boxset_create_witness :
  BoxSet.create (Some [1; 2; 3]) = EList [1; 2; 3] /\ BoxSet.repr_ok (EList [1; 2; 3]).
Proof.
  split; [reflexivity |].
  exact (proj1 (boxset_create [1; 2; 3] ltac:(repeat constructor; simpl; intuition discriminate))).
Defined.
